(** * rappit: the content formatter and the request history

    A shallow embedding of [src/app/history_manager.py] and
    [src/app/formatter.py].

    - A Python [str] is a sequence of Unicode code points: [str := list N].
    - A Python [dict] keeps its keys in insertion order, so it is an
      association list with unique keys ([dict_set], [dict_del], ...).
    - The [Gtk.ListBox] is the list of its rows, top row first; a row is
      identified by the number it was allocated with.
    - [json.loads] / [json.dumps] and the handful of regular expressions the
      formatter uses are written out as functions on [str]. *)

From Stdlib Require Import List Bool Arith ZArith NArith Lia String Ascii Permutation.
From Stdlib Require Import DecimalZ.
From Stdlib Require DecimalFacts.
Import ListNotations.

Set Implicit Arguments.
Local Open Scope list_scope.

(* ================================================================== *)
(** ** Python strings *)
(* ================================================================== *)

Definition char := N.
Definition str := list char.

(** [py "text"] is the Python literal ['text'] (ASCII). *)
Definition py (s : string) : str :=
  List.map N_of_ascii (list_ascii_of_string s).

Fixpoint str_eqb (a b : str) : bool :=
  match a, b with
  | [], [] => true
  | x :: a', y :: b' => N.eqb x y && str_eqb a' b'
  | _, _ => false
  end.

(** [not s] on a string: true exactly for the empty string. *)
Definition py_not (s : str) : bool :=
  match s with [] => true | _ => false end.

(* ================================================================== *)
(** ** Python dictionaries (insertion ordered) *)
(* ================================================================== *)

Section Dict.
Variable V : Type.

Definition dict := list (str * V).

Definition keys (d : dict) : list str := List.map fst d.

(** [d.get(k)] *)
Fixpoint dict_get (d : dict) (k : str) : option V :=
  match d with
  | [] => None
  | (k', v) :: d' => if str_eqb k' k then Some v else dict_get d' k
  end.

(** [k in d] *)
Definition dict_mem (d : dict) (k : str) : bool :=
  match dict_get d k with Some _ => true | None => false end.

(** [d[k] = v]: an existing key keeps its position, a new key goes last. *)
Fixpoint dict_set (d : dict) (k : str) (v : V) : dict :=
  match d with
  | [] => [(k, v)]
  | (k', v') :: d' =>
      if str_eqb k' k then (k', v) :: d' else (k', v') :: dict_set d' k v
  end.

(** [del d[k]] *)
Fixpoint dict_del (d : dict) (k : str) : dict :=
  match d with
  | [] => []
  | (k', v') :: d' =>
      if str_eqb k' k then d' else (k', v') :: dict_del d' k
  end.
End Dict.

(* ================================================================== *)
(** ** history_manager.py *)
(* ================================================================== *)

(** The response dictionary handed over by the request handler.  The
    history manager reads two keys through [response.get(key, 0)]; [None]
    stands for an absent key.  The other keys travel in [resp_other]. *)
Record response := mkResponse {
  resp_status_code : option Z;
  resp_response_time : option Z;
  resp_other : list (str * str)
}.

Inductive emoji := Success | Redirection | ClientServerError.

(** The text of the subtitle label: emoji, status code and time. *)
Record subtitle := mkSubtitle {
  sub_emoji : emoji;
  sub_status : Z;
  sub_time : Z
}.

Definition row := nat.

(** One value of [history_data]: the dictionary built in
    [_create_history_item].  The labels are reachable only through this
    dictionary and the row, so their text is kept here. *)
Record item := mkItem {
  it_method : str;
  it_url : str;
  it_response : response;
  it_body : str;
  it_headers : list (str * str);
  it_row : row;
  it_title_label : str * str;
  it_subtitle_label : subtitle
}.

Record HistoryManager := mkHM {
  history_list : list row;          (* children of the Gtk.ListBox, top first *)
  history_data : dict item;
  next_row : row                    (* allocator of Gtk.ListBoxRow objects *)
}.

Definition max_items : nat := 20.

(** [HistoryManager.__init__] *)
Definition init : HistoryManager :=
  {| history_list := []; history_data := []; next_row := 0 |}.

(** [Gtk.ListBox.insert(row, 0)] and [Gtk.ListBox.remove(row)] *)
Definition listbox_insert0 (l : list row) (r : row) : list row := r :: l.

Fixpoint listbox_remove (l : list row) (r : row) : list row :=
  match l with
  | [] => []
  | r' :: l' => if Nat.eqb r' r then l' else r' :: listbox_remove l' r
  end.

Definition get_or (o : option Z) (default : Z) : Z :=
  match o with Some z => z | None => default end.

Definition status_emoji (status_code : Z) : emoji :=
  if (200 <=? status_code)%Z && (status_code <? 300)%Z then Success
  else if (300 <=? status_code)%Z && (status_code <? 400)%Z then Redirection
  else ClientServerError.

Definition subtitle_of (resp : response) : subtitle :=
  let status_code := get_or (resp_status_code resp) 0 in
  {| sub_emoji := status_emoji status_code;
     sub_status := status_code;
     sub_time := get_or (resp_response_time resp) 0 |}.

(** [remove_history_item] *)
Definition remove_history_item (self : HistoryManager) (request_key : str)
  : HistoryManager :=
  match dict_get (history_data self) request_key with
  | Some data =>
      {| history_list := listbox_remove (history_list self) (it_row data);
         history_data := dict_del (history_data self) request_key;
         next_row := next_row self |}
  | None => self
  end.

(** [_remove_oldest_item]: the first key of the dictionary goes. *)
Definition _remove_oldest_item (self : HistoryManager) : HistoryManager :=
  match keys (history_data self) with
  | [] => self
  | oldest_key :: _ => remove_history_item self oldest_key
  end.

(** [_create_history_item] *)
Definition _create_history_item (self : HistoryManager)
    (request_key method url : str) (resp : response) (request_body : str)
    (headers : list (str * str)) : HistoryManager :=
  let r := next_row self in
  let data :=
    {| it_method := method; it_url := url; it_response := resp;
       it_body := request_body; it_headers := headers; it_row := r;
       it_title_label := (method, url);
       it_subtitle_label := subtitle_of resp |} in
  let self' :=
    {| history_list := listbox_insert0 (history_list self) r;
       history_data := dict_set (history_data self) request_key data;
       next_row := S r |} in
  if Nat.ltb max_items (List.length (history_data self'))
  then _remove_oldest_item self'
  else self'.

(** The dictionary [data] after [data['response'] = response] and the
    refresh of its subtitle label. *)
Definition with_response (data : item) (resp : response) : item :=
  {| it_method := it_method data; it_url := it_url data;
     it_response := resp;
     it_body := it_body data; it_headers := it_headers data;
     it_row := it_row data;
     it_title_label := it_title_label data;
     it_subtitle_label := subtitle_of resp |}.

(** [_update_history_item] *)
Definition _update_history_item (self : HistoryManager) (request_key : str)
    (resp : response) : HistoryManager :=
  match dict_get (history_data self) request_key with
  | None => self
  | Some data =>
      {| history_list :=
           listbox_insert0 (listbox_remove (history_list self) (it_row data))
                           (it_row data);
         history_data :=
           dict_set (history_data self) request_key (with_response data resp);
         next_row := next_row self |}
  end.

(** The key of a request: [f"{method}_{url}"]. *)
Definition request_key_of (method url : str) : str :=
  method ++ py "_" ++ url.

(** [add_to_history] *)
Definition add_to_history (self : HistoryManager) (method url : str)
    (resp : response) (request_body : str) (headers : list (str * str))
  : HistoryManager :=
  if py_not url then self
  else
    let request_key := request_key_of method url in
    if dict_mem (history_data self) request_key
    then _update_history_item self request_key resp
    else _create_history_item self request_key method url resp
                              request_body headers.

(** [clear_history] *)
Definition clear_history (self : HistoryManager) : HistoryManager :=
  fold_left remove_history_item (keys (history_data self)) self.

(** [get_history_data] *)
Definition get_history_data (self : HistoryManager) (request_key : str)
  : option item :=
  dict_get (history_data self) request_key.

(** [get_request_key_from_row] *)
Definition get_request_key_from_row (self : HistoryManager) (r : row)
  : option str :=
  match find (fun kv => Nat.eqb (it_row (snd kv)) r) (history_data self) with
  | Some (request_key, _) => Some request_key
  | None => None
  end.

(** The ordered view of the history is what the list box shows: its rows
    from the top, each resolved to its key and data the way
    [on_history_activated] does. *)
Definition ordered_keys (self : HistoryManager) : list (option str) :=
  List.map (get_request_key_from_row self) (history_list self).

Definition ordered_view (self : HistoryManager) : list (option item) :=
  List.map (fun r => match get_request_key_from_row self r with
                     | Some k => get_history_data self k
                     | None => None
                     end) (history_list self).

(** Calls made on a manager, and the manager after a sequence of them. *)
Inductive call :=
| Record_ (method url : str) (resp : response) (request_body : str)
          (headers : list (str * str))
| Remove (request_key : str)
| Clear.

Definition step (self : HistoryManager) (c : call) : HistoryManager :=
  match c with
  | Record_ m u r b h => add_to_history self m u r b h
  | Remove k => remove_history_item self k
  | Clear => clear_history self
  end.

Definition run (cs : list call) : HistoryManager := fold_left step cs init.

(** A record call as one value, with the key it is filed under. *)
Record request := mkRequest {
  rq_method : str;
  rq_url : str;
  rq_response : response;
  rq_body : str;
  rq_headers : list (str * str)
}.

Definition fingerprint (rq : request) : str :=
  request_key_of (rq_method rq) (rq_url rq).

Definition record_call (rq : request) : call :=
  Record_ (rq_method rq) (rq_url rq) (rq_response rq) (rq_body rq)
          (rq_headers rq).

(** The keys that are in the dictionary of [s] and no longer in that of
    [s']. *)
Definition evicted (s s' : HistoryManager) : list str :=
  filter (fun k => negb (dict_mem (history_data s') k))
         (keys (history_data s)).

(** Sample data: [GET /a], [GET /b], ... (request [i] has the [i]-th
    lower-case letter for a path), each answered with status 200. *)
Definition sample_response (status : Z) : response :=
  {| resp_status_code := Some status; resp_response_time := Some 12%Z;
     resp_other := [] |}.

Definition sample_request (i : nat) : request :=
  {| rq_method := py "GET"; rq_url := py "/" ++ [N.of_nat (96 + i)];
     rq_response := sample_response 200;
     rq_body := []; rq_headers := [] |}.

Definition sample_requests (n : nat) : list request :=
  List.map sample_request (seq 1 n).

(* ================================================================== *)
(** ** Python string methods *)
(* ================================================================== *)

Local Open Scope N_scope.

(** A character literal. *)
Definition ch (a : ascii) : char := N_of_ascii a.

Definition QUOTE : char := 34.
Definition NEWLINE : char := 10.

(** [pyq "text"]: the literal with each ['] read as a double quote. *)
Definition pyq (s : string) : str :=
  List.map (fun c => if c =? 39 then QUOTE else c) (py s).

(** [str.isspace] on one code point and the class [\s] of [re] on [str]
    patterns: the Unicode white space. *)
Definition isspace (c : char) : bool :=
  ((9 <=? c) && (c <=? 13)) || ((28 <=? c) && (c <=? 32))
  || (c =? 133) || (c =? 160) || (c =? 5760)
  || ((8192 <=? c) && (c <=? 8202))
  || (c =? 8232) || (c =? 8233) || (c =? 8239) || (c =? 8287)
  || (c =? 12288).

Fixpoint lstrip (s : str) : str :=
  match s with
  | c :: s' => if isspace c then lstrip s' else s
  | [] => []
  end.

Definition rstrip (s : str) : str := rev (lstrip (rev s)).

Definition strip (s : str) : str := rstrip (lstrip s).

(** [s.startswith(p)] *)
Fixpoint startswith (s p : str) {struct p} : bool :=
  match p, s with
  | [], _ => true
  | a :: p', b :: s' => (a =? b) && startswith s' p'
  | _ :: _, [] => false
  end.

(** [s.endswith(p)] *)
Definition endswith (s p : str) : bool := startswith (rev s) (rev p).

(** [p in s] *)
Fixpoint contains (s p : str) : bool :=
  startswith s p ||
  match s with
  | [] => false
  | _ :: s' => contains s' p
  end.

(** [str.lower].  Only the letters A-Z are mapped: every use below compares
    the result with ASCII text that no other case mapping of Unicode can
    produce. *)
Definition lower_char (c : char) : char :=
  if (65 <=? c) && (c <=? 90) then c + 32 else c.

Definition lower (s : str) : str := List.map lower_char s.

(** [s.split('\n')] *)
Fixpoint split_lines (s : str) : list str :=
  match s with
  | [] => [[]]
  | c :: s' =>
      if c =? NEWLINE then [] :: split_lines s'
      else match split_lines s' with
           | l :: ls => (c :: l) :: ls
           | [] => [[c]]
           end
  end.

(** [sep.join(l)] *)
Fixpoint join (sep : str) (l : list str) : str :=
  match l with
  | [] => []
  | [x] => x
  | x :: l' => x ++ sep ++ join sep l'
  end.

(** [s * n] for an integer [n]: empty when [n <= 0]. *)
Definition py_mul (s : str) (n : Z) : str :=
  List.concat (repeat s (Z.to_nat n)).

(** [x in l] for a list of strings. *)
Definition str_in (x : str) (l : list str) : bool := existsb (str_eqb x) l.

(* ================================================================== *)
(** ** The regular expressions of formatter.py *)
(* ================================================================== *)

(** The patterns used are sequences of character classes, each taken once
    or under a star, greedy or lazy.  [re_match] is the backtracking
    matcher of [re]: it answers with the length of the match at the head of
    the string. *)
Inductive quant := Once | Star | LazyStar.

Definition regex := list (quant * (char -> bool)).

Fixpoint re_match (p : regex) (s : str) {struct p} : option nat :=
  match p with
  | [] => Some 0%nat
  | (Once, cls) :: p' =>
      match s with
      | x :: s' => if cls x then option_map S (re_match p' s') else None
      | [] => None
      end
  | (Star, cls) :: p' =>
      (fix star (s : str) : option nat :=
         match s with
         | x :: s' =>
             if cls x then
               match star s' with
               | Some n => Some (S n)
               | None => re_match p' s
               end
             else re_match p' s
         | [] => re_match p' s
         end) s
  | (LazyStar, cls) :: p' =>
      (fix lazy (s : str) : option nat :=
         match re_match p' s with
         | Some n => Some n
         | None =>
             match s with
             | x :: s' => if cls x then option_map S (lazy s') else None
             | [] => None
             end
         end) s
  end.

(** [re.search(p, s) is not None]; also [len(re.findall(p, s)) > 0]. *)
Fixpoint re_search (p : regex) (s : str) : bool :=
  match re_match p s with
  | Some _ => true
  | None =>
      match s with
      | [] => false
      | _ :: s' => re_search p s'
      end
  end.

(** [re.sub(p, repl, s)] for a pattern that matches no empty string:
    matches are taken leftmost and do not overlap.  [skip] counts the
    characters of the current match still to pass over. *)
Fixpoint re_sub_from (p : regex) (repl : str) (s : str) (skip : nat) : str :=
  match s with
  | [] => []
  | c :: s' =>
      match skip with
      | S k => re_sub_from p repl s' k
      | O =>
          match re_match p s with
          | Some (S n) => repl ++ re_sub_from p repl s' n
          | _ => c :: re_sub_from p repl s' 0
          end
      end
  end.

Definition re_sub (p : regex) (repl : str) (s : str) : str :=
  re_sub_from p repl s 0.

(** Character classes. *)
Definition eqc (a : ascii) (c : char) : bool := c =? ch a.
Definition alpha (c : char) : bool :=
  ((97 <=? c) && (c <=? 122)) || ((65 <=? c) && (c <=? 90)).
Definition digit (c : char) : bool := (48 <=? c) && (c <=? 57).
Definition alnum (c : char) : bool := alpha c || digit c.
Definition anychar (c : char) : bool := true.

(** The text of a pattern as a sequence of single characters. *)
Definition lit (s : string) : regex :=
  List.map (fun c : char => (Once, N.eqb c)) (py s).

(** Below, NAME stands for the pattern text [[a-zA-Z][a-zA-Z0-9]*].

    [r'^<NAME[>\\s]']: in the raw string the class at the end holds [>],
    the backslash and the letter [s]. *)
Definition re_xml_root : regex :=
  [(Once, eqc "<"); (Once, alpha); (Star, alnum);
   (Once, fun c => eqc ">" c || eqc "\" c || eqc "s" c)].

(** [r'<(NAME)(?:\s|>)'] *)
Definition re_open_tag : regex :=
  [(Once, eqc "<"); (Once, alpha); (Star, alnum);
   (Once, fun c => isspace c || eqc ">" c)].

(** [r'</(NAME)>'] *)
Definition re_close_tag : regex :=
  [(Once, eqc "<"); (Once, eqc "/"); (Once, alpha); (Star, alnum);
   (Once, eqc ">")].

(** [r',\s*}'] and [r',\s*]'] *)
Definition re_comma_brace : regex :=
  [(Once, eqc ","); (Star, isspace); (Once, eqc "}")].
Definition re_comma_bracket : regex :=
  [(Once, eqc ","); (Star, isspace); (Once, eqc "]")].

(** [r'>\s*<'] and [r'>\s+<'] *)
Definition re_between_tags : regex :=
  [(Once, eqc ">"); (Star, isspace); (Once, eqc "<")].
Definition re_space_between_tags : regex :=
  [(Once, eqc ">"); (Once, isspace); (Star, isspace); (Once, eqc "<")].

(** [r'<(NAME)'] *)
Definition re_tag_name : regex :=
  [(Once, eqc "<"); (Once, alpha); (Star, alnum)].

(** [r'<!--.*?-->'] with [re.DOTALL] *)
Definition re_comment : regex :=
  lit "<!--" ++ [(LazyStar, anychar)] ++ lit "-->".

(** [r'\s+'] *)
Definition re_spaces : regex := [(Once, isspace); (Star, isspace)].

Local Close Scope N_scope.

(* ================================================================== *)
(** ** The json module *)
(* ================================================================== *)

(** Values of [json.loads].  An object is a [dict] with [str] keys.  A
    float is kept as the text handed to [float()]; the arithmetic of
    doubles is outside this model, and [json.dumps] prints the float back
    as that text.  Limits of the interpreter (recursion depth, digits of an
    integer) are not modelled. *)
Unset Elimination Schemes.
Inductive json :=
| JNull
| JBool (b : bool)
| JInt (z : Z)
| JFloat (literal : str)
| JStr (s : str)
| JArr (items : list json)
| JObj (members : list (str * json)).
Set Elimination Schemes.

(** What [json.loads] can raise: [JSONDecodeError(msg, doc, pos)], given
    here by the number of characters that remain at [pos], and the error of
    a decoder that runs out of stack. *)
Inductive exn :=
| JSONDecodeError (msg : str) (remaining : nat)
| RecursionError.

Inductive result (A : Type) :=
| Ok (a : A)
| Raise (e : exn).
Arguments Ok {A} a.
Arguments Raise {A} e.

Definition bind {A B : Type} (r : result A) (f : A -> result B) : result B :=
  match r with
  | Ok a => f a
  | Raise e => Raise e
  end.

Local Open Scope N_scope.

Definition BACKSLASH_CHAR : char := 92.

(** [WHITESPACE = re.compile(r'[ \t\n\r]*')] *)
Definition json_ws (c : char) : bool :=
  (c =? 32) || (c =? 9) || (c =? 10) || (c =? 13).

Fixpoint skip_ws (s : str) : str :=
  match s with
  | c :: s' => if json_ws c then skip_ws s' else s
  | [] => []
  end.

(** The table [BACKSLASH] of decoder.py. *)
Definition backslash (esc : char) : option char :=
  if esc =? QUOTE then Some QUOTE
  else if esc =? BACKSLASH_CHAR then Some BACKSLASH_CHAR
  else if esc =? ch "/" then Some (ch "/")
  else if esc =? ch "b" then Some 8
  else if esc =? ch "f" then Some 12
  else if esc =? ch "n" then Some 10
  else if esc =? ch "r" then Some 13
  else if esc =? ch "t" then Some 9
  else None.

Definition hexval (c : char) : option N :=
  if (48 <=? c) && (c <=? 57) then Some (c - 48)
  else if (97 <=? c) && (c <=? 102) then Some (c - 87)
  else if (65 <=? c) && (c <=? 70) then Some (c - 55)
  else None.

(** [int(esc.group(), 16)] on four hexadecimal digits. *)
Definition hex4 (h1 h2 h3 h4 : char) : option N :=
  match hexval h1, hexval h2, hexval h3, hexval h4 with
  | Some a, Some b, Some c, Some d => Some (((a * 16 + b) * 16 + c) * 16 + d)
  | _, _, _, _ => None
  end.

Definition high_surrogate (uni : N) : bool := (55296 <=? uni) && (uni <=? 56319).
Definition low_surrogate (uni : N) : bool := (56320 <=? uni) && (uni <=? 57343).

(** [0x10000 + (((uni - 0xd800) << 10) | (uni2 - 0xdc00))] *)
Definition join_surrogates (uni uni2 : N) : N :=
  65536 + N.lor (N.shiftl (uni - 55296) 10) (uni2 - 56320).

Definition cons_result (c : char) (r : result (str * str)) : result (str * str) :=
  bind r (fun p => Ok (c :: fst p, snd p)).

Definition unterminated (begin : nat) : exn :=
  JSONDecodeError (py "Unterminated string starting at") begin.

Definition invalid_uXXXX (s : str) : exn :=
  JSONDecodeError (py "Invalid \uXXXX escape") (List.length s).

(** [py_scanstring(s, end)] with [strict=True]: [s] is the text after the
    opening quote, [begin] tells where that quote is.  The answer is the
    decoded string and the text after the closing quote. *)
Fixpoint scanstring (s : str) (begin : nat) {struct s} : result (str * str) :=
  match s with
  | [] => Raise (unterminated begin)
  | c :: s1 =>
      if c =? QUOTE then Ok ([], s1)
      else if c =? BACKSLASH_CHAR then
        match s1 with
        | [] => Raise (unterminated begin)
        | esc :: s2 =>
            if esc =? ch "u" then
              match s2 with
              | h1 :: h2 :: h3 :: h4 :: s3 =>
                  match hex4 h1 h2 h3 h4 with
                  | None => Raise (invalid_uXXXX s1)
                  | Some uni =>
                      let single := cons_result uni (scanstring s3 begin) in
                      if high_surrogate uni then
                        match s3 with
                        | b :: u :: s4 =>
                            if (b =? BACKSLASH_CHAR) && (u =? ch "u") then
                              match s4 with
                              | g1 :: g2 :: g3 :: g4 :: s5 =>
                                  match hex4 g1 g2 g3 g4 with
                                  | None => Raise (invalid_uXXXX (u :: s4))
                                  | Some uni2 =>
                                      if low_surrogate uni2
                                      then cons_result
                                             (join_surrogates uni uni2)
                                             (scanstring s5 begin)
                                      else single
                                  end
                              | _ => Raise (invalid_uXXXX (u :: s4))
                              end
                            else single
                        | _ => single
                        end
                      else single
                  end
              | _ => Raise (invalid_uXXXX s1)
              end
            else
              match backslash esc with
              | Some c' => cons_result c' (scanstring s2 begin)
              | None =>
                  Raise (JSONDecodeError (py "Invalid \escape")
                                         (List.length s1))
              end
        end
      else if c <? 32 then
        Raise (JSONDecodeError (py "Invalid control character at")
                               (List.length s1))
      else cons_result c (scanstring s1 begin)
  end.

(** [NUMBER_RE]: the integer part, the fraction, the exponent. *)
Fixpoint span (p : char -> bool) (s : str) : str * str :=
  match s with
  | c :: s' =>
      if p c then let (a, b) := span p s' in (c :: a, b) else ([], s)
  | [] => ([], [])
  end.

Definition lex_integer (s : str) : option (str * str) :=
  let (sign, s1) :=
    match s with
    | c :: s' => if c =? ch "-" then ([c], s') else ([], s)
    | [] => ([], s)
    end in
  match s1 with
  | c :: s2 =>
      if c =? ch "0" then Some (sign ++ [c], s2)
      else if digit c then
        let (ds, rest) := span digit s2 in Some (sign ++ c :: ds, rest)
      else None
  | [] => None
  end.

Definition lex_frac (s : str) : str * str :=
  match s with
  | c :: s1 =>
      if c =? ch "." then
        match span digit s1 with
        | ([], _) => ([], s)
        | (ds, rest) => (c :: ds, rest)
        end
      else ([], s)
  | [] => ([], s)
  end.

Definition lex_exp (s : str) : str * str :=
  match s with
  | e :: s1 =>
      if (e =? ch "e") || (e =? ch "E") then
        let (sign, s2) :=
          match s1 with
          | c :: s' =>
              if (c =? ch "-") || (c =? ch "+") then ([c], s') else ([], s1)
          | [] => ([], s1)
          end in
        match span digit s2 with
        | ([], _) => ([], s)
        | (ds, rest) => (e :: sign ++ ds, rest)
        end
      else ([], s)
  | [] => ([], s)
  end.

(** Decimal digits and [int(text)]. *)
Definition digit_of (c : char) (d : Decimal.uint) : Decimal.uint :=
  match c - 48 with
  | 0 => Decimal.D0 d | 1 => Decimal.D1 d | 2 => Decimal.D2 d
  | 3 => Decimal.D3 d | 4 => Decimal.D4 d | 5 => Decimal.D5 d
  | 6 => Decimal.D6 d | 7 => Decimal.D7 d | 8 => Decimal.D8 d
  | _ => Decimal.D9 d
  end.

Fixpoint uint_of_digits (s : str) : Decimal.uint :=
  match s with
  | [] => Decimal.Nil
  | c :: s' => digit_of c (uint_of_digits s')
  end.

Definition parse_int (text : str) : Z :=
  match text with
  | c :: ds =>
      if c =? ch "-" then Z.of_int (Decimal.Neg (uint_of_digits ds))
      else Z.of_int (Decimal.Pos (uint_of_digits text))
  | [] => 0%Z
  end.

Fixpoint digits_of_uint (d : Decimal.uint) : str :=
  match d with
  | Decimal.Nil => []
  | Decimal.D0 d => 48 :: digits_of_uint d
  | Decimal.D1 d => 49 :: digits_of_uint d
  | Decimal.D2 d => 50 :: digits_of_uint d
  | Decimal.D3 d => 51 :: digits_of_uint d
  | Decimal.D4 d => 52 :: digits_of_uint d
  | Decimal.D5 d => 53 :: digits_of_uint d
  | Decimal.D6 d => 54 :: digits_of_uint d
  | Decimal.D7 d => 55 :: digits_of_uint d
  | Decimal.D8 d => 56 :: digits_of_uint d
  | Decimal.D9 d => 57 :: digits_of_uint d
  end.

(** [int.__repr__] *)
Definition int_repr (z : Z) : str :=
  match Z.to_int z with
  | Decimal.Pos d => digits_of_uint d
  | Decimal.Neg d => ch "-" :: digits_of_uint d
  end.

(** [dict(pairs)]: a later pair with the same key replaces the value. *)
Definition dict_of_pairs (V : Type) (pairs : list (str * V)) : dict V :=
  fold_left (fun d kv => dict_set d (fst kv) (snd kv)) pairs [].

Definition expecting_value (s : str) : exn :=
  JSONDecodeError (py "Expecting value") (List.length s).

Definition number_or_constant (s : str) : result (json * str) :=
  match lex_integer s with
  | Some (integer, s1) =>
      let (frac, s2) := lex_frac s1 in
      let (exp, s3) := lex_exp s2 in
      match frac, exp with
      | [], [] => Ok (JInt (parse_int integer), s3)
      | _, _ => Ok (JFloat (integer ++ frac ++ exp), s3)
      end
  | None =>
      if startswith s (py "NaN") then Ok (JFloat (py "NaN"), skipn 3 s)
      else if startswith s (py "Infinity")
      then Ok (JFloat (py "Infinity"), skipn 8 s)
      else if startswith s (py "-Infinity")
      then Ok (JFloat (py "-Infinity"), skipn 9 s)
      else Raise (expecting_value s)
  end.

(** [scan_once], [JSONArray] and [JSONObject] of scanner.py and decoder.py.
    [fuel] bounds the depth of the calls: two calls are made for a level of
    nesting, so twice the length of the text is never used up
    ([loads_no_recursion_error]).  A [StopIteration] is given at once as
    the [JSONDecodeError] its callers turn it into. *)
Fixpoint scan_once (fuel : nat) (s : str) {struct fuel} : result (json * str) :=
  match fuel with
  | O => Raise RecursionError
  | S f =>
      match s with
      | [] => Raise (expecting_value s)
      | nextchar :: s1 =>
          if nextchar =? QUOTE then
            bind (scanstring s1 (List.length s))
                 (fun p => Ok (JStr (fst p), snd p))
          else if nextchar =? ch "{" then
            match skip_ws s1 with
            | c :: s2 =>
                if c =? ch "}" then Ok (JObj [], s2)
                else if c =? QUOTE then
                  bind (object_loop f s2)
                       (fun p => Ok (JObj (dict_of_pairs (fst p)), snd p))
                else Raise (JSONDecodeError
                              (py "Expecting property name enclosed in double quotes")
                              (List.length (skip_ws s1)))
            | [] => Raise (JSONDecodeError
                             (py "Expecting property name enclosed in double quotes")
                             0)
            end
          else if nextchar =? ch "[" then
            match skip_ws s1 with
            | c :: s2 =>
                if c =? ch "]" then Ok (JArr [], s2)
                else bind (array_loop f (skip_ws s1))
                          (fun p => Ok (JArr (fst p), snd p))
            | [] => bind (array_loop f [])
                         (fun p => Ok (JArr (fst p), snd p))
            end
          else if startswith s (py "null") then Ok (JNull, skipn 4 s)
          else if startswith s (py "true") then Ok (JBool true, skipn 4 s)
          else if startswith s (py "false") then Ok (JBool false, skipn 5 s)
          else number_or_constant s
      end
  end

(** The loop of [JSONArray]; [s] starts at a value. *)
with array_loop (fuel : nat) (s : str) {struct fuel}
  : result (list json * str) :=
  match fuel with
  | O => Raise RecursionError
  | S f =>
      bind (scan_once f s) (fun p =>
        let (value, s1) := p in
        match skip_ws s1 with
        | c :: s2 =>
            if c =? ch "]" then Ok ([value], s2)
            else if c =? ch "," then
              bind (array_loop f (skip_ws s2))
                   (fun q => Ok (value :: fst q, snd q))
            else Raise (JSONDecodeError (py "Expecting ',' delimiter")
                                        (List.length (skip_ws s1)))
        | [] => Raise (JSONDecodeError (py "Expecting ',' delimiter") 0)
        end)
  end

(** The loop of [JSONObject]; [s] starts after the opening quote of a
    key. *)
with object_loop (fuel : nat) (s : str) {struct fuel}
  : result (list (str * json) * str) :=
  match fuel with
  | O => Raise RecursionError
  | S f =>
      bind (scanstring s (S (List.length s))) (fun p =>
        let (key, s1) := p in
        match skip_ws s1 with
        | c :: s2 =>
            if c =? ch ":" then
              bind (scan_once f (skip_ws s2)) (fun q =>
                let (value, s3) := q in
                match skip_ws s3 with
                | d :: s4 =>
                    if d =? ch "}" then Ok ([(key, value)], s4)
                    else if d =? ch "," then
                      match skip_ws s4 with
                      | e :: s5 =>
                          if e =? QUOTE then
                            bind (object_loop f s5)
                                 (fun r => Ok ((key, value) :: fst r, snd r))
                          else Raise (JSONDecodeError
                                 (py "Expecting property name enclosed in double quotes")
                                 (List.length (skip_ws s4)))
                      | [] => Raise (JSONDecodeError
                                 (py "Expecting property name enclosed in double quotes")
                                 0)
                      end
                    else Raise (JSONDecodeError (py "Expecting ',' delimiter")
                                                (List.length (skip_ws s3)))
                | [] => Raise (JSONDecodeError (py "Expecting ',' delimiter") 0)
                end)
            else Raise (JSONDecodeError (py "Expecting ':' delimiter")
                                        (List.length (skip_ws s1)))
        | [] => Raise (JSONDecodeError (py "Expecting ':' delimiter") 0)
        end)
  end.

(** [json.loads(s)] for a [str]: [JSONDecoder.decode]. *)
Definition json_loads (s : str) : result json :=
  if startswith s [65279]
  then Raise (JSONDecodeError
                (py "Unexpected UTF-8 BOM (decode using utf-8-sig)")
                (List.length s))
  else
    bind (scan_once (S (2 * List.length s)) (skip_ws s)) (fun p =>
      match skip_ws (snd p) with
      | [] => Ok (fst p)
      | _ :: _ => Raise (JSONDecodeError (py "Extra data")
                                         (List.length (skip_ws (snd p))))
      end).

Local Close Scope N_scope.

(** *** The encoder *)

Local Open Scope N_scope.

Definition hexdigit (n : N) : char := if n <? 10 then 48 + n else 87 + n.

(** [ESCAPE_DCT] of encoder.py. *)
Definition escape_char (c : char) : str :=
  if c =? QUOTE then [BACKSLASH_CHAR; QUOTE]
  else if c =? BACKSLASH_CHAR then [BACKSLASH_CHAR; BACKSLASH_CHAR]
  else if c =? 8 then [BACKSLASH_CHAR; ch "b"]
  else if c =? 12 then [BACKSLASH_CHAR; ch "f"]
  else if c =? 10 then [BACKSLASH_CHAR; ch "n"]
  else if c =? 13 then [BACKSLASH_CHAR; ch "r"]
  else if c =? 9 then [BACKSLASH_CHAR; ch "t"]
  else if c <? 32
  then [BACKSLASH_CHAR; ch "u"; ch "0"; ch "0"; hexdigit (c / 16);
        hexdigit (c mod 16)]
  else [c].

(** [encode_basestring], used with [ensure_ascii=False]. *)
Definition encode_basestring (s : str) : str :=
  QUOTE :: List.concat (List.map escape_char s) ++ [QUOTE].

Local Close Scope N_scope.

(** The text put after an opening bracket and between items when [indent]
    is given: a newline and [indent * level] spaces. *)
Definition newline_indent (indent : option nat) (level : nat) : str :=
  match indent with
  | Some n => NEWLINE :: repeat 32%N (n * level)
  | None => []
  end.

(** [json.dumps(o, indent=..., separators=(item_separator, key_separator),
    ensure_ascii=False)]: the generator [_iterencode] at nesting [level]. *)
Fixpoint iterencode (indent : option nat) (item_separator key_separator : str)
    (level : nat) (o : json) {struct o} : str :=
  match o with
  | JNull => py "null"
  | JBool true => py "true"
  | JBool false => py "false"
  | JInt z => int_repr z
  | JFloat literal => literal
  | JStr s => encode_basestring s
  | JArr [] => py "[]"
  | JArr items =>
      py "[" ++ newline_indent indent (S level)
      ++ join (item_separator ++ newline_indent indent (S level))
              ((fix each (l : list json) : list str :=
                  match l with
                  | [] => []
                  | x :: l' =>
                      iterencode indent item_separator key_separator
                                 (S level) x :: each l'
                  end) items)
      ++ newline_indent indent level ++ py "]"
  | JObj [] => py "{}"
  | JObj members =>
      py "{" ++ newline_indent indent (S level)
      ++ join (item_separator ++ newline_indent indent (S level))
              ((fix each (l : list (str * json)) : list str :=
                  match l with
                  | [] => []
                  | (key, value) :: l' =>
                      (encode_basestring key ++ key_separator
                       ++ iterencode indent item_separator key_separator
                                     (S level) value) :: each l'
                  end) members)
      ++ newline_indent indent level ++ py "}"
  end.

(** [json.dumps(parsed, indent=2, ensure_ascii=False)] *)
Definition dumps_indent2 (o : json) : str :=
  iterencode (Some 2) (py ",") (py ": ") 0 o.

(** [json.dumps(parsed, separators=(',', ':'), ensure_ascii=False)] *)
Definition dumps_compact (o : json) : str :=
  iterencode None (py ",") (py ":") 0 o.

(** [str(e)] for an exception raised by [json.loads(doc)]:
    ['%s: line %d column %d (char %d)']. *)
Definition count_char (c : char) (s : str) : nat :=
  List.length (filter (N.eqb c) s).

Definition nat_repr (n : nat) : str := int_repr (Z.of_nat n).

Definition str_of_exn (doc : str) (e : exn) : str :=
  match e with
  | JSONDecodeError msg remaining =>
      let pos := List.length doc - remaining in
      let before := firstn pos doc in
      let lineno := S (count_char NEWLINE before) in
      let colno := S (List.length (last (split_lines before) [])) in
      msg ++ py ": line " ++ nat_repr lineno ++ py " column "
          ++ nat_repr colno ++ py " (char " ++ nat_repr pos ++ py ")"
  | RecursionError => py "maximum recursion depth exceeded"
  end.

(* ================================================================== *)
(** ** formatter.py *)
(* ================================================================== *)

(** [_is_json] *)
Definition _is_json (content : str) : bool :=
  let content := strip content in
  if py_not content then false
  else
    if (startswith content (py "{") && endswith content (py "}"))
       || (startswith content (py "[") && endswith content (py "]"))
    then
      match json_loads content with
      | Ok _ => true
      | Raise _ =>
          contains content [QUOTE]
          && (contains content (py ":") || contains content (py "[")
              || contains content (py "{"))
      end
    else false.

(** [_is_xml] *)
Definition _is_xml (content : str) : bool :=
  let content := strip content in
  if py_not content then false
  else
    if startswith content (py "<?xml")
       || startswith content (py "<soap:")
       || startswith content (py "<rss")
       || startswith content (py "<feed")
       || (match re_match re_xml_root content with
           | Some _ => true
           | None => false
           end)
    then re_search re_open_tag content || re_search re_close_tag content
    else false.

Definition html_patterns : list str :=
  [py "<!doctype html"; py "<html"; py "<head"; py "<body"; py "<div";
   py "<p>"; py "<span"; py "<h1"; py "<h2"; py "<table"; py "<style";
   py "<script"].

(** [_is_html] *)
Definition _is_html (content : str) : bool :=
  let content_lower := strip (lower content) in
  if py_not content_lower then false
  else existsb (contains content_lower) html_patterns.

Definition JSON_ERROR_MARKER : str := py "/* JSON Format Error".
Definition XML_ERROR_MARKER : str := py "<!-- XML Format Error".
Definition HTML_ERROR_MARKER : str := py "<!-- HTML Format Error".

(** [format_json] *)
Definition format_json (content : str) : str :=
  match json_loads content with
  | Ok parsed => dumps_indent2 parsed
  | Raise (JSONDecodeError msg remaining as e) =>
      let content' := re_sub re_comma_brace (py "}") content in
      let content' := re_sub re_comma_bracket (py "]") content' in
      match json_loads content' with
      | Ok parsed => dumps_indent2 parsed
      | Raise _ =>
          py "/* JSON Format Error: " ++ str_of_exn content e ++ py " */"
             ++ [NEWLINE] ++ content'
      end
  | Raise e =>
      py "/* JSON Format Error: " ++ str_of_exn content e ++ py " */"
         ++ [NEWLINE] ++ content
  end.

(** One turn of the loop of [_simple_xml_format]: the lines written so far
    and the indentation level, before and after [line]. *)
Definition xml_line (st : list str * Z) (line : str) : list str * Z :=
  let (formatted, indent_level) := st in
  let line := strip line in
  if py_not line then st
  else if startswith line (py "<?xml") then (formatted ++ [line], indent_level)
  else if startswith line (py "</") then
    let indent_level := Z.max 0 (indent_level - 1) in
    (formatted ++ [py_mul (py "  ") indent_level ++ line], indent_level)
  else if endswith line (py "/>") then
    (formatted ++ [py_mul (py "  ") indent_level ++ line], indent_level)
  else if startswith line (py "<") && negb (startswith line (py "</")) then
    (formatted ++ [py_mul (py "  ") indent_level ++ line],
     if negb (endswith line (py "/>")) && negb (contains line (py "</"))
     then (indent_level + 1)%Z else indent_level)
  else (formatted ++ [py_mul (py "  ") indent_level ++ line], indent_level).

(** [_simple_xml_format] *)
Definition _simple_xml_format (content : str) : str :=
  let content := re_sub re_between_tags (py ">" ++ [NEWLINE] ++ py "<") content in
  let lines := split_lines content in
  join [NEWLINE] (fst (fold_left xml_line lines ([], 0%Z))).

Definition void_elements : list str :=
  [py "area"; py "base"; py "br"; py "col"; py "embed"; py "hr"; py "img";
   py "input"; py "link"; py "meta"; py "param"; py "source"; py "track";
   py "wbr"].

(** [re.match(r'<(NAME)', line)]: [group(1)] of the match, if any. *)
Definition tag_name_group1 (line : str) : option str :=
  match re_match re_tag_name line with
  | Some n => Some (skipn 1 (firstn n line))
  | None => None
  end.

(** One turn of the loop of [_simple_html_format]. *)
Definition html_line (st : list str * Z) (line : str) : list str * Z :=
  let (formatted, indent_level) := st in
  let line := strip line in
  if py_not line then st
  else if startswith (lower line) (py "<!doctype") then
    (formatted ++ [line], indent_level)
  else if startswith line (py "<!--") then
    (formatted ++ [py_mul (py "  ") indent_level ++ line], indent_level)
  else if startswith line (py "</") then
    let indent_level := Z.max 0 (indent_level - 1) in
    (formatted ++ [py_mul (py "  ") indent_level ++ line], indent_level)
  else if existsb (fun tag => endswith (rstrip line) (py "</" ++ tag ++ py ">"))
                  void_elements
          || endswith line (py "/>") then
    (formatted ++ [py_mul (py "  ") indent_level ++ line], indent_level)
  else if startswith line (py "<") && negb (startswith line (py "</")) then
    (formatted ++ [py_mul (py "  ") indent_level ++ line],
     match tag_name_group1 line with
     | Some name =>
         if negb (str_in (lower name) void_elements)
            && negb (endswith line (py "/>"))
         then
           if negb (contains line (py "</" ++ name ++ py ">"))
           then (indent_level + 1)%Z else indent_level
         else indent_level
     | None => indent_level
     end)
  else (formatted ++ [py_mul (py "  ") indent_level ++ line], indent_level).

(** [_simple_html_format] *)
Definition _simple_html_format (content : str) : str :=
  let content := re_sub re_between_tags (py ">" ++ [NEWLINE] ++ py "<") content in
  let lines := split_lines content in
  join [NEWLINE] (fst (fold_left html_line lines ([], 0%Z))).

(** [format_html]: nothing in [_simple_html_format] raises, so the handler
    that writes the HTML error marker is never entered. *)
Definition format_html (content : str) : str := _simple_html_format content.

(** The kinds of content told apart by the chain of tests that ends
    [format_content]. *)
Inductive kind := JSON | XML | HTML | PLAIN.

Definition detect (content : str) : kind :=
  if _is_json content then JSON
  else if _is_xml content then XML
  else if _is_html content then HTML
  else PLAIN.

(** [if content_type:] for an optional string. *)
Definition truthy (content_type : option str) : option str :=
  match content_type with
  | Some (c :: t) => Some (c :: t)
  | _ => None
  end.

Section WithMinidom.
(** [xml.dom.minidom]: [parseString(content).toprettyxml(indent="  ")],
    or [None] when the parser raises. *)
Variable minidom_pretty : str -> option str.

(** [format_xml] *)
Definition format_xml (content : str) : str :=
  let content := strip content in
  let content :=
    if negb (startswith content (py "<?xml"))
    then pyq "<?xml version='1.0' encoding='UTF-8'?>" ++ [NEWLINE] ++ content
    else content in
  match minidom_pretty content with
  | Some formatted =>
      join [NEWLINE]
           (filter (fun line => negb (py_not (strip line)))
                   (split_lines formatted))
  | None => _simple_xml_format content
  end.

(** [format_content] *)
Definition format_content (content : str) (content_type : option str) : str :=
  if py_not content || py_not (strip content) then content
  else
    let content := strip content in
    let primary : option str :=
      match truthy content_type with
      | Some content_type =>
          if contains content_type (py "json") then
            let result := format_json content in
            if negb (startswith result JSON_ERROR_MARKER)
            then Some result else None
          else if contains content_type (py "xml") then
            let result := format_xml content in
            if negb (startswith result XML_ERROR_MARKER)
            then Some result else None
          else if contains content_type (py "html") then
            let result := format_html content in
            if negb (startswith result HTML_ERROR_MARKER)
            then Some result else None
          else None
      | None => None
      end in
    match primary with
    | Some result => result
    | None =>
        match detect content with
        | JSON => format_json content
        | XML => format_xml content
        | HTML => format_html content
        | PLAIN => content
        end
    end.
End WithMinidom.

(** [minify_content] *)
Definition minify_content (content : str) (content_type : option str) : str :=
  if py_not content then content
  else if _is_json content
          || match truthy content_type with
             | Some content_type => contains content_type (py "json")
             | None => false
             end
  then
    match json_loads content with
    | Ok parsed => dumps_compact parsed
    | Raise _ => content
    end
  else if _is_xml content || _is_html content then
    let content := re_sub re_comment [] content in
    let content := re_sub re_spaces (py " ") content in
    let content := re_sub re_space_between_tags (py "><") content in
    strip content
  else content.

(** A stand-in for a [minidom] that rejects every document. *)
Definition minidom_rejects : str -> option str := fun _ => None.

Unset Implicit Arguments.

(* ================================================================== *)
(** ** Definitions used to state and prove the properties *)
(* ================================================================== *)

(** *** The history *)

(** The rows held by the values of the dictionary, in its order. *)
Definition rows (d : dict item) : list row :=
  List.map (fun kv => it_row (snd kv)) d.

(** The invariant of the manager: keys and rows are distinct, every row is
    older than the next one to allocate, and the list box holds exactly the
    rows of the dictionary. *)
Record wf (s : HistoryManager) : Prop := {
  wf_keys : NoDup (keys (history_data s));
  wf_rows : NoDup (rows (history_data s));
  wf_fresh : forall r, In r (rows (history_data s)) -> r < next_row s;
  wf_list : Permutation (history_list s) (rows (history_data s))
}.

(** The manager right after the insertion made by [_create_history_item]
    and before the capacity check. *)
Definition inserted (s : HistoryManager) (k method url : str) resp body headers
  : HistoryManager :=
  {| history_list := next_row s :: history_list s;
     history_data :=
       history_data s ++
       [(k, {| it_method := method; it_url := url; it_response := resp;
               it_body := body; it_headers := headers; it_row := next_row s;
               it_title_label := (method, url);
               it_subtitle_label := subtitle_of resp |})];
     next_row := S (next_row s) |}.

(** [get_request_key_from_row] reads only the dictionary. *)
Definition key_of_row (d : dict item) (r : row) : option str :=
  match find (fun kv => Nat.eqb (it_row (snd kv)) r) d with
  | Some (request_key, _) => Some request_key
  | None => None
  end.

(** The test used to take one key out of what the list box shows. *)
Definition okey_neqb (k : str) (o : option str) : bool :=
  match o with
  | Some k' => negb (str_eqb k' k)
  | None => true
  end.

(** Pairwise distinct strings, as a test. *)
Fixpoint distinctb (l : list str) : bool :=
  match l with
  | [] => true
  | x :: l' => negb (existsb (str_eqb x) l') && distinctb l'
  end.

(** *** The line indenters *)

(** A written line: a non-negative number of two-space units, then a line
    of the input with its surrounding white space removed. *)
Definition indented (out : str) : Prop :=
  exists (level : Z) (line : str),
    (0 <= level)%Z /\
    out = py_mul (py "  ") level ++ line /\
    line <> [] /\ lstrip line = line.

(** The state of a loop: lines written so far, indentation level. *)
Definition loop_ok (st : list str * Z) : Prop :=
  Forall indented (fst st) /\ (0 <= snd st)%Z.

(** *** The texts the decoder accepts *)

(** JSON white space only. *)
Definition all_ws (w : str) : Prop := forallb json_ws w = true.

(** White space of [str.isspace] only. *)
Definition all_space (w : str) : Prop := forallb isspace w = true.

(** What may follow a value: nothing, white space or a delimiter. *)
Definition follow (rest : str) : Prop :=
  match rest with
  | [] => True
  | c :: _ => json_ws c = true \/ c = ch "," \/ c = ch "]" \/ c = ch "}"
  end.

(** The seven characters that may follow a value. *)
Definition follow_chars : list char := [32; 9; 10; 13; 44; 93; 125]%N.

(** The characters a value can start with. *)
Definition value_start_chars : list char :=
  [34; 123; 91; 110; 116; 102; 45; 48; 49; 50; 51; 52; 53; 54; 55; 56; 57;
   78; 73]%N.

Definition value_start (c : char) : bool :=
  existsb (N.eqb c) value_start_chars.

(** The characters a number or [NaN], [Infinity], [-Infinity] can start
    with. *)
Definition number_start_chars : list char :=
  [45; 48; 49; 50; 51; 52; 53; 54; 55; 56; 57; 78; 73]%N.

Definition number_start (c : char) : bool :=
  existsb (N.eqb c) number_start_chars.

(** The first character, if there is one, passes the test. *)
Definition head_is (p : char -> bool) (s : str) : bool :=
  match s with
  | c :: _ => p c
  | [] => false
  end.

(** The fraction and the exponent. *)
Definition is_dot (c : char) : bool := N.eqb c (ch ".").
Definition is_e (c : char) : bool := N.eqb c (ch "e") || N.eqb c (ch "E").

(** What [py_scanstring] finds after the escape of a high surrogate: no
    second half, a broken escape, or the low surrogate. *)
Inductive ahead_outcome := ASingle | AError | APair (uni2 : N).

Definition ahead (s3 : str) : ahead_outcome :=
  match s3 with
  | b :: u :: s4 =>
      if (N.eqb b BACKSLASH_CHAR) && (N.eqb u (ch "u")) then
        match s4 with
        | g1 :: g2 :: g3 :: g4 :: _ =>
            match hex4 g1 g2 g3 g4 with
            | Some uni2 => if low_surrogate uni2 then APair uni2 else ASingle
            | None => AError
            end
        | _ => AError
        end
      else ASingle
  | _ => ASingle
  end.

(** The escape written for a control character is read back as that
    character. *)
Definition control_ok (c : char) : bool :=
  match hex4 (ch "0") (ch "0") (hexdigit (c / 16)) (hexdigit (c mod 16)) with
  | Some x => N.eqb x c
  | None => false
  end && negb (high_surrogate c).

(** The text of a string after its opening quote, closing quote included,
    and the string it stands for. *)
Definition IsStr (body t : str) : Prop :=
  (exists b0, body = b0 ++ [QUOTE]) /\
  forall rest begin, scanstring (body ++ rest) begin = Ok (t, rest).

(** The text of a value that is neither an array nor an object. *)
Record Scalar (pre : str) (v : json) : Prop := {
  sc_arr : forall items, v <> JArr items;
  sc_obj : forall members, v <> JObj members;
  sc_scan : forall f rest, follow rest ->
              scan_once (S f) (pre ++ rest) = Ok (v, rest);
  sc_last : exists p c, pre = p ++ [c] /\ isspace c = false;
  sc_float : forall literal, v = JFloat literal -> pre = literal
}.

(** The texts of a value: what [scan_once] reads for it, with the white
    space the decoder allows inside arrays and objects. *)
Inductive Value : str -> json -> Prop :=
| V_scalar pre v :
    Scalar pre v -> Value pre v
| V_arr_empty w :
    all_ws w -> Value (ch "[" :: w ++ [ch "]"]) (JArr [])
| V_arr w body vs :
    all_ws w -> Elems body vs -> Value (ch "[" :: w ++ body) (JArr vs)
| V_obj_empty w :
    all_ws w -> Value (ch "{" :: w ++ [ch "}"]) (JObj [])
| V_obj w body ps :
    all_ws w -> Members body ps ->
    Value (ch "{" :: w ++ QUOTE :: body) (JObj (dict_of_pairs ps))
(** From the first item through the closing bracket. *)
with Elems : str -> list json -> Prop :=
| E_one pre v w :
    Value pre v -> all_ws w -> Elems (pre ++ w ++ [ch "]"]) [v]
| E_cons pre v w1 w2 body vs :
    Value pre v -> all_ws w1 -> all_ws w2 -> Elems body vs ->
    Elems (pre ++ w1 ++ ch "," :: w2 ++ body) (v :: vs)
(** From after the opening quote of the first key through the closing
    brace. *)
with Members : str -> list (str * json) -> Prop :=
| M_one kbody k w1 w2 pre v w3 :
    IsStr kbody k -> all_ws w1 -> all_ws w2 -> Value pre v -> all_ws w3 ->
    Members (kbody ++ w1 ++ ch ":" :: w2 ++ pre ++ w3 ++ [ch "}"]) [(k, v)]
| M_cons kbody k w1 w2 pre v w3 w4 body ps :
    IsStr kbody k -> all_ws w1 -> all_ws w2 -> Value pre v -> all_ws w3 ->
    all_ws w4 -> Members body ps ->
    Members (kbody ++ w1 ++ ch ":" :: w2 ++ pre ++ w3 ++ ch "," :: w4
                   ++ QUOTE :: body)
            ((k, v) :: ps).

Scheme Value_mut := Minimality for Value Sort Prop
  with Elems_mut := Minimality for Elems Sort Prop
  with Members_mut := Minimality for Members Sort Prop.
Combined Scheme Value_Elems_Members_ind from Value_mut, Elems_mut, Members_mut.

(** Values whose objects have distinct keys and whose floats are number
    texts: the values [json.loads] returns. *)
Fixpoint wf_json (v : json) : Prop :=
  match v with
  | JFloat literal => Scalar literal v
  | JArr items =>
      (fix all (l : list json) : Prop :=
         match l with
         | [] => True
         | x :: l' => wf_json x /\ all l'
         end) items
  | JObj members =>
      NoDup (keys members) /\
      (fix all (l : list (str * json)) : Prop :=
         match l with
         | [] => True
         | (_, x) :: l' => wf_json x /\ all l'
         end) members
  | _ => True
  end.

(** Arrays and objects. *)
Definition container (v : json) : bool :=
  match v with
  | JArr _ | JObj _ => true
  | _ => false
  end.

(** One member as the encoder writes it. *)
Definition member_text (indent : option nat) (key_ws : str) (level : nat)
    (kv : str * json) : str :=
  encode_basestring (fst kv) ++ (ch ":" :: key_ws)
  ++ iterencode indent (py ",") (ch ":" :: key_ws) (S level) (snd kv).

(** What the decoder accepts is a text of the value it returns. *)
Definition sound_value (fuel : nat) : Prop :=
  forall s v rest, scan_once fuel s = Ok (v, rest) ->
                   exists pre, s = pre ++ rest /\ Value pre v.

Definition sound_elems (fuel : nat) : Prop :=
  forall s vs rest, array_loop fuel s = Ok (vs, rest) ->
                    exists body, s = body ++ rest /\ Elems body vs.

Definition sound_members (fuel : nat) : Prop :=
  forall s ps rest, object_loop fuel s = Ok (ps, rest) ->
                    exists body, s = body ++ rest /\ Members body ps.

(** A text of a value is decoded to that value, given fuel beyond its
    length. *)
Definition complete_value (pre : str) (v : json) : Prop :=
  forall fuel rest, List.length pre < fuel -> follow rest ->
                    scan_once fuel (pre ++ rest) = Ok (v, rest).

Definition complete_elems (body : str) (vs : list json) : Prop :=
  forall fuel rest, List.length body < fuel ->
                    array_loop fuel (body ++ rest) = Ok (vs, rest).

Definition complete_members (body : str) (ps : list (str * json)) : Prop :=
  forall fuel rest, List.length body < fuel ->
                    object_loop fuel (body ++ rest) = Ok (ps, rest).

(** The result is not the error of a decoder out of fuel. *)
Definition no_rec (A : Type) (r : result A) : Prop := r <> Raise RecursionError.
Arguments no_rec {A} r.

(* ================================================================== *)
(** ** window.py: the callers of the history and of the formatter *)
(* ================================================================== *)

(** [on_history_activated]: the item handed to [_load_history_item] for
    the activated row, or [None] when the handler returns before. *)
Definition on_history_activated (self : HistoryManager) (r : row)
  : option item :=
  match get_request_key_from_row self r with
  | None => None
  | Some request_key =>
      if py_not request_key then None
      else get_history_data self request_key
  end.


Section Toolbar.
Variable minidom_pretty : str -> option str.


End Toolbar.

(* ================================================================== *)
(** ** Definitions used to state and prove the further properties *)
(* ================================================================== *)

(** *** Further properties of the history *)

(** What every entry of [history_data] keeps: it sits under the key of its
    own method and url, its url is not empty, and its two labels show its
    method and url and the status and time of its response. *)
Definition entry_consistent (kv : str * item) : Prop :=
  fst kv = request_key_of (it_method (snd kv)) (it_url (snd kv)) /\
  it_url (snd kv) <> [] /\
  it_title_label (snd kv) = (it_method (snd kv), it_url (snd kv)) /\
  it_subtitle_label (snd kv) = subtitle_of (it_response (snd kv)).

(** *** Further properties of the formatter *)

(** The repair pass of [format_json]: the two [re.sub] calls that drop a
    comma in front of a closing brace or bracket. *)
Definition without_trailing_commas (content : str) : str :=
  re_sub re_comma_bracket (py "]") (re_sub re_comma_brace (py "}") content).

(** What the loops of [_simple_xml_format] and [_simple_html_format] make
    of one line: they pass over it, write it at the margin, or write it
    indented, and in that case step the level down before writing, up
    after writing, or not at all. *)
Inductive line_kind := Blank | Margin | Closing | Opening | Level.

(** The tests of the loop of [_simple_xml_format], in its order. *)
Definition xml_kind_of (line : str) : line_kind :=
  let line := strip line in
  if py_not line then Blank
  else if startswith line (py "<?xml") then Margin
  else if startswith line (py "</") then Closing
  else if endswith line (py "/>") then Level
  else if startswith line (py "<") && negb (startswith line (py "</")) then
    if negb (endswith line (py "/>")) && negb (contains line (py "</"))
    then Opening else Level
  else Level.

(** The tests of the loop of [_simple_html_format], in its order. *)
Definition html_kind_of (line : str) : line_kind :=
  let line := strip line in
  if py_not line then Blank
  else if startswith (lower line) (py "<!doctype") then Margin
  else if startswith line (py "<!--") then Level
  else if startswith line (py "</") then Closing
  else if existsb (fun tag => endswith (rstrip line) (py "</" ++ tag ++ py ">"))
                  void_elements
          || endswith line (py "/>") then Level
  else if startswith line (py "<") && negb (startswith line (py "</")) then
    match tag_name_group1 line with
    | Some name =>
        if negb (str_in (lower name) void_elements)
           && negb (endswith line (py "/>"))
        then
          if negb (contains line (py "</" ++ name ++ py ">"))
          then Opening else Level
        else Level
    | None => Level
    end
  else Level.

(** One turn of either loop, by the kind of the line. *)
Definition line_step (k : line_kind) (st : list str * Z) (line : str)
  : list str * Z :=
  let (formatted, indent_level) := st in
  match k with
  | Blank => st
  | Margin => (formatted ++ [strip line], indent_level)
  | Closing =>
      (formatted ++ [py_mul (py "  ") (Z.max 0 (indent_level - 1)) ++ strip line],
       Z.max 0 (indent_level - 1))
  | Opening =>
      (formatted ++ [py_mul (py "  ") indent_level ++ strip line],
       (indent_level + 1)%Z)
  | Level =>
      (formatted ++ [py_mul (py "  ") indent_level ++ strip line],
       indent_level)
  end.

(** Lines in which every opening line has its closing line, in the way of
    brackets. *)
Inductive Nested (kind_of : str -> line_kind) : list str -> Prop :=
| Nested_nil : Nested kind_of []
| Nested_line (l : str) (rest : list str) :
    kind_of l <> Opening -> kind_of l <> Closing ->
    Nested kind_of rest -> Nested kind_of (l :: rest)
| Nested_element (o c : str) (body rest : list str) :
    kind_of o = Opening -> Nested kind_of body -> kind_of c = Closing ->
    Nested kind_of rest -> Nested kind_of (o :: body ++ c :: rest).

(** The lines a loop writes for [lines], started at [level]. *)
Definition lines_written (f : list str * Z -> str -> list str * Z)
    (level : Z) (lines : list str) : list str :=
  fst (fold_left f lines ([], level)).

(** The lines of the input that are not blank, each without its
    surrounding white space. *)
Definition trimmed_lines (lines : list str) : list str :=
  filter (fun line => negb (py_not line)) (List.map strip lines).

(** White space as [minify_content] leaves it in XML and HTML: every white
    space character is the plain space, and no two stand side by side. *)
Definition plain_spaces (s : str) : Prop :=
  Forall (fun c => isspace c = true -> c = 32%N) s.

Fixpoint no_space_run (s : str) : bool :=
  match s with
  | a :: t =>
      match t with
      | b :: _ => negb (isspace a && isspace b)
      | [] => true
      end && no_space_run t
  | [] => true
  end.

(** The document [format_xml] hands to [minidom] and, when that fails, to
    [_simple_xml_format]: the text without its surrounding white space,
    under an XML declaration of its own or the one added. *)
Definition with_declaration (content : str) : str :=
  let content := strip content in
  if negb (startswith content (py "<?xml"))
  then pyq "<?xml version='1.0' encoding='UTF-8'?>" ++ [NEWLINE] ++ content
  else content.

(** A line that is not blank. *)
Definition not_blank (line : str) : bool := negb (py_not (strip line)).

(** The order of recency of a sequence of keys: each key, when it comes,
    goes to the front, from wherever it was. *)
Definition touch (acc : list str) (k : str) : list str :=
  k :: filter (fun k' => negb (str_eqb k' k)) acc.

Definition recency (ks : list str) : list str := fold_left touch ks [].

(** The order of creation: each key, when it comes first, goes to the
    end. *)
Definition first_seen (acc : list str) (k : str) : list str :=
  if existsb (str_eqb k) acc then acc else acc ++ [k].

Definition creation (ks : list str) : list str := fold_left first_seen ks [].


(** The first statement of both indenters, [re.sub(r'>\s*<', '>\n<', s)]:
    a newline between the end of a tag and the start of the next. *)
Definition split_tags (content : str) : str :=
  re_sub re_between_tags (py ">" ++ [NEWLINE] ++ py "<") content.

(** A tag end, the white space [w], a tag start, somewhere in [s]. *)
Definition gap (w s : str) : Prop :=
  exists a r, s = a ++ ch ">" :: w ++ ch "<" :: r.

Definition gap_free (s : str) : Prop :=
  forall w, all_space w -> ~ gap w s.

(** A line as the indenters write it behind the indentation: not empty,
    without white space at its ends, without a newline, and without a
    tag end and a tag start that only white space separates. *)
Definition clean (t : str) : Prop :=
  t <> [] /\ strip t = t /\
  forallb (fun c => negb (N.eqb c NEWLINE)) t = true /\
  gap_free t.

(** Indentation: plain spaces. *)
Definition indentation (ind : str) : Prop := Forall (fun c => c = 32%N) ind.

(** A clean line behind indentation. *)
Definition indented_line (out t : str) : Prop :=
  exists ind, indentation ind /\ out = ind ++ t.

(** The lines [outs], each after a newline. *)
Definition tail_text (outs : list str) : str :=
  List.concat (List.map (fun out => NEWLINE :: out) outs).

(** Nothing, or a text that ends with no white space. *)
Definition ends_well (t : str) : Prop :=
  t = [] \/ exists a d, t = a ++ [d] /\ isspace d = false.

(* ================================================================== *)
(** ** Strings and dictionaries: basic facts *)
(* ================================================================== *)

Lemma str_eqb_eq (a b : str) : str_eqb a b = true <-> a = b.
Proof.
  revert b; induction a as [|x a IH]; intros [|y b]; simpl; split;
    try congruence; try reflexivity.
  - rewrite andb_true_iff, N.eqb_eq, IH. intros [-> ->]; reflexivity.
  - intros [= -> ->]. rewrite N.eqb_refl. simpl. apply IH. reflexivity.
Qed.

Lemma str_eqb_refl (a : str) : str_eqb a a = true.
Proof. apply str_eqb_eq; reflexivity. Qed.

Lemma str_eqb_neq (a b : str) : str_eqb a b = false <-> a <> b.
Proof.
  rewrite <- str_eqb_eq. destruct (str_eqb a b); split; congruence.
Qed.

Section DictFacts.
Variable V : Type.
Implicit Types (d : dict V) (k : str) (v : V).

Lemma dict_get_None d k : dict_get d k = None <-> ~ In k (keys d).
Proof.
  induction d as [|[k' v'] d IH]; simpl.
  - tauto.
  - destruct (str_eqb k' k) eqn:E.
    + apply str_eqb_eq in E. split; [discriminate | intros H; exfalso; auto].
    + apply str_eqb_neq in E. rewrite IH. tauto.
Qed.

Lemma dict_get_In d k v : dict_get d k = Some v -> In (k, v) d.
Proof.
  induction d as [|[k' v'] d IH]; simpl; [discriminate|].
  destruct (str_eqb k' k) eqn:E.
  - apply str_eqb_eq in E. intros [= ->]. left; congruence.
  - auto.
Qed.

Lemma dict_mem_In d k : dict_mem d k = true <-> In k (keys d).
Proof.
  unfold dict_mem. destruct (dict_get d k) eqn:E.
  - split; [intros _|reflexivity].
    apply dict_get_In in E. apply (in_map fst) in E. exact E.
  - apply dict_get_None in E. split; [discriminate | tauto].
Qed.

Lemma dict_mem_false d k : dict_mem d k = false <-> ~ In k (keys d).
Proof.
  rewrite <- dict_mem_In. destruct (dict_mem d k); split; congruence.
Qed.

(** A present key splits the dictionary at its entry. *)
Lemma dict_get_split d k v :
  dict_get d k = Some v ->
  exists d1 d2, d = d1 ++ (k, v) :: d2 /\ ~ In k (keys d1).
Proof.
  induction d as [|[k' v'] d IH]; simpl; [discriminate|].
  destruct (str_eqb k' k) eqn:E.
  - apply str_eqb_eq in E. intros [= ->]. subst k'.
    exists [], d. simpl. tauto.
  - apply str_eqb_neq in E. intros H.
    destruct (IH H) as (d1 & d2 & -> & Hn).
    exists ((k', v') :: d1), d2. simpl. split; [reflexivity|]. tauto.
Qed.

Lemma dict_set_new d k v : ~ In k (keys d) -> dict_set d k v = d ++ [(k, v)].
Proof.
  induction d as [|[k' v'] d IH]; simpl; intros H; [reflexivity|].
  destruct (str_eqb k' k) eqn:E.
  - apply str_eqb_eq in E. tauto.
  - rewrite IH; tauto.
Qed.

Lemma dict_set_at d1 d2 k v v' :
  ~ In k (keys d1) ->
  dict_set (d1 ++ (k, v) :: d2) k v' = d1 ++ (k, v') :: d2.
Proof.
  induction d1 as [|[k1 v1] d1 IH]; simpl; intros H.
  - rewrite str_eqb_refl. reflexivity.
  - destruct (str_eqb k1 k) eqn:E.
    + apply str_eqb_eq in E. tauto.
    + rewrite IH; tauto.
Qed.

Lemma dict_del_at d1 d2 k v :
  ~ In k (keys d1) ->
  dict_del (d1 ++ (k, v) :: d2) k = d1 ++ d2.
Proof.
  induction d1 as [|[k1 v1] d1 IH]; simpl; intros H.
  - rewrite str_eqb_refl. reflexivity.
  - destruct (str_eqb k1 k) eqn:E.
    + apply str_eqb_eq in E. tauto.
    + rewrite IH; tauto.
Qed.

Lemma dict_get_at d1 d2 k v :
  ~ In k (keys d1) -> dict_get (d1 ++ (k, v) :: d2) k = Some v.
Proof.
  induction d1 as [|[k1 v1] d1 IH]; simpl; intros H.
  - rewrite str_eqb_refl. reflexivity.
  - destruct (str_eqb k1 k) eqn:E.
    + apply str_eqb_eq in E. tauto.
    + apply IH; tauto.
Qed.

Lemma keys_app d1 d2 : keys (d1 ++ d2) = keys d1 ++ keys d2.
Proof. unfold keys. apply map_app. Qed.
End DictFacts.

(* ================================================================== *)
(** ** The list box *)
(* ================================================================== *)

Lemma listbox_remove_at (l1 l2 : list row) (r : row) :
  ~ In r l1 -> listbox_remove (l1 ++ r :: l2) r = l1 ++ l2.
Proof.
  induction l1 as [|x l1 IH]; simpl; intros H.
  - rewrite Nat.eqb_refl. reflexivity.
  - destruct (Nat.eqb x r) eqn:E.
    + apply Nat.eqb_eq in E. tauto.
    + rewrite IH; tauto.
Qed.

Lemma in_split_first (l : list row) (r : row) :
  In r l -> exists l1 l2, l = l1 ++ r :: l2 /\ ~ In r l1.
Proof.
  induction l as [|x l IH]; simpl; [tauto|].
  destruct (Nat.eq_dec x r) as [->|Hne].
  - intros _. exists [], l. simpl. tauto.
  - intros [H|H]; [tauto|].
    destruct (IH H) as (l1 & l2 & -> & Hn).
    exists (x :: l1), l2. simpl. tauto.
Qed.

(* ================================================================== *)
(** ** The invariant of the manager *)
(* ================================================================== *)

Lemma rows_app d1 d2 : rows (d1 ++ d2) = rows d1 ++ rows d2.
Proof. apply map_app. Qed.

Lemma wf_init : wf init.
Proof. split; simpl; try constructor; tauto. Qed.

Lemma NoDup_app_remove_mid (A : Type) (l1 l2 : list A) (x : A) :
  NoDup (l1 ++ x :: l2) -> NoDup (l1 ++ l2).
Proof. apply NoDup_remove_1. Qed.

(** Removing a present key keeps every part of the invariant but may only
    shrink the dictionary. *)
Lemma remove_present (s : HistoryManager) (k : str) (v : item) d1 d2 :
  wf s -> history_data s = d1 ++ (k, v) :: d2 -> ~ In k (keys d1) ->
  exists l1 l2,
    history_list s = l1 ++ it_row v :: l2 /\ ~ In (it_row v) l1 /\
    remove_history_item s k =
      {| history_list := l1 ++ l2; history_data := d1 ++ d2;
         next_row := next_row s |}.
Proof.
  intros W Hd Hk.
  assert (Hin : In (it_row v) (history_list s)).
  { apply (Permutation_in _ (Permutation_sym (wf_list _ W))).
    rewrite Hd, rows_app. apply in_or_app. right. left. reflexivity. }
  destruct (in_split_first _ _ Hin) as (l1 & l2 & Hl & Hn).
  exists l1, l2. split; [exact Hl|]. split; [exact Hn|].
  unfold remove_history_item. rewrite Hd, dict_get_at by exact Hk.
  rewrite dict_del_at by exact Hk. rewrite Hl, listbox_remove_at by exact Hn.
  reflexivity.
Qed.

Lemma wf_remove_present (s : HistoryManager) (k : str) (v : item) d1 d2 l1 l2 :
  wf s -> history_data s = d1 ++ (k, v) :: d2 ->
  history_list s = l1 ++ it_row v :: l2 ->
  wf {| history_list := l1 ++ l2; history_data := d1 ++ d2;
        next_row := next_row s |}.
Proof.
  intros [Wk Wr Wf Wl] Hd Hl. rewrite Hd in *. rewrite Hl in *.
  rewrite keys_app in Wk. rewrite rows_app in *. simpl in *.
  split; simpl.
  - rewrite keys_app. eapply NoDup_remove_1; eassumption.
  - rewrite rows_app. eapply NoDup_remove_1; eassumption.
  - intros r Hr. apply Wf. rewrite rows_app in Hr.
    apply in_app_or in Hr. apply in_or_app. simpl. tauto.
  - rewrite rows_app. eapply Permutation_app_inv; eassumption.
Qed.

Lemma wf_remove_history_item (s : HistoryManager) (k : str) :
  wf s -> wf (remove_history_item s k).
Proof.
  intros W. destruct (dict_get (history_data s) k) as [v|] eqn:E.
  - destruct (dict_get_split _ _ _ _ E) as (d1 & d2 & Hd & Hk).
    destruct (remove_present s k v d1 d2 W Hd Hk) as (l1 & l2 & Hl & _ & ->).
    eapply wf_remove_present; eassumption.
  - unfold remove_history_item. rewrite E. exact W.
Qed.

Lemma wf_clear_history (s : HistoryManager) : wf s -> wf (clear_history s).
Proof.
  unfold clear_history. generalize (keys (history_data s)) as ks.
  intros ks; revert s. induction ks as [|k ks IH]; simpl; intros s W.
  - exact W.
  - apply IH. apply wf_remove_history_item. exact W.
Qed.

(** *** Updating and creating *)

Lemma wf_NoDup_list (s : HistoryManager) : wf s -> NoDup (history_list s).
Proof.
  intros W. eapply Permutation_NoDup.
  - apply Permutation_sym, (wf_list _ W).
  - apply (wf_rows _ W).
Qed.

Lemma update_present (s : HistoryManager) (k : str) (v : item) resp d1 d2 :
  wf s -> history_data s = d1 ++ (k, v) :: d2 -> ~ In k (keys d1) ->
  exists l1 l2,
    history_list s = l1 ++ it_row v :: l2 /\ ~ In (it_row v) l1 /\
    _update_history_item s k resp =
      {| history_list := it_row v :: l1 ++ l2;
         history_data := d1 ++ (k, with_response v resp) :: d2;
         next_row := next_row s |}.
Proof.
  intros W Hd Hk.
  destruct (remove_present s k v d1 d2 W Hd Hk) as (l1 & l2 & Hl & Hn & _).
  exists l1, l2. split; [exact Hl|]. split; [exact Hn|].
  unfold _update_history_item. rewrite Hd, dict_get_at by exact Hk.
  rewrite dict_set_at by exact Hk. rewrite Hl. unfold listbox_insert0.
  rewrite listbox_remove_at by exact Hn. reflexivity.
Qed.

Lemma wf_update_history_item (s : HistoryManager) (k : str) resp :
  wf s -> wf (_update_history_item s k resp).
Proof.
  intros W. destruct (dict_get (history_data s) k) as [v|] eqn:E.
  - destruct (dict_get_split _ _ _ _ E) as (d1 & d2 & Hd & Hk).
    destruct (update_present s k v resp d1 d2 W Hd Hk)
      as (l1 & l2 & Hl & Hn & ->).
    destruct W as [Wk Wr Wf Wl]. rewrite Hd, Hl in *.
    split; simpl.
    + rewrite keys_app in *. exact Wk.
    + rewrite rows_app in *. exact Wr.
    + intros r Hr. apply Wf. rewrite rows_app in *. exact Hr.
    + rewrite rows_app in *. simpl in *.
      eapply Permutation_trans; [|exact Wl]. apply Permutation_middle.
  - unfold _update_history_item. rewrite E. exact W.
Qed.

Lemma create_unfold (s : HistoryManager) (k m u : str) resp b h :
  ~ In k (keys (history_data s)) ->
  _create_history_item s k m u resp b h =
    if Nat.ltb max_items (S (List.length (history_data s)))
    then _remove_oldest_item (inserted s k m u resp b h)
    else inserted s k m u resp b h.
Proof.
  intros Hk. unfold _create_history_item. cbv zeta.
  rewrite dict_set_new by exact Hk. simpl history_data.
  rewrite length_app. simpl List.length. rewrite Nat.add_1_r. reflexivity.
Qed.

Lemma wf_inserted (s : HistoryManager) (k m u : str) resp b h :
  wf s -> ~ In k (keys (history_data s)) -> wf (inserted s k m u resp b h).
Proof.
  intros [Wk Wr Wf Wl] Hk. split; simpl.
  - rewrite keys_app. simpl. apply NoDup_app; simpl.
    + exact Wk.
    + constructor; [tauto|constructor].
    + intros x Hx [<-|[]]. tauto.
  - rewrite rows_app. simpl. apply NoDup_app; simpl.
    + exact Wr.
    + constructor; [tauto|constructor].
    + intros x Hx [<-|[]]. apply Wf in Hx. lia.
  - intros r. rewrite rows_app. simpl. intros Hr.
    apply in_app_or in Hr. destruct Hr as [Hr|[<-|[]]]; [|lia].
    apply Wf in Hr. lia.
  - rewrite rows_app. simpl.
    eapply Permutation_trans; [|apply Permutation_cons_append].
    constructor. exact Wl.
Qed.

Lemma wf_remove_oldest_item (s : HistoryManager) :
  wf s -> wf (_remove_oldest_item s).
Proof.
  intros W. unfold _remove_oldest_item.
  destruct (keys (history_data s)); [exact W|].
  apply wf_remove_history_item. exact W.
Qed.

Lemma wf_add_to_history (s : HistoryManager) (m u : str) resp b h :
  wf s -> wf (add_to_history s m u resp b h).
Proof.
  intros W. unfold add_to_history. destruct (py_not u); [exact W|].
  destruct (dict_mem (history_data s) (request_key_of m u)) eqn:E.
  - apply wf_update_history_item. exact W.
  - apply dict_mem_false in E. rewrite create_unfold by exact E.
    destruct (Nat.ltb _ _).
    + apply wf_remove_oldest_item, wf_inserted; assumption.
    + apply wf_inserted; assumption.
Qed.

Lemma wf_step (s : HistoryManager) (c : call) : wf s -> wf (step s c).
Proof.
  destruct c; simpl.
  - apply wf_add_to_history.
  - apply wf_remove_history_item.
  - apply wf_clear_history.
Qed.

Lemma run_snoc (cs : list call) (c : call) : run (cs ++ [c]) = step (run cs) c.
Proof. unfold run. rewrite fold_left_app. reflexivity. Qed.

Lemma wf_run (cs : list call) : wf (run cs).
Proof.
  induction cs as [|c cs IH] using rev_ind.
  - apply wf_init.
  - rewrite run_snoc. apply wf_step. exact IH.
Qed.

(* ================================================================== *)
(** ** What the list box shows *)
(* ================================================================== *)

Lemma ordered_keys_eq (s : HistoryManager) :
  ordered_keys s = List.map (key_of_row (history_data s)) (history_list s).
Proof. reflexivity. Qed.

Lemma key_of_row_skip (d1 d2 : dict item) (r : row) :
  ~ In r (rows d1) -> key_of_row (d1 ++ d2) r = key_of_row d2 r.
Proof.
  unfold key_of_row. induction d1 as [|[k v] d1 IH]; simpl; intros H.
  - reflexivity.
  - destruct (Nat.eqb (it_row v) r) eqn:E.
    + apply Nat.eqb_eq in E. tauto.
    + apply IH. tauto.
Qed.

Lemma key_of_row_here (d : dict item) (k : str) (v : item) :
  key_of_row ((k, v) :: d) (it_row v) = Some k.
Proof. unfold key_of_row. simpl. rewrite Nat.eqb_refl. reflexivity. Qed.

Lemma key_of_row_next (d : dict item) (k : str) (v : item) (r : row) :
  r <> it_row v -> key_of_row ((k, v) :: d) r = key_of_row d r.
Proof.
  intros H. unfold key_of_row. simpl.
  destruct (Nat.eqb (it_row v) r) eqn:E; [|reflexivity].
  apply Nat.eqb_eq in E. congruence.
Qed.

Lemma key_of_row_drop (d1 d2 : dict item) (k : str) (v : item) (r : row) :
  r <> it_row v ->
  key_of_row (d1 ++ (k, v) :: d2) r = key_of_row (d1 ++ d2) r.
Proof.
  intros H. induction d1 as [|[k1 v1] d1 IH]; simpl.
  - apply key_of_row_next. exact H.
  - destruct (Nat.eq_dec r (it_row v1)) as [->|Hne].
    + rewrite !key_of_row_here. reflexivity.
    + rewrite !key_of_row_next by exact Hne. exact IH.
Qed.

Lemma key_of_row_In (d : dict item) (r : row) (k : str) :
  key_of_row d r = Some k -> exists v, In (k, v) d /\ it_row v = r.
Proof.
  unfold key_of_row.
  destruct (find _ d) as [[k' v]|] eqn:E; [|discriminate].
  intros [= ->]. apply find_some in E. destruct E as [Hin Hr].
  simpl in Hr. apply Nat.eqb_eq in Hr. exists v. tauto.
Qed.

Lemma NoDup_keys_fun (d : dict item) (k : str) (v v' : item) :
  NoDup (keys d) -> In (k, v) d -> In (k, v') d -> v = v'.
Proof.
  induction d as [|[k1 v1] d IH]; simpl; [tauto|].
  intros Hnd. inversion Hnd as [|? ? Hn Hnd']; subst.
  intros [H1|H1] [H2|H2].
  - congruence.
  - injection H1 as -> ->. exfalso. apply Hn.
    apply (in_map fst) in H2. exact H2.
  - injection H2 as -> ->. exfalso. apply Hn.
    apply (in_map fst) in H1. exact H1.
  - auto.
Qed.

(** In a well-formed dictionary a row other than the row of [k] never
    resolves to [k]. *)
Lemma key_of_row_other (d1 d2 : dict item) (k : str) (v : item) (r : row) :
  NoDup (keys (d1 ++ (k, v) :: d2)) -> r <> it_row v ->
  okey_neqb k (key_of_row (d1 ++ (k, v) :: d2) r) = true.
Proof.
  intros Hnd Hr.
  destruct (key_of_row (d1 ++ (k, v) :: d2) r) as [k'|] eqn:E; simpl;
    [|reflexivity].
  apply negb_true_iff, str_eqb_neq. intros ->.
  apply key_of_row_In in E. destruct E as (v' & Hin & Hrow).
  assert (v' = v).
  { eapply NoDup_keys_fun; [exact Hnd|exact Hin|].
    apply in_or_app. right. left. reflexivity. }
  subst v'. congruence.
Qed.

Lemma key_of_row_self (d1 d2 : dict item) (k : str) (v : item) :
  NoDup (rows (d1 ++ (k, v) :: d2)) ->
  key_of_row (d1 ++ (k, v) :: d2) (it_row v) = Some k.
Proof.
  intros Hnd. rewrite key_of_row_skip.
  - apply key_of_row_here.
  - rewrite rows_app in Hnd. simpl in Hnd.
    apply NoDup_remove_2 in Hnd. intros H. apply Hnd.
    apply in_or_app. tauto.
Qed.

(** What is shown once the entry of [k] is taken out of both structures. *)
Lemma shown_without (d1 d2 : dict item) (k : str) (v : item) (l1 l2 : list row) :
  NoDup (keys (d1 ++ (k, v) :: d2)) ->
  NoDup (rows (d1 ++ (k, v) :: d2)) ->
  NoDup (l1 ++ it_row v :: l2) ->
  List.map (key_of_row (d1 ++ d2)) (l1 ++ l2) =
  filter (okey_neqb k)
         (List.map (key_of_row (d1 ++ (k, v) :: d2)) (l1 ++ it_row v :: l2)).
Proof.
  intros Hk Hr Hl.
  assert (Hne : forall r, In r (l1 ++ l2) -> r <> it_row v).
  { intros r Hin ->. apply NoDup_remove_2 in Hl. tauto. }
  assert (Hpart : forall l, (forall r, In r l -> r <> it_row v) ->
            List.map (key_of_row (d1 ++ d2)) l =
            filter (okey_neqb k)
                   (List.map (key_of_row (d1 ++ (k, v) :: d2)) l)).
  { induction l as [|r l IH]; simpl; intros H; [reflexivity|].
    rewrite (key_of_row_other d1 d2 k v r Hk) by (apply H; tauto).
    rewrite key_of_row_drop by (apply H; tauto).
    f_equal. apply IH. intros r' Hr'. apply H. tauto. }
  rewrite !map_app, filter_app. simpl.
  rewrite key_of_row_self by exact Hr. simpl.
  rewrite str_eqb_refl. simpl.
  rewrite <- !Hpart.
  - reflexivity.
  - intros r Hin. apply Hne. apply in_or_app. tauto.
  - intros r Hin. apply Hne. apply in_or_app. tauto.
Qed.

Lemma ordered_keys_remove (s : HistoryManager) (k : str) :
  wf s -> In k (keys (history_data s)) ->
  ordered_keys (remove_history_item s k) =
  filter (okey_neqb k) (ordered_keys s).
Proof.
  intros W Hin.
  destruct (dict_get (history_data s) k) as [v|] eqn:E;
    [|apply dict_get_None in E; tauto].
  destruct (dict_get_split _ _ _ _ E) as (d1 & d2 & Hd & Hk).
  destruct (remove_present s k v d1 d2 W Hd Hk) as (l1 & l2 & Hl & Hn & ->).
  rewrite !ordered_keys_eq. simpl. rewrite Hd, Hl.
  apply shown_without.
  - rewrite <- Hd. apply (wf_keys _ W).
  - rewrite <- Hd. apply (wf_rows _ W).
  - rewrite <- Hl. apply wf_NoDup_list. exact W.
Qed.

Lemma key_of_row_with_response (d1 d2 : dict item) (k : str) (v : item) resp r :
  key_of_row (d1 ++ (k, with_response v resp) :: d2) r =
  key_of_row (d1 ++ (k, v) :: d2) r.
Proof.
  induction d1 as [|[k1 v1] d1 IH]; simpl.
  - unfold key_of_row. simpl. destruct (Nat.eqb (it_row v) r); reflexivity.
  - destruct (Nat.eq_dec r (it_row v1)) as [->|Hne].
    + rewrite !key_of_row_here. reflexivity.
    + rewrite !key_of_row_next by exact Hne. exact IH.
Qed.

(** Re-recording a key: the dictionary keeps its order, the row goes to the
    top, the stored response is the new one. *)
Lemma update_shown (s : HistoryManager) (k : str) resp :
  wf s -> In k (keys (history_data s)) ->
  let s' := _update_history_item s k resp in
  keys (history_data s') = keys (history_data s) /\
  ordered_keys s' = Some k :: filter (okey_neqb k) (ordered_keys s) /\
  exists v, get_history_data s k = Some v /\
            get_history_data s' k = Some (with_response v resp).
Proof.
  intros W Hin.
  destruct (dict_get (history_data s) k) as [v|] eqn:E;
    [|apply dict_get_None in E; tauto].
  destruct (dict_get_split _ _ _ _ E) as (d1 & d2 & Hd & Hk).
  destruct (update_present s k v resp d1 d2 W Hd Hk)
    as (l1 & l2 & Hl & Hn & Hs).
  cbv zeta. rewrite Hs. simpl. rewrite !ordered_keys_eq. simpl.
  assert (Wk := wf_keys _ W). assert (Wr := wf_rows _ W).
  assert (Wl := wf_NoDup_list _ W). rewrite Hd in Wk, Wr. rewrite Hl in Wl.
  split; [|split].
  - rewrite Hd, !keys_app. reflexivity.
  - rewrite key_of_row_with_response, key_of_row_self by exact Wr.
    f_equal. rewrite Hd, Hl.
    rewrite <- (shown_without d1 d2 k v l1 l2 Wk Wr Wl).
    apply map_ext_in. intros r Hr.
    rewrite key_of_row_with_response. apply key_of_row_drop.
    intros ->. apply NoDup_remove_2 in Wl. tauto.
  - exists v. unfold get_history_data. simpl. rewrite E. split; [reflexivity|].
    apply dict_get_at. exact Hk.
Qed.

Lemma key_of_row_app_l (d1 d2 : dict item) (r : row) :
  In r (rows d1) -> key_of_row (d1 ++ d2) r = key_of_row d1 r.
Proof.
  induction d1 as [|[k v] d1 IH]; simpl; [tauto|].
  destruct (Nat.eq_dec r (it_row v)) as [->|Hne].
  - intros _. rewrite !key_of_row_here. reflexivity.
  - intros [H|H]; [congruence|].
    rewrite !key_of_row_next by exact Hne. apply IH. exact H.
Qed.

(** A new key with room left: one more row on top, one more key at the end
    of the dictionary. *)
Lemma inserted_shown (s : HistoryManager) (k m u : str) resp b h :
  wf s ->
  ordered_keys (inserted s k m u resp b h) = Some k :: ordered_keys s.
Proof.
  intros W. rewrite !ordered_keys_eq. simpl. f_equal.
  - rewrite key_of_row_skip.
    + apply (key_of_row_here [] k).
    + intros H. apply (wf_fresh _ W) in H. lia.
  - apply map_ext_in. intros r Hr. apply key_of_row_app_l.
    apply (Permutation_in _ (wf_list _ W)). exact Hr.
Qed.

Lemma remove_oldest_head (s : HistoryManager) (k0 : str) (v0 : item) d :
  history_data s = (k0, v0) :: d ->
  _remove_oldest_item s = remove_history_item s k0 /\
  history_data (remove_history_item s k0) = d.
Proof.
  intros Hd. unfold _remove_oldest_item, remove_history_item.
  rewrite Hd. simpl. rewrite str_eqb_refl. simpl.
  split; reflexivity.
Qed.

Lemma add_unfold (s : HistoryManager) (c : char) (u m : str) resp b h :
  add_to_history s m (c :: u) resp b h =
    let k := request_key_of m (c :: u) in
    if dict_mem (history_data s) k
    then _update_history_item s k resp
    else _create_history_item s k m (c :: u) resp b h.
Proof. reflexivity. Qed.

(** The three cases of a record call with a non-empty url. *)
Lemma add_existing (s : HistoryManager) (m u : str) resp b h :
  py_not u = false -> In (request_key_of m u) (keys (history_data s)) ->
  add_to_history s m u resp b h =
  _update_history_item s (request_key_of m u) resp.
Proof.
  intros Hu Hin. unfold add_to_history. rewrite Hu.
  apply dict_mem_In in Hin. rewrite Hin. reflexivity.
Qed.

Lemma add_new_room (s : HistoryManager) (m u : str) resp b h :
  py_not u = false -> ~ In (request_key_of m u) (keys (history_data s)) ->
  List.length (history_data s) < max_items ->
  add_to_history s m u resp b h =
  inserted s (request_key_of m u) m u resp b h.
Proof.
  intros Hu Hin Hlen. unfold add_to_history. rewrite Hu.
  assert (Hm := Hin). apply dict_mem_false in Hm. rewrite Hm.
  rewrite create_unfold by exact Hin.
  destruct (Nat.ltb_spec max_items (S (List.length (history_data s))));
    [lia|reflexivity].
Qed.

Lemma add_new_full (s : HistoryManager) (m u : str) resp b h k0 v0 d :
  py_not u = false -> ~ In (request_key_of m u) (keys (history_data s)) ->
  max_items <= List.length (history_data s) ->
  history_data s = (k0, v0) :: d ->
  add_to_history s m u resp b h =
  remove_history_item (inserted s (request_key_of m u) m u resp b h) k0.
Proof.
  intros Hu Hin Hlen Hd. unfold add_to_history. rewrite Hu.
  assert (Hm := Hin). apply dict_mem_false in Hm. rewrite Hm.
  rewrite create_unfold by exact Hin.
  destruct (Nat.ltb_spec max_items (S (List.length (history_data s))));
    [|lia].
  eapply remove_oldest_head. simpl. rewrite Hd. reflexivity.
Qed.

(** *** The capacity bound *)

Lemma length_remove_history_item (s : HistoryManager) (k : str) :
  List.length (history_data (remove_history_item s k))
  <= List.length (history_data s).
Proof.
  unfold remove_history_item.
  destruct (dict_get (history_data s) k) as [v|] eqn:E; [|lia].
  destruct (dict_get_split _ _ _ _ E) as (d1 & d2 & Hd & Hk).
  simpl. rewrite Hd, dict_del_at by exact Hk.
  rewrite !length_app. simpl. lia.
Qed.

Lemma length_clear_history (s : HistoryManager) :
  List.length (history_data (clear_history s))
  <= List.length (history_data s).
Proof.
  unfold clear_history. generalize (keys (history_data s)) as ks.
  intros ks; revert s. induction ks as [|k ks IH]; simpl; intros s.
  - lia.
  - etransitivity; [apply IH|]. apply length_remove_history_item.
Qed.

Lemma length_update_history_item (s : HistoryManager) (k : str) resp :
  List.length (history_data (_update_history_item s k resp))
  = List.length (history_data s).
Proof.
  unfold _update_history_item.
  destruct (dict_get (history_data s) k) as [v|] eqn:E; [|reflexivity].
  destruct (dict_get_split _ _ _ _ E) as (d1 & d2 & Hd & Hk).
  simpl. rewrite Hd, dict_set_at by exact Hk.
  rewrite !length_app. reflexivity.
Qed.

Lemma length_add_to_history (s : HistoryManager) (m u : str) resp b h :
  List.length (history_data s) <= max_items ->
  List.length (history_data (add_to_history s m u resp b h)) <= max_items.
Proof.
  intros Hb. unfold add_to_history. destruct (py_not u); [exact Hb|].
  destruct (dict_mem (history_data s) (request_key_of m u)) eqn:E.
  - rewrite length_update_history_item. exact Hb.
  - apply dict_mem_false in E. rewrite create_unfold by exact E.
    destruct (Nat.ltb_spec max_items (S (List.length (history_data s)))).
    + remember (inserted s (request_key_of m u) m u resp b h) as s'.
      destruct (history_data s') as [|[k0 v0] d] eqn:Hd.
      * subst s'. simpl in Hd. destruct (history_data s); discriminate.
      * destruct (remove_oldest_head s' k0 v0 d Hd) as [-> ->].
        assert (List.length (history_data s') = S (List.length d))
          by (rewrite Hd; reflexivity).
        subst s'. simpl in H0. rewrite length_app in H0. simpl in H0. lia.
    + simpl. rewrite length_app. simpl. lia.
Qed.

Lemma length_run (cs : list call) :
  List.length (history_data (run cs)) <= max_items.
Proof.
  induction cs as [|c cs IH] using rev_ind.
  - unfold max_items. simpl. lia.
  - rewrite run_snoc. destruct c; simpl.
    + apply length_add_to_history. exact IH.
    + etransitivity; [apply length_remove_history_item|exact IH].
    + etransitivity; [apply length_clear_history|exact IH].
Qed.

Lemma length_ordered_keys (s : HistoryManager) :
  wf s -> List.length (ordered_keys s) = List.length (history_data s).
Proof.
  intros W. unfold ordered_keys. rewrite length_map.
  rewrite (Permutation_length (wf_list _ W)). unfold rows.
  apply length_map.
Qed.

(* ================================================================== *)
(** ** Recording *)
(* ================================================================== *)

Lemma py_not_false (u : str) : u <> [] -> py_not u = false.
Proof. destruct u; [congruence|reflexivity]. Qed.

(** After a record call with a url, the key is in the dictionary. *)
Lemma add_present (s : HistoryManager) (m u : str) resp b h :
  u <> [] ->
  In (request_key_of m u) (keys (history_data (add_to_history s m u resp b h))).
Proof.
  intros Hu. apply py_not_false in Hu.
  set (k := request_key_of m u).
  destruct (in_dec (list_eq_dec N.eq_dec) k (keys (history_data s)))
    as [Hin|Hin].
  - rewrite add_existing by assumption.
    unfold _update_history_item. fold k.
    destruct (dict_get (history_data s) k) as [v|] eqn:E; [|exact Hin].
    destruct (dict_get_split _ _ _ _ E) as (d1 & d2 & Hd & Hk).
    simpl. rewrite Hd, dict_set_at by exact Hk.
    rewrite keys_app. apply in_or_app. right. left. reflexivity.
  - destruct (Nat.lt_ge_cases (List.length (history_data s)) max_items)
      as [Hlt|Hge].
    + rewrite add_new_room by assumption. simpl.
      rewrite keys_app. apply in_or_app. right. left. reflexivity.
    + destruct (history_data s) as [|[k0 v0] d] eqn:Hd.
      * unfold max_items in Hge. simpl in Hge. lia.
      * rewrite (add_new_full s m u resp b h k0 v0 d) by
          (try assumption; rewrite Hd; assumption).
        pose proof (remove_oldest_head
                      (inserted s k m u resp b h) k0 v0
                      (d ++ [(k, {| it_method := m; it_url := u;
                                    it_response := resp; it_body := b;
                                    it_headers := h; it_row := next_row s;
                                    it_title_label := (m, u);
                                    it_subtitle_label := subtitle_of resp |})]))
          as [_ Hrem].
        { simpl. rewrite Hd. reflexivity. }
        fold k. rewrite Hrem.
        rewrite keys_app. apply in_or_app. right. left. reflexivity.
Qed.

Lemma ordered_view_eq (s : HistoryManager) :
  ordered_view s =
  List.map (fun o => match o with
                     | Some k => get_history_data s k
                     | None => None
                     end) (ordered_keys s).
Proof. unfold ordered_view, ordered_keys. rewrite map_map. reflexivity. Qed.

Lemma not_in_filter_okey (k : str) (l : list (option str)) :
  ~ In (Some k) (filter (okey_neqb k) l).
Proof.
  intros H. apply filter_In in H. destruct H as [_ H]. simpl in H.
  rewrite str_eqb_refl in H. discriminate.
Qed.

(** Re-recording from any reachable state. *)
Lemma rerecord_shown (s : HistoryManager) (m u : str) resp b h :
  wf s -> u <> [] -> In (request_key_of m u) (keys (history_data s)) ->
  let k := request_key_of m u in
  let s' := add_to_history s m u resp b h in
  keys (history_data s') = keys (history_data s) /\
  ordered_keys s' = Some k :: filter (okey_neqb k) (ordered_keys s) /\
  exists v, get_history_data s k = Some v /\
            get_history_data s' k = Some (with_response v resp).
Proof.
  intros W Hu Hin. cbv zeta.
  rewrite add_existing by (try apply py_not_false; assumption).
  apply update_shown; assumption.
Qed.

(** A new key recorded into a full cache. *)
Lemma overflow_shown (s : HistoryManager) (m u : str) resp b h :
  wf s -> u <> [] -> ~ In (request_key_of m u) (keys (history_data s)) ->
  max_items <= List.length (history_data s) ->
  let k := request_key_of m u in
  let s' := add_to_history s m u resp b h in
  exists k0 rest,
    keys (history_data s) = k0 :: rest /\
    keys (history_data s') = rest ++ [k] /\
    ordered_keys s' = Some k :: filter (okey_neqb k0) (ordered_keys s).
Proof.
  intros W Hu Hin Hlen. cbv zeta.
  destruct (history_data s) as [|[k0 v0] d] eqn:Hd.
  - unfold max_items in Hlen. simpl in Hlen. lia.
  - exists k0, (keys d). split; [reflexivity|].
    rewrite (add_new_full s m u resp b h k0 v0 d); try assumption.
    2: apply py_not_false; assumption.
    2: rewrite Hd; assumption.
    2: rewrite Hd; assumption.
    set (k := request_key_of m u) in *.
    set (s1 := inserted s k m u resp b h).
    assert (W1 : wf s1) by (apply wf_inserted; [exact W|rewrite Hd; exact Hin]).
    assert (Hd1 : exists v, history_data s1 = (k0, v0) :: d ++ [(k, v)]).
    { eexists. unfold s1. simpl. rewrite Hd. reflexivity. }
    destruct Hd1 as (v & Hd1).
    split.
    + destruct (remove_oldest_head s1 k0 v0 _ Hd1) as [_ ->].
      rewrite keys_app. reflexivity.
    + rewrite ordered_keys_remove.
      * unfold s1. rewrite inserted_shown by exact W. simpl.
        destruct (str_eqb k k0) eqn:E.
        -- apply str_eqb_eq in E. subst k0. simpl in Hin. tauto.
        -- reflexivity.
      * exact W1.
      * rewrite Hd1. left. reflexivity.
Qed.

(** A new key recorded while there is room. *)
Lemma room_shown (s : HistoryManager) (m u : str) resp b h :
  wf s -> u <> [] -> ~ In (request_key_of m u) (keys (history_data s)) ->
  List.length (history_data s) < max_items ->
  let k := request_key_of m u in
  let s' := add_to_history s m u resp b h in
  keys (history_data s') = keys (history_data s) ++ [k] /\
  ordered_keys s' = Some k :: ordered_keys s.
Proof.
  intros W Hu Hin Hlen. cbv zeta.
  rewrite add_new_room by (try apply py_not_false; assumption).
  split.
  - simpl. rewrite keys_app. reflexivity.
  - apply inserted_shown. exact W.
Qed.

(* ================================================================== *)
(** ** Distinct fingerprints recorded one after the other *)
(* ================================================================== *)

Lemma skipn_S_tl (A : Type) (n : nat) (l : list A) :
  skipn (S n) l = tl (skipn n l).
Proof.
  revert l. induction n as [|n IH]; intros [|x l]; try reflexivity.
  change (skipn (S n) l = tl (skipn n l)). apply IH.
Qed.

Lemma filter_okey_fresh (k0 : str) (l : list str) :
  ~ In k0 l -> filter (okey_neqb k0) (List.map Some l) = List.map Some l.
Proof.
  induction l as [|x l IH]; simpl; intros H; [reflexivity|].
  destruct (str_eqb x k0) eqn:E.
  - apply str_eqb_eq in E. tauto.
  - simpl. rewrite IH; tauto.
Qed.

Lemma run_map_snoc (rqs : list request) (rq : request) :
  run (List.map record_call (rqs ++ [rq])) =
  add_to_history (run (List.map record_call rqs)) (rq_method rq) (rq_url rq)
                 (rq_response rq) (rq_body rq) (rq_headers rq).
Proof. rewrite map_app. simpl. rewrite run_snoc. reflexivity. Qed.

Lemma distinct_run (rqs : list request) :
  Forall (fun rq => rq_url rq <> []) rqs ->
  NoDup (List.map fingerprint rqs) ->
  let ks := List.map fingerprint rqs in
  let s := run (List.map record_call rqs) in
  keys (history_data s) = skipn (List.length ks - max_items) ks /\
  ordered_keys s = List.map Some (rev (skipn (List.length ks - max_items) ks)).
Proof.
  induction rqs as [|rq rqs IH] using rev_ind; intros Hu Hnd; cbv zeta.
  - split; reflexivity.
  - apply Forall_app in Hu. destruct Hu as [Hu Hrq].
    inversion Hrq as [|? ? Hurl _]; subst.
    rewrite map_app in Hnd. simpl in Hnd.
    assert (Hnd' : NoDup (List.map fingerprint rqs))
      by (eapply NoDup_app_remove_r; exact Hnd).
    assert (Hk : ~ In (fingerprint rq) (List.map fingerprint rqs)).
    { apply NoDup_remove_2 in Hnd. rewrite app_nil_r in Hnd. exact Hnd. }
    specialize (IH Hu Hnd'). cbv zeta in IH. destruct IH as [IHk IHo].
    set (ks := List.map fingerprint rqs) in *.
    set (s := run (List.map record_call rqs)) in *.
    assert (W : wf s) by apply wf_run.
    assert (Hks : ~ In (fingerprint rq) (keys (history_data s))).
    { rewrite IHk. intros H. apply Hk.
      rewrite <- (firstn_skipn (List.length ks - max_items) ks).
      apply in_or_app. tauto. }
    assert (Hlen : List.length (history_data s)
                   = List.length ks - (List.length ks - max_items)).
    { transitivity (List.length (keys (history_data s))).
      - unfold keys. rewrite length_map. reflexivity.
      - rewrite IHk. apply length_skipn. }
    rewrite run_map_snoc. fold s. rewrite map_app. fold ks. simpl.
    rewrite length_app. simpl.
    destruct (Nat.lt_ge_cases (List.length ks) max_items) as [Hlt|Hge].
    + destruct (room_shown s (rq_method rq) (rq_url rq) (rq_response rq)
                  (rq_body rq) (rq_headers rq) W Hurl Hks) as [Hk' Ho'];
        [lia|].
      rewrite Hk', Ho', IHk, IHo.
      replace (List.length ks - max_items) with 0 by lia.
      replace (List.length ks + 1 - max_items) with 0 by lia.
      simpl. rewrite rev_app_distr. split; reflexivity.
    + destruct (overflow_shown s (rq_method rq) (rq_url rq) (rq_response rq)
                  (rq_body rq) (rq_headers rq) W Hurl Hks)
        as (k0 & rest & Hk0 & Hk' & Ho'); [lia|].
      rewrite Hk', Ho', IHo.
      assert (Hrest : skipn (List.length ks + 1 - max_items)
                            (ks ++ [fingerprint rq])
                      = rest ++ [fingerprint rq]).
      { assert (0 < max_items) by (unfold max_items; lia).
        replace (List.length ks + 1 - max_items)
          with (S (List.length ks - max_items)) by lia.
        rewrite skipn_app.
        replace (S (List.length ks - max_items) - List.length ks) with 0
          by lia.
        rewrite skipn_S_tl, <- IHk, Hk0. reflexivity. }
      rewrite Hrest. split; [reflexivity|].
      rewrite <- IHk, Hk0. simpl rev. rewrite map_app, filter_app. simpl.
      rewrite str_eqb_refl. simpl. rewrite app_nil_r.
      rewrite rev_app_distr. simpl. f_equal.
      apply filter_okey_fresh.
      assert (Wk := wf_keys _ W). rewrite Hk0 in Wk.
      inversion Wk; subst. rewrite <- in_rev. assumption.
Qed.

(* ================================================================== *)
(** ** The line indenters *)
(* ================================================================== *)

Lemma lstrip_snoc (l : str) (c : char) :
  isspace c = false -> lstrip (l ++ [c]) = lstrip l ++ [c].
Proof.
  intros Hc. induction l as [|x l IH]; simpl.
  - rewrite Hc. reflexivity.
  - destruct (isspace x); [exact IH|reflexivity].
Qed.

Lemma lstrip_head (s : str) :
  lstrip s = [] \/ exists c t, lstrip s = c :: t /\ isspace c = false.
Proof.
  induction s as [|x s IH]; simpl.
  - left. reflexivity.
  - destruct (isspace x) eqn:E; [exact IH|].
    right. exists x, s. split; [reflexivity|exact E].
Qed.

Lemma lstrip_fixed (c : char) (t : str) :
  isspace c = false -> lstrip (c :: t) = c :: t.
Proof. intros H. simpl. rewrite H. reflexivity. Qed.

(** A stripped string is empty or starts with a character that is not
    white space. *)
Lemma strip_head (s : str) :
  strip s = [] \/ exists c t, strip s = c :: t /\ isspace c = false.
Proof.
  unfold strip, rstrip.
  destruct (lstrip_head s) as [->|(c & t & -> & Hc)].
  - left. reflexivity.
  - right. simpl rev. rewrite lstrip_snoc by exact Hc.
    rewrite rev_app_distr. simpl. eauto.
Qed.

Lemma strip_nonempty_fixed (s : str) :
  py_not (strip s) = false ->
  strip s <> [] /\ lstrip (strip s) = strip s.
Proof.
  intros H. destruct (strip_head s) as [E|(c & t & E & Hc)]; rewrite E in *.
  - discriminate.
  - split; [discriminate|]. apply lstrip_fixed. exact Hc.
Qed.

Lemma indented_at (level : Z) (line : str) :
  (0 <= level)%Z -> py_not (strip line) = false ->
  indented (py_mul (py "  ") level ++ strip line).
Proof.
  intros Hl Hs. exists level, (strip line).
  destruct (strip_nonempty_fixed line Hs). tauto.
Qed.

Lemma indented_flush (line : str) :
  py_not (strip line) = false -> indented (strip line).
Proof. intros Hs. apply (indented_at 0 line); [lia|exact Hs]. Qed.

Lemma loop_ok_emit (formatted : list str) (out : str) (level : Z) :
  Forall indented formatted -> indented out -> (0 <= level)%Z ->
  loop_ok (formatted ++ [out], level).
Proof.
  intros Hf Ho Hl. split; simpl; [|exact Hl].
  apply Forall_app. split; [exact Hf|]. constructor; [exact Ho|constructor].
Qed.

Ltac emit :=
  apply loop_ok_emit;
  [ assumption
  | first [ apply indented_at; [lia|assumption]
          | apply indented_flush; assumption ]
  | lia ].

Ltac split_tests :=
  repeat match goal with
         | |- context [match ?b with _ => _ end] => destruct b
         end.

Lemma xml_line_ok (st : list str * Z) (line : str) :
  loop_ok st -> loop_ok (xml_line st line).
Proof.
  destruct st as [formatted level]. intros [Hf Hl]. simpl in Hf, Hl.
  unfold xml_line.
  destruct (py_not (strip line)) eqn:Hs; [split; assumption|].
  split_tests; emit.
Qed.

Lemma html_line_ok (st : list str * Z) (line : str) :
  loop_ok st -> loop_ok (html_line st line).
Proof.
  destruct st as [formatted level]. intros [Hf Hl]. simpl in Hf, Hl.
  unfold html_line.
  destruct (py_not (strip line)) eqn:Hs; [split; assumption|].
  split_tests; emit.
Qed.

Lemma loop_ok_fold (f : list str * Z -> str -> list str * Z)
    (lines : list str) (st : list str * Z) :
  (forall st line, loop_ok st -> loop_ok (f st line)) ->
  loop_ok st -> loop_ok (fold_left f lines st).
Proof.
  intros Hf. revert st. induction lines as [|l lines IH]; simpl; intros st H.
  - exact H.
  - apply IH, Hf, H.
Qed.

Lemma loop_ok_start : loop_ok ([], 0%Z).
Proof. split; simpl; [constructor|lia]. Qed.

(* ================================================================== *)
(** ** The texts the decoder accepts *)
(* ================================================================== *)

(* ------------------------------------------------------------------ *)
(** *** White space *)

Lemma skip_ws_all (w s : str) : all_ws w -> skip_ws (w ++ s) = skip_ws s.
Proof.
  unfold all_ws. induction w as [|c w IH]; simpl; intros H; [reflexivity|].
  apply andb_true_iff in H. destruct H as [Hc Hw]. rewrite Hc. auto.
Qed.

Lemma skip_ws_id (c : char) (s : str) :
  json_ws c = false -> skip_ws (c :: s) = c :: s.
Proof. intros H. simpl. rewrite H. reflexivity. Qed.

Lemma skip_ws_split (s : str) :
  exists w, s = w ++ skip_ws s /\ all_ws w.
Proof.
  induction s as [|c s IH]; simpl.
  - exists []. split; reflexivity.
  - destruct (json_ws c) eqn:E.
    + destruct IH as (w & Hs & Hw). exists (c :: w). split.
      * simpl. congruence.
      * unfold all_ws in *. simpl. rewrite E, Hw. reflexivity.
    + exists []. split; reflexivity.
Qed.

Lemma skip_ws_nil_all (s : str) : skip_ws s = [] -> all_ws s.
Proof.
  intros H. destruct (skip_ws_split s) as (w & Hs & Hw).
  rewrite H, List.app_nil_r in Hs. subst. exact Hw.
Qed.

Lemma all_ws_nil : all_ws [].
Proof. reflexivity. Qed.

Lemma json_ws_isspace (c : char) : json_ws c = true -> isspace c = true.
Proof.
  unfold json_ws. rewrite !orb_true_iff, !N.eqb_eq.
  intros [[[->| ->]| ->]| ->]; reflexivity.
Qed.

Lemma value_start_cases (c : char) (P : char -> Prop) :
  Forall P value_start_chars -> value_start c = true -> P c.
Proof.
  intros HP H. unfold value_start in H. apply existsb_exists in H.
  destruct H as (x & Hin & Heq). apply N.eqb_eq in Heq. subst x.
  rewrite Forall_forall in HP. auto.
Qed.

Lemma value_start_not_ws (c : char) : value_start c = true -> json_ws c = false.
Proof.
  apply (value_start_cases c (fun c => json_ws c = false)).
  repeat constructor.
Qed.

Lemma value_start_not_space (c : char) : value_start c = true -> isspace c = false.
Proof.
  apply (value_start_cases c (fun c => isspace c = false)).
  repeat constructor.
Qed.

(* ------------------------------------------------------------------ *)
(** *** Strings *)

Lemma cons_result_Ok (c : char) (r : result (str * str)) (t rest : str) :
  cons_result c r = Ok (t, rest) ->
  exists t', r = Ok (t', rest) /\ t = c :: t'.
Proof.
  destruct r as [[t' rest']|e]; simpl; [|discriminate].
  intros [= <- <-]. eauto.
Qed.

(** The equation of [scanstring] at a [\uXXXX] escape. *)
Lemma scanstring_u (h1 h2 h3 h4 : char) (s3 : str) (b : nat) (uni : N) :
  hex4 h1 h2 h3 h4 = Some uni ->
  scanstring (BACKSLASH_CHAR :: ch "u" :: h1 :: h2 :: h3 :: h4 :: s3) b =
    if high_surrogate uni then
      match ahead s3 with
      | ASingle => cons_result uni (scanstring s3 b)
      | AError => Raise (invalid_uXXXX (skipn 1 s3))
      | APair uni2 =>
          cons_result (join_surrogates uni uni2) (scanstring (skipn 6 s3) b)
      end
    else cons_result uni (scanstring s3 b).
Proof.
  intros Hh. cbn [scanstring].
  change (N.eqb BACKSLASH_CHAR QUOTE) with false.
  change (N.eqb BACKSLASH_CHAR BACKSLASH_CHAR) with true.
  change (N.eqb (ch "u") (ch "u")) with true. cbv iota. rewrite Hh.
  destruct (high_surrogate uni); [|reflexivity].
  destruct s3 as [|b0 [|u s4]]; try reflexivity.
  unfold ahead.
  destruct (N.eqb b0 BACKSLASH_CHAR && N.eqb u (ch "u")); [|reflexivity].
  destruct s4 as [|g1 [|g2 [|g3 [|g4 s5]]]]; try reflexivity.
  destruct (hex4 g1 g2 g3 g4) as [uni2|]; [|reflexivity].
  destruct (low_surrogate uni2); reflexivity.
Qed.

Lemma scanstring_escape (esc c' : char) (s2 : str) (b : nat) :
  N.eqb esc (ch "u") = false -> backslash esc = Some c' ->
  scanstring (BACKSLASH_CHAR :: esc :: s2) b
  = cons_result c' (scanstring s2 b).
Proof.
  intros Hu Hb. cbn [scanstring].
  change (N.eqb BACKSLASH_CHAR QUOTE) with false.
  change (N.eqb BACKSLASH_CHAR BACKSLASH_CHAR) with true.
  cbv iota. rewrite Hu, Hb. reflexivity.
Qed.

Lemma scanstring_plain (c : char) (s1 : str) (b : nat) :
  N.eqb c QUOTE = false -> N.eqb c BACKSLASH_CHAR = false ->
  N.ltb c 32 = false ->
  scanstring (c :: s1) b = cons_result c (scanstring s1 b).
Proof.
  intros H1 H2 H3. cbn [scanstring]. rewrite H1, H2, H3. reflexivity.
Qed.

Lemma scanstring_quote (s1 : str) (b : nat) :
  scanstring (QUOTE :: s1) b = Ok ([], s1).
Proof. reflexivity. Qed.

Lemma IsStr_nonempty (body t : str) : IsStr body t -> body <> [].
Proof. intros [(b0 & ->) _]. destruct b0; discriminate. Qed.

Lemma IsStr_cons (pre body : str) (c : char) (t : str) :
  IsStr body t ->
  (forall rest b, scanstring (pre ++ body ++ rest) b
                  = cons_result c (scanstring (body ++ rest) b)) ->
  IsStr (pre ++ body) (c :: t).
Proof.
  intros [(b0 & Hb0) Hs] Hstep. split.
  - exists (pre ++ b0). rewrite Hb0, app_assoc. reflexivity.
  - intros rest b. rewrite <- app_assoc, Hstep, Hs. reflexivity.
Qed.

(** The text of a string alone decides what is found ahead. *)
Lemma ahead_app (body t r : str) :
  IsStr body t -> ahead (body ++ r) = ahead body.
Proof.
  intros [_ Hs]. specialize (Hs [] 0). rewrite List.app_nil_r in Hs.
  destruct body as [|x1 [|x2 tl]].
  - discriminate Hs.
  - destruct r as [|y r]; [reflexivity|]. simpl.
    destruct (N.eqb x1 BACKSLASH_CHAR) eqn:E; [|reflexivity].
    apply N.eqb_eq in E. subst x1. discriminate Hs.
  - simpl app. unfold ahead.
    destruct (N.eqb x1 BACKSLASH_CHAR && N.eqb x2 (ch "u")) eqn:E;
      [|reflexivity].
    apply andb_true_iff in E. destruct E as [E1 E2].
    apply N.eqb_eq in E1, E2. subst x1 x2.
    destruct tl as [|g1 [|g2 [|g3 [|g4 tl]]]]; try discriminate Hs.
    reflexivity.
Qed.

Lemma ahead_pair (s3 : str) (uni2 : N) :
  ahead s3 = APair uni2 ->
  exists g1 g2 g3 g4 s5,
    s3 = BACKSLASH_CHAR :: ch "u" :: g1 :: g2 :: g3 :: g4 :: s5 /\
    hex4 g1 g2 g3 g4 = Some uni2 /\ low_surrogate uni2 = true.
Proof.
  unfold ahead. destruct s3 as [|b0 [|u s4]]; try discriminate.
  destruct (N.eqb b0 BACKSLASH_CHAR && N.eqb u (ch "u")) eqn:E;
    [|discriminate].
  apply andb_true_iff in E. destruct E as [E1 E2].
  apply N.eqb_eq in E1, E2. subst b0 u.
  destruct s4 as [|g1 [|g2 [|g3 [|g4 s5]]]]; try discriminate.
  destruct (hex4 g1 g2 g3 g4) as [u2|] eqn:Eh; [|discriminate].
  destruct (low_surrogate u2) eqn:El; [|discriminate].
  intros [= ->]. exists g1, g2, g3, g4, s5. auto.
Qed.

(** [scanstring] reads the text of the string and nothing else. *)
Lemma scanstring_local (n : nat) :
  forall (s : str) (b : nat) (t rest : str),
    List.length s <= n ->
    scanstring s b = Ok (t, rest) ->
    exists body, s = body ++ rest /\ IsStr body t.
Proof.
  induction n as [|n IH]; intros s b t rest Hlen H.
  - destruct s; [discriminate H|simpl in Hlen; lia].
  - destruct s as [|c s1]; [discriminate H|].
    simpl in Hlen.
    destruct (N.eqb c QUOTE) eqn:Eq.
    { apply N.eqb_eq in Eq. subst c. rewrite scanstring_quote in H.
      injection H as <- <-. exists [QUOTE]. split; [reflexivity|].
      split; [exists []; reflexivity|]. intros rest' b'. reflexivity. }
    destruct (N.eqb c BACKSLASH_CHAR) eqn:Eb.
    2:{ (* an ordinary character *)
      destruct (N.ltb c 32) eqn:Ec.
      { cbn [scanstring] in H. rewrite Eq, Eb, Ec in H. discriminate H. }
      rewrite scanstring_plain in H by assumption.
      apply cons_result_Ok in H. destruct H as (t' & H & ->).
      destruct (IH s1 b t' rest) as (body & -> & HB); [lia|exact H|].
      exists (c :: body). split; [reflexivity|].
      apply (IsStr_cons [c] body c t' HB).
      intros rest' b'. apply scanstring_plain; assumption. }
    apply N.eqb_eq in Eb. subst c.
    destruct s1 as [|esc s2]; [discriminate H|].
    destruct (N.eqb esc (ch "u")) eqn:Eu.
    2:{ (* a one-letter escape *)
      destruct (backslash esc) as [c'|] eqn:Ebs.
      2:{ cbn [scanstring] in H.
          change (N.eqb BACKSLASH_CHAR QUOTE) with false in H.
          change (N.eqb BACKSLASH_CHAR BACKSLASH_CHAR) with true in H.
          cbv iota in H. rewrite Eu, Ebs in H. discriminate H. }
      rewrite (scanstring_escape esc c') in H by assumption.
      apply cons_result_Ok in H. destruct H as (t' & H & ->).
      destruct (IH s2 b t' rest) as (body & -> & HB);
        [simpl in Hlen; lia|exact H|].
      exists (BACKSLASH_CHAR :: esc :: body). split; [reflexivity|].
      apply (IsStr_cons [BACKSLASH_CHAR; esc] body c' t' HB).
      intros rest' b'. apply scanstring_escape; assumption. }
    apply N.eqb_eq in Eu. subst esc.
    destruct s2 as [|h1 [|h2 [|h3 [|h4 s3]]]]; try discriminate H.
    destruct (hex4 h1 h2 h3 h4) as [uni|] eqn:Eh.
    2:{ cbn [scanstring] in H.
        change (N.eqb BACKSLASH_CHAR QUOTE) with false in H.
        change (N.eqb BACKSLASH_CHAR BACKSLASH_CHAR) with true in H.
        change (N.eqb (ch "u") (ch "u")) with true in H.
        cbv iota in H. rewrite Eh in H. discriminate H. }
    rewrite (scanstring_u h1 h2 h3 h4 s3 b uni Eh) in H.
    simpl in Hlen.
    assert (Hsingle :
      cons_result uni (scanstring s3 b) = Ok (t, rest) ->
      (high_surrogate uni = true -> ahead s3 = ASingle) ->
      exists body,
        BACKSLASH_CHAR :: ch "u" :: h1 :: h2 :: h3 :: h4 :: s3 = body ++ rest
        /\ IsStr body t).
    { intros H1 Ha. apply cons_result_Ok in H1. destruct H1 as (t' & H1 & ->).
      destruct (IH s3 b t' rest) as (body & -> & HB); [lia|exact H1|].
      exists (BACKSLASH_CHAR :: ch "u" :: h1 :: h2 :: h3 :: h4 :: body).
      split; [reflexivity|].
      apply (IsStr_cons [BACKSLASH_CHAR; ch "u"; h1; h2; h3; h4] body uni t' HB).
      intros rest' b'. simpl app.
      rewrite (scanstring_u h1 h2 h3 h4 _ b' uni Eh).
      destruct (high_surrogate uni); [|reflexivity].
      rewrite (ahead_app body t' rest' HB).
      rewrite <- (ahead_app body t' rest HB), Ha by reflexivity.
      reflexivity. }
    destruct (high_surrogate uni) eqn:Ehi; [|apply Hsingle; [exact H|discriminate]].
    destruct (ahead s3) as [| |uni2] eqn:Ea.
    + apply Hsingle; [exact H|reflexivity].
    + discriminate H.
    + destruct (ahead_pair s3 uni2 Ea)
        as (g1 & g2 & g3 & g4 & s5 & -> & Eg & El).
      simpl skipn in H.
      apply cons_result_Ok in H. destruct H as (t' & H & ->).
      destruct (IH s5 b t' rest) as (body & -> & HB);
        [simpl in Hlen; lia|exact H|].
      exists (BACKSLASH_CHAR :: ch "u" :: h1 :: h2 :: h3 :: h4
                :: BACKSLASH_CHAR :: ch "u" :: g1 :: g2 :: g3 :: g4 :: body).
      split; [reflexivity|].
      apply (IsStr_cons [BACKSLASH_CHAR; ch "u"; h1; h2; h3; h4;
                         BACKSLASH_CHAR; ch "u"; g1; g2; g3; g4]
                        body (join_surrogates uni uni2) t' HB).
      intros rest' b'. simpl app.
      rewrite (scanstring_u h1 h2 h3 h4 _ b' uni Eh), Ehi.
      unfold ahead.
      change (N.eqb BACKSLASH_CHAR BACKSLASH_CHAR && N.eqb (ch "u") (ch "u"))
        with true.
      cbv iota. rewrite Eg, El. reflexivity.
Qed.

(** *** Strings written by the encoder *)

Lemma control_chars (c : char) :
  N.ltb c 32 = true ->
  hex4 (ch "0") (ch "0") (hexdigit (c / 16)) (hexdigit (c mod 16)) = Some c /\
  high_surrogate c = false.
Proof.
  intros Hc. apply N.ltb_lt in Hc.
  assert (Hin : In c (List.map N.of_nat (seq 0 32))).
  { apply in_map_iff. exists (N.to_nat c). split; [apply N2Nat.id|].
    apply in_seq. lia. }
  assert (Hall : forallb control_ok (List.map N.of_nat (seq 0 32)) = true)
    by (vm_compute; reflexivity).
  rewrite forallb_forall in Hall. specialize (Hall c Hin).
  unfold control_ok in Hall. apply andb_true_iff in Hall.
  destruct Hall as [H1 H2]. split.
  - destruct (hex4 _ _ _ _) as [x|]; [|discriminate].
    apply N.eqb_eq in H1. subst x. reflexivity.
  - apply negb_true_iff in H2. exact H2.
Qed.

Lemma scanstring_escape_char (c : char) (s : str) (b : nat) :
  scanstring (escape_char c ++ s) b = cons_result c (scanstring s b).
Proof.
  unfold escape_char.
  destruct (N.eqb c QUOTE) eqn:E1.
  { apply N.eqb_eq in E1. subst c. reflexivity. }
  destruct (N.eqb c BACKSLASH_CHAR) eqn:E2.
  { apply N.eqb_eq in E2. subst c. reflexivity. }
  destruct (N.eqb c 8) eqn:E3.
  { apply N.eqb_eq in E3. subst c. reflexivity. }
  destruct (N.eqb c 12) eqn:E4.
  { apply N.eqb_eq in E4. subst c. reflexivity. }
  destruct (N.eqb c 10) eqn:E5.
  { apply N.eqb_eq in E5. subst c. reflexivity. }
  destruct (N.eqb c 13) eqn:E6.
  { apply N.eqb_eq in E6. subst c. reflexivity. }
  destruct (N.eqb c 9) eqn:E7.
  { apply N.eqb_eq in E7. subst c. reflexivity. }
  destruct (N.ltb c 32) eqn:E8.
  - destruct (control_chars c E8) as [Hh Hs]. cbn [app].
    rewrite (scanstring_u _ _ _ _ s b c Hh), Hs. reflexivity.
  - cbn [app]. apply scanstring_plain; assumption.
Qed.

Lemma IsStr_escaped (t : str) :
  IsStr (List.concat (List.map escape_char t) ++ [QUOTE]) t.
Proof.
  induction t as [|c t IH]; simpl.
  - split; [exists []; reflexivity|]. intros rest b. reflexivity.
  - rewrite <- app_assoc.
    apply (IsStr_cons (escape_char c) _ c t IH).
    intros rest b. apply scanstring_escape_char.
Qed.

(* ------------------------------------------------------------------ *)
(** *** Numbers *)

Lemma follow_cases (rest : str) :
  follow rest -> rest = [] \/ exists c r, rest = c :: r /\ In c follow_chars.
Proof.
  destruct rest as [|c r]; [left; reflexivity|]. simpl. intros H. right.
  exists c, r. split; [reflexivity|].
  unfold json_ws in H. rewrite !orb_true_iff, !N.eqb_eq in H.
  unfold follow_chars. simpl.
  destruct H as [[[[H|H]|H]|H]|[H|[H|H]]]; subst; auto 10.
Qed.

(** A test that fails on the seven characters that may follow a value
    fails at the head of what follows a value. *)
Lemma follow_head (p : char -> bool) (rest : str) :
  forallb (fun c => negb (p c)) follow_chars = true ->
  follow rest -> head_is p rest = false.
Proof.
  intros Hp Hf. destruct (follow_cases rest Hf) as [->|(c & r & -> & Hin)].
  - reflexivity.
  - rewrite forallb_forall in Hp. apply Hp in Hin.
    apply negb_true_iff in Hin. exact Hin.
Qed.

Lemma span_spec (p : char -> bool) (s a b : str) :
  span p s = (a, b) ->
  s = a ++ b /\ forallb p a = true /\ head_is p b = false.
Proof.
  revert a b. induction s as [|c s IH]; simpl; intros a b H.
  - injection H as <- <-. auto.
  - destruct (p c) eqn:E.
    + destruct (span p s) as [a' b'] eqn:Es. injection H as <- <-.
      destruct (IH a' b' eq_refl) as (-> & Ha & Hb).
      simpl. rewrite E. auto.
    + injection H as <- <-. simpl. rewrite E. auto.
Qed.

Lemma span_app (p : char -> bool) (a b : str) :
  forallb p a = true -> head_is p b = false -> span p (a ++ b) = (a, b).
Proof.
  induction a as [|c a IH]; simpl; intros Ha Hb.
  - destruct b as [|x b]; [reflexivity|]. simpl in *. rewrite Hb. reflexivity.
  - apply andb_true_iff in Ha. destruct Ha as [Hc Ha].
    rewrite Hc, IH by assumption. reflexivity.
Qed.

Lemma digit_chars (c : char) (P : char -> Prop) :
  Forall P [48; 49; 50; 51; 52; 53; 54; 55; 56; 57]%N ->
  digit c = true -> P c.
Proof.
  intros HP H. unfold digit in H. apply andb_true_iff in H.
  destruct H as [H1 H2]. apply N.leb_le in H1, H2.
  rewrite Forall_forall in HP. apply HP.
  replace c with (N.of_nat (N.to_nat c)) by apply N2Nat.id.
  change [48; 49; 50; 51; 52; 53; 54; 55; 56; 57]%N
    with (List.map N.of_nat (seq 48 10)).
  apply in_map, in_seq. lia.
Qed.

Lemma digit_not_space (c : char) : digit c = true -> isspace c = false.
Proof.
  apply (digit_chars c (fun c => isspace c = false)). repeat constructor.
Qed.

(** A non-empty run of digits ends with a character that is no white
    space. *)
Lemma digits_last (ds : str) :
  forallb digit ds = true -> ds <> [] ->
  exists p c, ds = p ++ [c] /\ isspace c = false.
Proof.
  intros Hd Hne. destruct (exists_last Hne) as (p & c & ->).
  exists p, c. split; [reflexivity|].
  rewrite forallb_app in Hd. apply andb_true_iff in Hd.
  destruct Hd as [_ Hc]. simpl in Hc. rewrite andb_true_r in Hc.
  apply digit_not_space. exact Hc.
Qed.

Lemma last_app_right (a b : str) :
  (exists p c, b = p ++ [c] /\ isspace c = false) ->
  exists p c, a ++ b = p ++ [c] /\ isspace c = false.
Proof.
  intros (p & c & -> & Hc). exists (a ++ p), c.
  rewrite app_assoc. auto.
Qed.

(** The integer part. *)
Lemma lex_integer_local (s i s1 : str) :
  lex_integer s = Some (i, s1) ->
  s = i ++ s1 /\
  (exists p c, i = p ++ [c] /\ isspace c = false) /\
  (exists c t, i = c :: t /\ (c = ch "-" \/ digit c = true)) /\
  forall s1', head_is digit s1' = false ->
              lex_integer (i ++ s1') = Some (i, s1').
Proof.
  unfold lex_integer. intros H.
  assert (Hbody : forall (sign s0 : str),
    (sign = [] \/ sign = [ch "-"]) ->
    match s0 with
    | c :: s2 =>
        if N.eqb c (ch "0") then Some (sign ++ [c], s2)
        else if digit c
             then let (ds, rest) := span digit s2 in Some (sign ++ c :: ds, rest)
             else None
    | [] => None
    end = Some (i, s1) ->
    sign ++ s0 = i ++ s1 /\
    (exists p c, i = p ++ [c] /\ isspace c = false) /\
    exists d ds, i = sign ++ d :: ds /\ digit d = true /\
      forall s1', head_is digit s1' = false ->
        match d :: ds ++ s1' with
        | c :: s2 =>
            if N.eqb c (ch "0") then Some (sign ++ [c], s2)
            else if digit c
                 then let (ds, rest) := span digit s2 in
                      Some (sign ++ c :: ds, rest)
                 else None
        | [] => None
        end = Some (i, s1')).
  { intros sign s0 Hsign H0. destruct s0 as [|c s2]; [discriminate|].
    destruct (N.eqb c (ch "0")) eqn:E0.
    - injection H0 as <- <-. apply N.eqb_eq in E0. subst c.
      split; [rewrite <- app_assoc; reflexivity|]. split.
      + exists sign, (ch "0"). split; reflexivity.
      + exists (ch "0"), []. repeat split.
    - destruct (digit c) eqn:Ed; [|discriminate].
      destruct (span digit s2) as [ds rest] eqn:Es. injection H0 as <- <-.
      destruct (span_spec digit s2 ds rest Es) as (-> & Hds & Hrest).
      split; [rewrite <- app_assoc; reflexivity|]. split.
      + apply last_app_right.
        apply (digits_last (c :: ds)); [simpl; rewrite Ed; exact Hds|discriminate].
      + exists c, ds. repeat split; [exact Ed|].
        intros s1' Hs1'. rewrite E0, Ed, span_app by assumption. reflexivity. }
  destruct s as [|c s'].
  - discriminate H.
  - destruct (N.eqb c (ch "-")) eqn:Em.
    + apply N.eqb_eq in Em. subst c.
      destruct (Hbody [ch "-"] s' (or_intror eq_refl) H)
        as (Hs & Hl & d & ds & Hi & Hd & Hrun).
      split; [exact Hs|]. split; [exact Hl|]. split.
      * exists (ch "-"), (d :: ds). split; [rewrite Hi; reflexivity|auto].
      * intros s1' Hs1'. subst i. exact (Hrun s1' Hs1').
    + destruct (Hbody [] (c :: s') (or_introl eq_refl) H)
        as (Hs & Hl & d & ds & Hi & Hd & Hrun).
      simpl in Hs, Hi.
      assert (d = c) by (rewrite Hi in Hs; injection Hs; auto). subst d.
      split; [exact Hs|]. split; [exact Hl|]. split.
      * exists c, ds. split; [exact Hi|auto].
      * intros s1' Hs1'. specialize (Hrun s1' Hs1'). subst i.
        cbn [app]. rewrite Em. exact Hrun.
Qed.

Lemma lex_frac_none (s : str) : head_is is_dot s = false -> lex_frac s = ([], s).
Proof.
  destruct s as [|c s1]; [reflexivity|]. unfold lex_frac, head_is, is_dot.
  intros ->. reflexivity.
Qed.

Lemma lex_frac_local (s f s2 : str) :
  lex_frac s = (f, s2) ->
  s = f ++ s2 /\
  (f = [] \/
   ((exists p c, f = p ++ [c] /\ isspace c = false) /\
    head_is is_dot f = true /\ head_is digit f = false /\
    forall s2', head_is digit s2' = false -> lex_frac (f ++ s2') = (f, s2'))).
Proof.
  destruct s as [|c s1]; unfold lex_frac.
  { intros [= <- <-]. auto. }
  destruct (N.eqb c (ch ".")) eqn:Ec.
  2:{ intros [= <- <-]. auto. }
  destruct (span digit s1) as [ds rest] eqn:Es.
  destruct (span_spec digit s1 ds rest Es) as (-> & Hds & Hrest).
  destruct ds as [|d ds].
  { intros [= <- <-]. auto. }
  intros [= <- <-]. split; [reflexivity|]. right.
  apply N.eqb_eq in Ec. subst c. split; [|split; [|split]].
  - apply (last_app_right [ch "."]). apply digits_last; [exact Hds|discriminate].
  - reflexivity.
  - reflexivity.
  - intros s2' Hs2'. cbn [app]. unfold lex_frac.
    change (N.eqb (ch ".") (ch ".")) with true. cbv iota.
    change (d :: ds ++ s2') with ((d :: ds) ++ s2').
    rewrite span_app by assumption. reflexivity.
Qed.

Lemma lex_exp_none (s : str) : head_is is_e s = false -> lex_exp s = ([], s).
Proof.
  destruct s as [|c s1]; [reflexivity|]. unfold lex_exp, head_is, is_e.
  intros ->. reflexivity.
Qed.

Lemma lex_exp_local (s e s3 : str) :
  lex_exp s = (e, s3) ->
  s = e ++ s3 /\
  (e = [] \/
   ((exists p c, e = p ++ [c] /\ isspace c = false) /\
    head_is is_e e = true /\ head_is digit e = false /\
    head_is is_dot e = false /\
    forall s3', head_is digit s3' = false -> lex_exp (e ++ s3') = (e, s3'))).
Proof.
  destruct s as [|c s1]; unfold lex_exp.
  { intros [= <- <-]. auto. }
  destruct (N.eqb c (ch "e") || N.eqb c (ch "E")) eqn:Ec.
  2:{ intros [= <- <-]. auto. }
  assert (Hc : head_is digit [c] = false /\ head_is is_dot [c] = false).
  { apply orb_true_iff in Ec. rewrite !N.eqb_eq in Ec.
    destruct Ec as [->| ->]; split; reflexivity. }
  destruct Hc as [Hcd Hcdot].
  destruct s1 as [|x s'].
  - simpl. intros [= <- <-]. auto.
  - destruct (N.eqb x (ch "-") || N.eqb x (ch "+")) eqn:Ex.
    + destruct (span digit s') as [ds rest] eqn:Es.
      destruct (span_spec digit s' ds rest Es) as (-> & Hds & Hrest).
      destruct ds as [|d ds].
      { intros [= <- <-]. auto. }
      intros [= <- <-]. split; [reflexivity|]. right.
      split; [|split; [|split; [|split]]].
      * apply (last_app_right [c; x]).
        apply digits_last; [exact Hds|discriminate].
      * simpl. unfold is_e. exact Ec.
      * exact Hcd.
      * exact Hcdot.
      * intros s3' Hs3'. cbn [app]. unfold lex_exp. rewrite Ec, Ex.
        change (d :: ds ++ s3') with ((d :: ds) ++ s3').
        rewrite span_app by assumption. reflexivity.
    + destruct (span digit (x :: s')) as [ds rest] eqn:Es.
      destruct (span_spec digit (x :: s') ds rest Es) as (Hx & Hds & Hrest).
      destruct ds as [|d ds].
      { intros [= <- <-]. auto. }
      intros [= <- <-]. rewrite Hx. split; [reflexivity|]. right.
      simpl in Hx. injection Hx as -> ->.
      split; [|split; [|split; [|split]]].
      * apply (last_app_right [c]).
        apply digits_last; [exact Hds|discriminate].
      * simpl. unfold is_e. exact Ec.
      * exact Hcd.
      * exact Hcdot.
      * intros s3' Hs3'. cbn [app]. unfold lex_exp. rewrite Ec, Ex.
        change (d :: ds ++ s3') with ((d :: ds) ++ s3').
        rewrite span_app by assumption. reflexivity.
Qed.

Lemma head_is_app (p : char -> bool) (a b : str) :
  a <> [] -> head_is p (a ++ b) = head_is p a.
Proof. destruct a; [congruence|reflexivity]. Qed.

Lemma last_nonempty (a : str) :
  (exists p c, a = p ++ [c] /\ isspace c = false) -> a <> [].
Proof. intros (p & c & -> & _). destruct p; discriminate. Qed.

Lemma startswith_split (s p : str) :
  startswith s p = true -> s = p ++ skipn (List.length p) s.
Proof.
  revert s. induction p as [|a p IH]; intros s H; [reflexivity|].
  destruct s as [|b s]; [discriminate H|]. simpl in H.
  apply andb_true_iff in H. destruct H as [Hab Hp].
  apply N.eqb_eq in Hab. subst b. simpl. f_equal. apply IH. exact Hp.
Qed.

Lemma number_start_cases (c : char) (P : char -> Prop) :
  Forall P number_start_chars -> number_start c = true -> P c.
Proof.
  intros HP H. unfold number_start in H. apply existsb_exists in H.
  destruct H as (x & Hin & Heq). apply N.eqb_eq in Heq. subst x.
  rewrite Forall_forall in HP. auto.
Qed.

Lemma digit_number_start (c : char) : digit c = true -> number_start c = true.
Proof.
  apply (digit_chars c (fun c => number_start c = true)). repeat constructor.
Qed.

(** The three tests on what follows a number. *)
Lemma follow_digit rest : follow rest -> head_is digit rest = false.
Proof. apply follow_head. reflexivity. Qed.
Lemma follow_dot rest : follow rest -> head_is is_dot rest = false.
Proof. apply follow_head. reflexivity. Qed.
Lemma follow_e rest : follow rest -> head_is is_e rest = false.
Proof. apply follow_head. reflexivity. Qed.

Lemma number_local (s : str) (v : json) (rest : str) :
  number_or_constant s = Ok (v, rest) ->
  exists pre,
    s = pre ++ rest /\
    (exists p c, pre = p ++ [c] /\ isspace c = false) /\
    (exists c t, pre = c :: t /\ number_start c = true) /\
    (forall literal, v = JFloat literal -> pre = literal) /\
    ((exists z, v = JInt z) \/ (exists literal, v = JFloat literal)) /\
    forall rest', follow rest' ->
                  number_or_constant (pre ++ rest') = Ok (v, rest').
Proof.
  unfold number_or_constant.
  destruct (lex_integer s) as [[i s1]|] eqn:Ei.
  - destruct (lex_frac s1) as [f s2] eqn:Ef.
    destruct (lex_exp s2) as [e s3] eqn:Ee.
    destruct (lex_integer_local s i s1 Ei) as (Hs & Hil & Hif & Hirun).
    destruct (lex_frac_local s1 f s2 Ef) as (Hs1 & Hf).
    destruct (lex_exp_local s2 e s3 Ee) as (Hs2 & He).
    intros Hv.
    assert (Hrest : rest = s3) by (destruct f, e; congruence).
    subst rest. subst s s1 s2.
    exists (i ++ f ++ e). split; [rewrite <- !app_assoc; reflexivity|].
    assert (Hstart : exists c t, i ++ f ++ e = c :: t /\ number_start c = true).
    { destruct Hif as (c & t & -> & Hc). exists c, (t ++ f ++ e).
      split; [reflexivity|]. destruct Hc as [->|Hc]; [reflexivity|].
      apply digit_number_start. exact Hc. }
    assert (Hrun : forall rest', follow rest' ->
              lex_integer ((i ++ f ++ e) ++ rest') = Some (i, f ++ e ++ rest')
              /\ lex_frac (f ++ e ++ rest') = (f, e ++ rest')
              /\ lex_exp (e ++ rest') = (e, rest')).
    { intros rest' Hfo.
      pose proof (follow_digit rest' Hfo) as Hd.
      pose proof (follow_dot rest' Hfo) as Hdot.
      pose proof (follow_e rest' Hfo) as Hee.
      rewrite <- !app_assoc.
      destruct Hf as [->|(Hfl & Hfdot & Hfd & Hfrun)];
        destruct He as [->|(Hel & Hee1 & Hed & Hedot & Herun)]; simpl app.
      - rewrite Hirun, lex_frac_none, lex_exp_none by assumption. auto.
      - pose proof (last_nonempty e Hel) as Hne.
        rewrite Hirun by (rewrite head_is_app; assumption).
        rewrite lex_frac_none by (rewrite head_is_app; assumption).
        rewrite Herun by assumption. auto.
      - pose proof (last_nonempty f Hfl) as Hne.
        rewrite Hirun by (rewrite head_is_app; assumption).
        rewrite Hfrun, lex_exp_none by assumption. auto.
      - pose proof (last_nonempty f Hfl) as Hnf.
        pose proof (last_nonempty e Hel) as Hne.
        rewrite Hirun by (rewrite head_is_app; assumption).
        rewrite Hfrun by (rewrite head_is_app; assumption).
        rewrite Herun by assumption. auto. }
    assert (Hlast : exists p c, i ++ f ++ e = p ++ [c] /\ isspace c = false).
    { destruct He as [->|(Hel & _)].
      - rewrite List.app_nil_r. destruct Hf as [->|(Hfl & _)].
        + rewrite List.app_nil_r. exact Hil.
        + apply last_app_right. exact Hfl.
      - rewrite app_assoc. apply last_app_right. exact Hel. }
    split; [exact Hlast|]. split; [exact Hstart|].
    split; [|split].
    + intros literal ->. destruct f, e; congruence.
    + destruct f, e; injection Hv as <-; eauto.
    + intros rest' Hfo. destruct (Hrun rest' Hfo) as (R1 & R2 & R3).
      rewrite R1, R2, R3. destruct f, e; injection Hv as <-; reflexivity.
  - assert (Hconst : forall (name : str),
      (forall rest', lex_integer (name ++ rest') = None) ->
      (exists p c, name = p ++ [c] /\ isspace c = false) ->
      (exists c t, name = c :: t /\ number_start c = true) ->
      startswith s name = true ->
      v = JFloat name -> rest = skipn (List.length name) s ->
      (forall rest', number_or_constant (name ++ rest') = Ok (v, rest')) ->
      exists pre,
        s = pre ++ rest /\
        (exists p c, pre = p ++ [c] /\ isspace c = false) /\
        (exists c t, pre = c :: t /\ number_start c = true) /\
        (forall literal, v = JFloat literal -> pre = literal) /\
        ((exists z, v = JInt z) \/ (exists literal, v = JFloat literal)) /\
        forall rest', follow rest' ->
                      number_or_constant (pre ++ rest') = Ok (v, rest')).
    { intros name Hlex Hl Hst Hsw Hv Hr Hrun. exists name. subst rest v.
      split; [apply startswith_split; exact Hsw|].
      repeat split; try assumption.
      - intros literal [= ->]. reflexivity.
      - right. eauto.
      - intros rest' _. apply Hrun. }
    destruct (startswith s (py "NaN")) eqn:E1.
    { intros [= <- <-]. apply (Hconst (py "NaN")); try (intros; reflexivity).
      - exists (py "Na"), (ch "N"). split; reflexivity.
      - exists (ch "N"), (py "aN"). split; reflexivity.
      - exact E1. }
    destruct (startswith s (py "Infinity")) eqn:E2.
    { intros [= <- <-]. apply (Hconst (py "Infinity")); try (intros; reflexivity).
      - exists (py "Infinit"), (ch "y"). split; reflexivity.
      - exists (ch "I"), (py "nfinity"). split; reflexivity.
      - exact E2. }
    destruct (startswith s (py "-Infinity")) eqn:E3.
    { intros [= <- <-]. apply (Hconst (py "-Infinity")); try (intros; reflexivity).
      - exists (py "-Infinit"), (ch "y"). split; reflexivity.
      - exists (ch "-"), (py "Infinity"). split; reflexivity.
      - exact E3. }
    discriminate.
Qed.

(** *** Integers written by the encoder *)

Lemma uint_of_digits_of_uint (d : Decimal.uint) :
  uint_of_digits (digits_of_uint d) = d.
Proof. induction d; simpl; rewrite ?IHd; reflexivity. Qed.

Lemma digits_of_uint_digit (d : Decimal.uint) :
  forallb digit (digits_of_uint d) = true.
Proof. induction d; simpl; auto. Qed.

Lemma to_uint_normal (p : positive) :
  Decimal.unorm (Pos.to_uint p) = Pos.to_uint p.
Proof.
  rewrite <- (DecimalN.Unsigned.to_of (Pos.to_uint p)).
  change (N.of_uint (Pos.to_uint p)) with (Pos.of_uint (Pos.to_uint p)).
  rewrite DecimalPos.Unsigned.of_to. reflexivity.
Qed.

(** The digits of a positive number: a first digit that is not 0, then
    digits. *)
Lemma to_uint_digits (p : positive) :
  exists c t, digits_of_uint (Pos.to_uint p) = c :: t /\
              digit c = true /\ N.eqb c (ch "0") = false /\
              N.eqb c (ch "-") = false /\ forallb digit t = true.
Proof.
  pose proof (to_uint_normal p) as Hn.
  pose proof (digits_of_uint_digit (Pos.to_uint p)) as Hd.
  assert (Hnz : Decimal.nzhead (Pos.to_uint p) <> Decimal.Nil).
  { intros H. apply DecimalFacts.unorm_0 in H. rewrite Hn in H.
    pose proof (DecimalPos.Unsigned.of_to p) as Hp. rewrite H in Hp.
    discriminate Hp. }
  rewrite DecimalFacts.unorm_nzhead in Hn by exact Hnz.
  pose proof (DecimalFacts.nzhead_nonzero (Pos.to_uint p)) as H0.
  rewrite Hn in H0, Hnz.
  destruct (Pos.to_uint p) as [|d|d|d|d|d|d|d|d|d|d];
    try congruence;
    try (exfalso; apply (H0 d); reflexivity);
    simpl in Hd |- *; eexists _, _; repeat split; exact Hd.
Qed.

Lemma lex_integer_digits (sign : str) (c : char) (t rest : str) :
  sign = [] \/ sign = [ch "-"] ->
  digit c = true -> N.eqb c (ch "0") = false -> N.eqb c (ch "-") = false ->
  forallb digit t = true -> head_is digit rest = false ->
  lex_integer (sign ++ c :: t ++ rest) = Some (sign ++ c :: t, rest).
Proof.
  intros Hs Hc H0 Hm Ht Hr. unfold lex_integer.
  destruct Hs as [-> | ->]; cbn [app].
  - rewrite Hm, H0, Hc, span_app by assumption. reflexivity.
  - change (N.eqb (ch "-") (ch "-")) with true. cbv iota.
    rewrite H0, Hc, span_app by assumption. reflexivity.
Qed.

Lemma number_int (z : Z) (rest : str) :
  follow rest ->
  number_or_constant (int_repr z ++ rest) = Ok (JInt z, rest).
Proof.
  intros Hf.
  pose proof (follow_digit rest Hf) as Hd.
  pose proof (follow_dot rest Hf) as Hdot.
  pose proof (follow_e rest Hf) as He.
  unfold number_or_constant, int_repr.
  pose proof (DecimalZ.of_to z) as Hz.
  destruct z as [|p|p]; cbn [Z.to_int] in *.
  - assert (H0 : lex_integer (digits_of_uint (Decimal.D0 Decimal.Nil) ++ rest)
                 = Some ([ch "0"], rest)) by reflexivity.
    rewrite H0, lex_frac_none, lex_exp_none by assumption. reflexivity.
  - destruct (to_uint_digits p) as (c & t & Hp & Hc & H0 & Hm & Ht).
    rewrite Hp.
    pose proof (lex_integer_digits [] c t rest (or_introl eq_refl)
                  Hc H0 Hm Ht Hd) as Hlex.
    cbn [app] in Hlex |- *.
    rewrite Hlex, lex_frac_none, lex_exp_none by assumption.
    unfold parse_int. rewrite Hm, <- Hp, uint_of_digits_of_uint, Hz.
    reflexivity.
  - destruct (to_uint_digits p) as (c & t & Hp & Hc & H0 & Hm & Ht).
    rewrite Hp.
    pose proof (lex_integer_digits [ch "-"] c t rest (or_intror eq_refl)
                  Hc H0 Hm Ht Hd) as Hlex.
    cbn [app] in Hlex |- *.
    rewrite Hlex, lex_frac_none, lex_exp_none by assumption.
    unfold parse_int.
    change (N.eqb (ch "-") (ch "-")) with true. cbv iota.
    rewrite <- Hp, uint_of_digits_of_uint, Hz. reflexivity.
Qed.

Lemma int_repr_last (z : Z) :
  exists p c, int_repr z = p ++ [c] /\ isspace c = false.
Proof.
  unfold int_repr. destruct z as [|p|p]; cbn [Z.to_int].
  - exists [], (ch "0"). split; reflexivity.
  - apply digits_last; [apply digits_of_uint_digit|].
    destruct (to_uint_digits p) as (c & t & -> & _). discriminate.
  - apply (last_app_right [ch "-"]).
    apply digits_last; [apply digits_of_uint_digit|].
    destruct (to_uint_digits p) as (c & t & -> & _). discriminate.
Qed.

Lemma int_repr_start (z : Z) :
  exists c t, int_repr z = c :: t /\ number_start c = true.
Proof.
  unfold int_repr. destruct z as [|p|p]; cbn [Z.to_int].
  - exists (ch "0"), []. split; reflexivity.
  - destruct (to_uint_digits p) as (c & t & -> & Hc & _).
    exists c, t. split; [reflexivity|apply digit_number_start; exact Hc].
  - eexists _, _. split; reflexivity.
Qed.

(* ------------------------------------------------------------------ *)
(** *** Scalars *)

Lemma scan_once_number (c : char) :
  number_start c = true ->
  forall f s, scan_once (S f) (c :: s) = number_or_constant (c :: s).
Proof.
  apply (number_start_cases c
           (fun c => forall f s,
                     scan_once (S f) (c :: s) = number_or_constant (c :: s))).
  repeat constructor; intros; reflexivity.
Qed.

Lemma scan_once_string (f : nat) (s1 : str) :
  scan_once (S f) (QUOTE :: s1) =
  bind (scanstring s1 (S (List.length s1))) (fun p => Ok (JStr (fst p), snd p)).
Proof. reflexivity. Qed.

Lemma Scalar_str (body t : str) :
  IsStr body t -> Scalar (QUOTE :: body) (JStr t).
Proof.
  intros [(b0 & Hb0) Hs]. split; try discriminate.
  - intros f rest _. cbn [app]. rewrite scan_once_string, Hs. reflexivity.
  - exists (QUOTE :: b0), QUOTE. rewrite Hb0. split; reflexivity.
Qed.

Lemma Scalar_null : Scalar (py "null") JNull.
Proof.
  split; try discriminate.
  - intros f rest _. reflexivity.
  - exists (py "nul"), (ch "l"). split; reflexivity.
Qed.

Lemma Scalar_true : Scalar (py "true") (JBool true).
Proof.
  split; try discriminate.
  - intros f rest _. reflexivity.
  - exists (py "tru"), (ch "e"). split; reflexivity.
Qed.

Lemma Scalar_false : Scalar (py "false") (JBool false).
Proof.
  split; try discriminate.
  - intros f rest _. reflexivity.
  - exists (py "fals"), (ch "e"). split; reflexivity.
Qed.

Lemma Scalar_int (z : Z) : Scalar (int_repr z) (JInt z).
Proof.
  split; try discriminate.
  - intros f rest Hf. destruct (int_repr_start z) as (c & t & Hz & Hc).
    rewrite Hz. cbn [app]. rewrite scan_once_number by exact Hc.
    change (c :: t ++ rest) with ((c :: t) ++ rest). rewrite <- Hz.
    apply number_int. exact Hf.
  - apply int_repr_last.
Qed.

Lemma Scalar_number (s : str) (v : json) (rest : str) :
  number_or_constant s = Ok (v, rest) ->
  exists pre, s = pre ++ rest /\ Scalar pre v.
Proof.
  intros H. destruct (number_local s v rest H)
    as (pre & Hs & Hlast & (c & t & Hpre & Hc) & Hfl & Hkind & Hrun).
  exists pre. split; [exact Hs|]. split.
  - intros items ->. destruct Hkind as [(z & Hz)|(l & Hl)]; discriminate.
  - intros members ->. destruct Hkind as [(z & Hz)|(l & Hl)]; discriminate.
  - intros f rest' Hf. rewrite Hpre. cbn [app].
    rewrite scan_once_number by exact Hc.
    change (c :: t ++ rest') with ((c :: t) ++ rest'). rewrite <- Hpre.
    apply Hrun. exact Hf.
  - exact Hlast.
  - exact Hfl.
Qed.

(** The first character of a text that [scan_once] accepts. *)
Lemma number_start_value_start (c : char) :
  number_start c = true -> value_start c = true.
Proof.
  apply (number_start_cases c (fun c => value_start c = true)).
  repeat constructor.
Qed.

Lemma startswith_head (c a : char) (s p : str) :
  startswith (c :: s) (a :: p) = true -> c = a.
Proof.
  simpl. intros H. apply andb_true_iff in H. destruct H as [H _].
  apply N.eqb_eq in H. congruence.
Qed.

Lemma scan_once_start (f : nat) (c : char) (s : str) (v : json) (rest : str) :
  scan_once (S f) (c :: s) = Ok (v, rest) -> value_start c = true.
Proof.
  cbn [scan_once].
  destruct (N.eqb c QUOTE) eqn:E1.
  { apply N.eqb_eq in E1. subst. reflexivity. }
  destruct (N.eqb c (ch "{")) eqn:E2.
  { apply N.eqb_eq in E2. subst. reflexivity. }
  destruct (N.eqb c (ch "[")) eqn:E3.
  { apply N.eqb_eq in E3. subst. reflexivity. }
  destruct (startswith (c :: s) (py "null")) eqn:E4.
  { apply startswith_head in E4. subst. reflexivity. }
  destruct (startswith (c :: s) (py "true")) eqn:E5.
  { apply startswith_head in E5. subst. reflexivity. }
  destruct (startswith (c :: s) (py "false")) eqn:E6.
  { apply startswith_head in E6. subst. reflexivity. }
  intros H. destruct (number_local _ _ _ H)
    as (pre & Hs & _ & (c' & t & Hpre & Hc) & _).
  rewrite Hpre in Hs. injection Hs as -> _.
  apply number_start_value_start. exact Hc.
Qed.

Lemma Scalar_start (pre : str) (v : json) :
  Scalar pre v -> exists c t, pre = c :: t /\ value_start c = true.
Proof.
  intros Hsc. pose proof (sc_scan _ _ Hsc 0 [] I) as H.
  rewrite List.app_nil_r in H. destruct pre as [|c t]; [discriminate H|].
  exists c, t. split; [reflexivity|]. eapply scan_once_start. exact H.
Qed.

Lemma Value_start (pre : str) (v : json) :
  Value pre v -> exists c t, pre = c :: t /\ value_start c = true.
Proof.
  intros H. destruct H; try (eexists _, _; split; reflexivity).
  apply Scalar_start with v. assumption.
Qed.

Lemma Elems_start (body : str) (vs : list json) :
  Elems body vs -> exists c t, body = c :: t /\ value_start c = true.
Proof.
  intros H; destruct H as [pre v w Hv _|pre v w1 w2 body vs Hv _ _ _];
    destruct (Value_start pre v Hv) as (c & t & -> & Hc);
    eexists _, _; split; try reflexivity; exact Hc.
Qed.

Ltac list_eq :=
  repeat (progress (rewrite <- ?app_assoc; cbn [app])); reflexivity.

Lemma last_of (a b : str) (c : char) :
  a = b ++ [c] -> isspace c = false ->
  exists p c, a = p ++ [c] /\ isspace c = false.
Proof. intros -> H. eauto. Qed.

Lemma last_in (a a1 a2 : str) :
  a = a1 ++ a2 ->
  (exists p c, a2 = p ++ [c] /\ isspace c = false) ->
  exists p c, a = p ++ [c] /\ isspace c = false.
Proof. intros -> H. apply last_app_right. exact H. Qed.

Lemma Elems_last (body : str) (vs : list json) :
  Elems body vs -> exists p c, body = p ++ [c] /\ isspace c = false.
Proof.
  induction 1 as [pre v w _ _|pre v w1 w2 body vs _ _ _ _ IH].
  - apply (last_of _ (pre ++ w) (ch "]")); [list_eq|reflexivity].
  - apply (last_in _ (pre ++ w1 ++ ch "," :: w2) body); [list_eq|exact IH].
Qed.

Lemma Members_last (body : str) (ps : list (str * json)) :
  Members body ps -> exists p c, body = p ++ [c] /\ isspace c = false.
Proof.
  induction 1 as [kbody k w1 w2 pre v w3 _ _ _ _ _
                 |kbody k w1 w2 pre v w3 w4 body ps _ _ _ _ _ _ _ IH].
  - apply (last_of _ (kbody ++ w1 ++ ch ":" :: w2 ++ pre ++ w3) (ch "}"));
      [list_eq|reflexivity].
  - apply (last_in _ (kbody ++ w1 ++ ch ":" :: w2 ++ pre ++ w3 ++ ch "," :: w4
                            ++ [QUOTE]) body); [list_eq|exact IH].
Qed.

Lemma Value_last (pre : str) (v : json) :
  Value pre v -> exists p c, pre = p ++ [c] /\ isspace c = false.
Proof.
  intros H. destruct H as [pre v Hsc|w _|w body vs _ He|w _|w body ps _ Hm].
  - apply (sc_last _ _ Hsc).
  - apply (last_of _ (ch "[" :: w) (ch "]")); reflexivity.
  - apply (last_in _ (ch "[" :: w) body); [reflexivity|].
    eapply Elems_last. exact He.
  - apply (last_of _ (ch "{" :: w) (ch "}")); reflexivity.
  - apply (last_in _ (ch "{" :: w ++ [QUOTE]) body); [list_eq|].
    eapply Members_last. exact Hm.
Qed.

(* ------------------------------------------------------------------ *)
(** *** What the decoder accepts is a text of the value *)

Lemma bind_Ok (A B : Type) (r : result A) (f : A -> result B) (b : B) :
  bind r f = Ok b -> exists a, r = Ok a /\ f a = Ok b.
Proof. destruct r as [a|e]; simpl; [eauto|discriminate]. Qed.

Lemma sound_value_step (f : nat) :
  sound_elems f -> sound_members f -> sound_value (S f).
Proof.
  intros He Hm s v rest H. destruct s as [|c s1]; [discriminate H|].
  destruct (N.eqb c QUOTE) eqn:E1.
  { apply N.eqb_eq in E1. subst c. rewrite scan_once_string in H.
    apply bind_Ok in H. destruct H as ([t r] & Hs & [= <- <-]).
    destruct (scanstring_local _ s1 _ t r (le_n _) Hs) as (body & -> & HB).
    exists (QUOTE :: body). split; [reflexivity|].
    apply V_scalar, Scalar_str. exact HB. }
  destruct (N.eqb c (ch "{")) eqn:E2.
  { apply N.eqb_eq in E2. subst c. cbn [scan_once] in H.
    change (N.eqb (ch "{") QUOTE) with false in H.
    change (N.eqb (ch "{") (ch "{")) with true in H. cbv iota in H.
    destruct (skip_ws_split s1) as (w & Hs1 & Hw).
    destruct (skip_ws s1) as [|c2 s2]; [discriminate H|].
    destruct (N.eqb c2 (ch "}")) eqn:E3.
    - injection H as <- <-. apply N.eqb_eq in E3. subst c2.
      exists (ch "{" :: w ++ [ch "}"]). split.
      + rewrite Hs1. list_eq.
      + apply V_obj_empty. exact Hw.
    - destruct (N.eqb c2 QUOTE) eqn:E4; [|discriminate H].
      apply N.eqb_eq in E4. subst c2.
      apply bind_Ok in H. destruct H as ([ps r] & Hl & [= <- <-]).
      destruct (Hm s2 ps r Hl) as (body & -> & HM).
      exists (ch "{" :: w ++ QUOTE :: body). split.
      + rewrite Hs1. list_eq.
      + apply V_obj; assumption. }
  destruct (N.eqb c (ch "[")) eqn:E3.
  { apply N.eqb_eq in E3. subst c. cbn [scan_once] in H.
    change (N.eqb (ch "[") QUOTE) with false in H.
    change (N.eqb (ch "[") (ch "{")) with false in H.
    change (N.eqb (ch "[") (ch "[")) with true in H. cbv iota in H.
    destruct (skip_ws_split s1) as (w & Hs1 & Hw).
    assert (Hloop : forall vs r,
              array_loop f (skip_ws s1) = Ok (vs, r) ->
              v = JArr vs -> rest = r ->
              exists pre, ch "[" :: s1 = pre ++ rest /\ Value pre v).
    { intros vs r Hl -> ->. destruct (He _ vs r Hl) as (body & Hb & HE).
      exists (ch "[" :: w ++ body). split.
      - rewrite Hs1, Hb. list_eq.
      - apply V_arr; assumption. }
    destruct (skip_ws s1) as [|c2 s2] eqn:Esk.
    - apply bind_Ok in H. destruct H as ([vs r] & Hl & [= <- <-]).
      eapply Hloop; [exact Hl|reflexivity|reflexivity].
    - destruct (N.eqb c2 (ch "]")) eqn:E4.
      + injection H as <- <-. apply N.eqb_eq in E4. subst c2.
        exists (ch "[" :: w ++ [ch "]"]). split.
        * rewrite Hs1. list_eq.
        * apply V_arr_empty. exact Hw.
      + apply bind_Ok in H. destruct H as ([vs r] & Hl & [= <- <-]).
        eapply Hloop; [exact Hl|reflexivity|reflexivity]. }
  cbn [scan_once] in H. rewrite E1, E2, E3 in H.
  destruct (startswith (c :: s1) (py "null")) eqn:E4.
  { injection H as <- <-. exists (py "null"). split.
    - exact (startswith_split (c :: s1) (py "null") E4).
    - apply V_scalar, Scalar_null. }
  destruct (startswith (c :: s1) (py "true")) eqn:E5.
  { injection H as <- <-. exists (py "true"). split.
    - exact (startswith_split (c :: s1) (py "true") E5).
    - apply V_scalar, Scalar_true. }
  destruct (startswith (c :: s1) (py "false")) eqn:E6.
  { injection H as <- <-. exists (py "false"). split.
    - exact (startswith_split (c :: s1) (py "false") E6).
    - apply V_scalar, Scalar_false. }
  destruct (Scalar_number _ _ _ H) as (pre & Hs & Hsc).
  exists pre. split; [exact Hs|]. apply V_scalar. exact Hsc.
Qed.

Lemma sound_elems_step (f : nat) :
  sound_value f -> sound_elems f -> sound_elems (S f).
Proof.
  intros Hv He s vs rest H. cbn [array_loop] in H.
  apply bind_Ok in H. destruct H as ([value s1] & Hs & H).
  destruct (Hv s value s1 Hs) as (pre & -> & HV).
  destruct (skip_ws_split s1) as (w & Hs1 & Hw).
  destruct (skip_ws s1) as [|c s2]; [discriminate H|].
  destruct (N.eqb c (ch "]")) eqn:E1.
  - injection H as <- <-. apply N.eqb_eq in E1. subst c.
    exists (pre ++ w ++ [ch "]"]). split.
    + rewrite Hs1. list_eq.
    + apply E_one; assumption.
  - destruct (N.eqb c (ch ",")) eqn:E2; [|discriminate H].
    apply N.eqb_eq in E2. subst c.
    apply bind_Ok in H. destruct H as ([vs' r] & Hl & [= <- <-]).
    destruct (skip_ws_split s2) as (w2 & Hs2 & Hw2).
    destruct (He _ vs' r Hl) as (body & Hb & HE).
    exists (pre ++ w ++ ch "," :: w2 ++ body). split.
    + rewrite Hs1, Hs2, Hb. list_eq.
    + apply E_cons; assumption.
Qed.

Lemma sound_members_step (f : nat) :
  sound_value f -> sound_members f -> sound_members (S f).
Proof.
  intros Hv Hm s ps rest H. cbn [object_loop] in H.
  apply bind_Ok in H. destruct H as ([key s1] & Hk & H).
  destruct (scanstring_local _ s _ key s1 (le_n _) Hk) as (kbody & -> & HK).
  destruct (skip_ws_split s1) as (w1 & Hs1 & Hw1).
  destruct (skip_ws s1) as [|c s2]; [discriminate H|].
  destruct (N.eqb c (ch ":")) eqn:E1; [|discriminate H].
  apply N.eqb_eq in E1. subst c.
  apply bind_Ok in H. destruct H as ([value s3] & Hs & H).
  destruct (skip_ws_split s2) as (w2 & Hs2 & Hw2).
  destruct (Hv _ value s3 Hs) as (pre & Hpre & HV).
  destruct (skip_ws_split s3) as (w3 & Hs3 & Hw3).
  destruct (skip_ws s3) as [|d s4]; [discriminate H|].
  destruct (N.eqb d (ch "}")) eqn:E2.
  - injection H as <- <-. apply N.eqb_eq in E2. subst d.
    exists (kbody ++ w1 ++ ch ":" :: w2 ++ pre ++ w3 ++ [ch "}"]). split.
    + rewrite Hs1, Hs2, Hpre, Hs3. list_eq.
    + apply M_one; assumption.
  - destruct (N.eqb d (ch ",")) eqn:E3; [|discriminate H].
    apply N.eqb_eq in E3. subst d.
    destruct (skip_ws_split s4) as (w4 & Hs4 & Hw4).
    destruct (skip_ws s4) as [|e s5]; [discriminate H|].
    destruct (N.eqb e QUOTE) eqn:E4; [|discriminate H].
    apply N.eqb_eq in E4. subst e.
    apply bind_Ok in H. destruct H as ([ps' r] & Hl & [= <- <-]).
    destruct (Hm _ ps' r Hl) as (body & -> & HM).
    exists (kbody ++ w1 ++ ch ":" :: w2 ++ pre ++ w3 ++ ch "," :: w4
                  ++ QUOTE :: body). split.
    + rewrite Hs1, Hs2, Hpre, Hs3, Hs4. list_eq.
    + apply M_cons; assumption.
Qed.

Lemma decoder_sound (fuel : nat) :
  sound_value fuel /\ sound_elems fuel /\ sound_members fuel.
Proof.
  induction fuel as [|f (Hv & He & Hm)].
  - repeat split; intros s x rest H; discriminate H.
  - split; [|split].
    + apply sound_value_step; assumption.
    + apply sound_elems_step; assumption.
    + apply sound_members_step; assumption.
Qed.

(* ------------------------------------------------------------------ *)
(** *** A text of a value is decoded to the value *)

Lemma scan_once_arr (f : nat) (s1 : str) :
  scan_once (S f) (ch "[" :: s1) =
    match skip_ws s1 with
    | c :: s2 =>
        if N.eqb c (ch "]") then Ok (JArr [], s2)
        else bind (array_loop f (skip_ws s1))
                  (fun p => Ok (JArr (fst p), snd p))
    | [] => bind (array_loop f []) (fun p => Ok (JArr (fst p), snd p))
    end.
Proof. reflexivity. Qed.

Lemma scan_once_obj (f : nat) (s1 : str) :
  scan_once (S f) (ch "{" :: s1) =
    match skip_ws s1 with
    | c :: s2 =>
        if N.eqb c (ch "}") then Ok (JObj [], s2)
        else if N.eqb c QUOTE then
          bind (object_loop f s2)
               (fun p => Ok (JObj (dict_of_pairs (fst p)), snd p))
        else Raise (JSONDecodeError
                      (py "Expecting property name enclosed in double quotes")
                      (List.length (skip_ws s1)))
    | [] => Raise (JSONDecodeError
                     (py "Expecting property name enclosed in double quotes")
                     0)
    end.
Proof. reflexivity. Qed.

Lemma skip_ws_to (w : str) (c : char) (s : str) :
  all_ws w -> json_ws c = false -> skip_ws (w ++ c :: s) = c :: s.
Proof. intros Hw Hc. rewrite skip_ws_all by exact Hw. apply skip_ws_id, Hc. Qed.

Lemma follow_after_ws (w : str) (c : char) (s : str) :
  all_ws w -> follow (c :: s) -> follow (w ++ c :: s).
Proof.
  intros Hw Hf. destruct w as [|x w]; [exact Hf|].
  unfold all_ws in Hw. simpl in Hw. apply andb_true_iff in Hw.
  simpl. left. tauto.
Qed.

Lemma value_start_not_close (c : char) :
  value_start c = true ->
  json_ws c = false /\ N.eqb c (ch "]") = false /\ N.eqb c (ch "}") = false.
Proof.
  apply (value_start_cases c
           (fun c => json_ws c = false /\ N.eqb c (ch "]") = false
                     /\ N.eqb c (ch "}") = false)).
  repeat constructor.
Qed.

Lemma decoder_complete :
  (forall pre v, Value pre v -> complete_value pre v) /\
  (forall body vs, Elems body vs -> complete_elems body vs) /\
  (forall body ps, Members body ps -> complete_members body ps).
Proof.
  apply Value_Elems_Members_ind.
  - (* a scalar *)
    intros pre v Hsc fuel rest Hlen Hf.
    destruct fuel as [|f]; [lia|]. apply (sc_scan _ _ Hsc). exact Hf.
  - (* [] *)
    intros w Hw fuel rest Hlen _. destruct fuel as [|f]; [lia|].
    cbn [app]. rewrite scan_once_arr, <- app_assoc. cbn [app].
    rewrite skip_ws_to by (try assumption; reflexivity). reflexivity.
  - (* [ items ] *)
    intros w body vs Hw HE IH fuel rest Hlen _.
    destruct fuel as [|f]; [lia|].
    destruct (Elems_start body vs HE) as (c & t & Hb & Hc).
    destruct (value_start_not_close c Hc) as (Hws & Hclose & _).
    cbn [app]. rewrite scan_once_arr, <- app_assoc.
    rewrite skip_ws_all by exact Hw.
    specialize (IH f rest). rewrite Hb in IH |- *. cbn [app] in IH |- *.
    rewrite skip_ws_id, Hclose by exact Hws.
    rewrite IH; [reflexivity|].
    rewrite Hb in Hlen.
    simpl in Hlen. rewrite length_app in Hlen. simpl in Hlen |- *. lia.
  - (* {} *)
    intros w Hw fuel rest Hlen _. destruct fuel as [|f]; [lia|].
    cbn [app]. rewrite scan_once_obj, <- app_assoc. cbn [app].
    rewrite skip_ws_to by (try assumption; reflexivity). reflexivity.
  - (* { members } *)
    intros w body ps Hw HM IH fuel rest Hlen _.
    destruct fuel as [|f]; [lia|].
    cbn [app]. rewrite scan_once_obj, <- app_assoc. cbn [app].
    rewrite skip_ws_to by (try assumption; reflexivity).
    change (N.eqb QUOTE (ch "}")) with false.
    change (N.eqb QUOTE QUOTE) with true. cbv iota.
    rewrite IH; [reflexivity|].
    simpl in Hlen. rewrite length_app in Hlen. simpl in Hlen. lia.
  - (* the last item *)
    intros pre v w HV IH Hw fuel rest Hlen.
    destruct fuel as [|f]; [lia|].
    rewrite !length_app in Hlen. simpl in Hlen.
    cbn [array_loop]. rewrite <- !app_assoc. cbn [app].
    rewrite IH by first [lia|apply follow_after_ws; [exact Hw|simpl; auto]].
    cbn [bind]. rewrite skip_ws_to by (try assumption; reflexivity).
    reflexivity.
  - (* an item and more *)
    intros pre v w1 w2 body vs HV IHV Hw1 Hw2 HE IHE fuel rest Hlen.
    destruct fuel as [|f]; [lia|].
    rewrite !length_app in Hlen. simpl in Hlen. rewrite length_app in Hlen.
    destruct (Elems_start body vs HE) as (c & t & Hb & Hc).
    destruct (value_start_not_close c Hc) as (Hws & _).
    cbn [array_loop]. rewrite <- !app_assoc. cbn [app].
    rewrite IHV by first [lia|apply follow_after_ws; [exact Hw1|simpl; auto]].
    cbn [bind]. rewrite skip_ws_to by (try assumption; reflexivity).
    change (N.eqb (ch ",") (ch "]")) with false.
    change (N.eqb (ch ",") (ch ",")) with true. cbv iota.
    rewrite <- app_assoc, skip_ws_all by exact Hw2.
    specialize (IHE f rest). rewrite Hb in IHE |- *. cbn [app] in IHE |- *.
    rewrite skip_ws_id by exact Hws.
    rewrite IHE; [reflexivity|]. rewrite Hb in Hlen. simpl in Hlen |- *. lia.
  - (* the last member *)
    intros kbody k w1 w2 pre v w3 HK Hw1 Hw2 HV IHV Hw3 fuel rest Hlen.
    destruct fuel as [|f]; [lia|].
    rewrite !length_app in Hlen. simpl in Hlen. rewrite !length_app in Hlen.
    simpl in Hlen.
    destruct (Value_start pre v HV) as (c & t & Hp & Hc).
    destruct (value_start_not_close c Hc) as (Hws & _).
    cbn [object_loop]. rewrite <- !app_assoc. cbn [app].
    destruct HK as [_ HK]. rewrite HK. cbn [bind].
    rewrite skip_ws_to by (try assumption; reflexivity).
    change (N.eqb (ch ":") (ch ":")) with true. cbv iota.
    rewrite <- !app_assoc, skip_ws_all by exact Hw2.
    specialize (IHV f (w3 ++ ch "}" :: rest)).
    rewrite Hp in IHV |- *. cbn [app] in IHV |- *.
    rewrite skip_ws_id by exact Hws.
    rewrite <- ?app_assoc in IHV |- *.
    rewrite IHV.
    + cbn [bind]. rewrite skip_ws_to by (try assumption; reflexivity).
      reflexivity.
    + rewrite Hp in Hlen. simpl in Hlen |- *. lia.
    + apply follow_after_ws; [exact Hw3|simpl; auto].
  - (* a member and more *)
    intros kbody k w1 w2 pre v w3 w4 body ps HK Hw1 Hw2 HV IHV Hw3 Hw4 HM IHM
           fuel rest Hlen.
    destruct fuel as [|f]; [lia|].
    rewrite !length_app in Hlen. simpl in Hlen. rewrite !length_app in Hlen.
    simpl in Hlen. rewrite !length_app in Hlen. simpl in Hlen.
    destruct (Value_start pre v HV) as (c & t & Hp & Hc).
    destruct (value_start_not_close c Hc) as (Hws & _).
    cbn [object_loop]. rewrite <- !app_assoc. cbn [app].
    destruct HK as [_ HK]. rewrite HK. cbn [bind].
    rewrite skip_ws_to by (try assumption; reflexivity).
    change (N.eqb (ch ":") (ch ":")) with true. cbv iota.
    rewrite <- !app_assoc, skip_ws_all by exact Hw2.
    specialize (IHV f (w3 ++ ch "," :: w4 ++ QUOTE :: body ++ rest)).
    rewrite Hp in IHV |- *. cbn [app] in IHV |- *.
    rewrite skip_ws_id by exact Hws.
    repeat (progress (rewrite <- ?app_assoc; cbn [app])).
    repeat (progress (rewrite <- ?app_assoc in IHV; cbn [app] in IHV)).
    rewrite IHV.
    + cbn [bind]. rewrite skip_ws_to by (try assumption; reflexivity).
      change (N.eqb (ch ",") (ch "}")) with false.
      change (N.eqb (ch ",") (ch ",")) with true. cbv iota.
      rewrite skip_ws_to by (try assumption; reflexivity).
      change (N.eqb QUOTE QUOTE) with true. cbv iota.
      rewrite IHM; [reflexivity|lia].
    + rewrite Hp in Hlen. simpl in Hlen |- *. lia.
    + apply follow_after_ws; [exact Hw3|simpl; auto].
Qed.

(* ------------------------------------------------------------------ *)
(** *** Decoded values are well formed *)

Lemma json_induction (P : json -> Prop) :
  P JNull -> (forall b, P (JBool b)) -> (forall z, P (JInt z)) ->
  (forall literal, P (JFloat literal)) -> (forall s, P (JStr s)) ->
  (forall items, Forall P items -> P (JArr items)) ->
  (forall members, Forall (fun kv => P (snd kv)) members -> P (JObj members)) ->
  forall v, P v.
Proof.
  intros Hnull Hbool Hint Hfloat Hstr Harr Hobj.
  refine (fix IH (v : json) : P v :=
            match v with
            | JNull => Hnull
            | JBool b => Hbool b
            | JInt z => Hint z
            | JFloat l => Hfloat l
            | JStr s => Hstr s
            | JArr items =>
                Harr items
                  ((fix go (l : list json) : Forall P l :=
                      match l with
                      | [] => Forall_nil _
                      | x :: l' => Forall_cons x (IH x) (go l')
                      end) items)
            | JObj members =>
                Hobj members
                  ((fix go (l : list (str * json))
                     : Forall (fun kv => P (snd kv)) l :=
                      match l with
                      | [] => Forall_nil _
                      | kv :: l' => Forall_cons kv (IH (snd kv)) (go l')
                      end) members)
            end).
Qed.

Lemma wf_json_arr (items : list json) :
  wf_json (JArr items) <-> Forall wf_json items.
Proof.
  induction items as [|x l IH].
  - split; [constructor|intros _; exact I].
  - split.
    + intros [Hx Hl]. constructor; [exact Hx|]. apply IH. exact Hl.
    + intros H. inversion H; subst. split; [assumption|]. apply IH. assumption.
Qed.

Lemma wf_json_obj (members : list (str * json)) :
  wf_json (JObj members) <->
  NoDup (keys members) /\ Forall (fun kv => wf_json (snd kv)) members.
Proof.
  cbn [wf_json].
  assert (H : (fix all (l : list (str * json)) : Prop :=
                 match l with
                 | [] => True
                 | (_, x) :: l' => wf_json x /\ all l'
                 end) members
              <-> Forall (fun kv => wf_json (snd kv)) members).
  { induction members as [|[k x] l IH].
    - split; [constructor|intros _; exact I].
    - split.
      + intros [Hx Hl]. constructor; [exact Hx|]. apply IH. exact Hl.
      + intros H. inversion H; subst. split; [assumption|]. apply IH.
        assumption. }
  rewrite H. reflexivity.
Qed.

Section DictOfPairs.
Variable V : Type.
Implicit Types (d : dict V) (k : str) (v : V).

Lemma keys_dict_set d k v :
  keys (dict_set d k v) = keys d \/
  (~ In k (keys d) /\ keys (dict_set d k v) = keys d ++ [k]).
Proof.
  destruct (dict_get d k) as [v0|] eqn:E.
  - left. destruct (dict_get_split _ _ _ _ E) as (d1 & d2 & -> & Hk).
    rewrite dict_set_at by exact Hk. rewrite !keys_app. reflexivity.
  - right. apply dict_get_None in E. split; [exact E|].
    rewrite dict_set_new by exact E. rewrite keys_app. reflexivity.
Qed.

Lemma NoDup_dict_set d k v :
  NoDup (keys d) -> NoDup (keys (dict_set d k v)).
Proof.
  intros H. destruct (keys_dict_set d k v) as [->|[Hk ->]]; [exact H|].
  apply NoDup_app; [exact H|repeat constructor; simpl; tauto|].
  intros x Hx [<-|[]]. tauto.
Qed.

Lemma Forall_dict_set (P : V -> Prop) d k v :
  Forall (fun kv => P (snd kv)) d -> P v ->
  Forall (fun kv => P (snd kv)) (dict_set d k v).
Proof.
  intros Hd Hv. induction d as [|[k' v'] d IH]; simpl.
  - constructor; [exact Hv|constructor].
  - inversion Hd; subst. destruct (str_eqb k' k); constructor; auto.
Qed.

Lemma dict_of_pairs_from (P : V -> Prop) (pairs : list (str * V)) d :
  NoDup (keys d) -> Forall (fun kv => P (snd kv)) d ->
  Forall (fun kv => P (snd kv)) pairs ->
  let d' := fold_left (fun d kv => dict_set d (fst kv) (snd kv)) pairs d in
  NoDup (keys d') /\ Forall (fun kv => P (snd kv)) d'.
Proof.
  revert d. induction pairs as [|[k v] pairs IH]; intros d Hn Hd Hp; simpl.
  - auto.
  - inversion Hp; subst. apply IH.
    + apply NoDup_dict_set. exact Hn.
    + apply Forall_dict_set; assumption.
    + assumption.
Qed.

Lemma dict_of_pairs_distinct_from (pairs : list (str * V)) d :
  NoDup (keys (d ++ pairs)) ->
  fold_left (fun d kv => dict_set d (fst kv) (snd kv)) pairs d = d ++ pairs.
Proof.
  revert d. induction pairs as [|[k v] pairs IH]; intros d Hn; simpl.
  - rewrite List.app_nil_r. reflexivity.
  - assert (Hk : ~ In k (keys d)).
    { rewrite keys_app in Hn. simpl in Hn. apply NoDup_remove_2 in Hn.
      intros H. apply Hn. apply in_or_app. tauto. }
    rewrite dict_set_new by exact Hk.
    rewrite IH; rewrite <- app_assoc; [reflexivity|exact Hn].
Qed.

Lemma dict_of_pairs_distinct (pairs : list (str * V)) :
  NoDup (keys pairs) -> dict_of_pairs pairs = pairs.
Proof. intros H. apply (dict_of_pairs_distinct_from pairs []). exact H. Qed.
End DictOfPairs.

Lemma Scalar_wf (pre : str) (v : json) : Scalar pre v -> wf_json v.
Proof.
  intros Hsc. destruct v; try exact I.
  - cbn [wf_json]. pose proof (sc_float _ _ Hsc literal eq_refl) as E.
    subst pre. exact Hsc.
  - exfalso. apply (sc_arr _ _ Hsc items). reflexivity.
  - exfalso. apply (sc_obj _ _ Hsc members). reflexivity.
Qed.

Lemma decoded_wf :
  (forall pre v, Value pre v -> wf_json v) /\
  (forall body vs, Elems body vs -> Forall wf_json vs) /\
  (forall body ps, Members body ps ->
                   Forall (fun kv => wf_json (snd kv)) ps).
Proof.
  apply Value_Elems_Members_ind.
  - intros pre v Hsc. eapply Scalar_wf. exact Hsc.
  - intros w _. exact I.
  - intros w body vs _ _ IH. apply wf_json_arr. exact IH.
  - intros w _. split; [constructor|exact I].
  - intros w body ps _ _ IH. apply wf_json_obj.
    apply (dict_of_pairs_from json wf_json ps []);
      [constructor|constructor|exact IH].
  - intros pre v w _ IH _. constructor; [exact IH|constructor].
  - intros pre v w1 w2 body vs _ IHv _ _ _ IHe. constructor; assumption.
  - intros kbody k w1 w2 pre v w3 _ _ _ _ IH _.
    constructor; [exact IH|constructor].
  - intros kbody k w1 w2 pre v w3 w4 body ps _ _ _ _ IHv _ _ _ IHm.
    constructor; assumption.
Qed.

(* ------------------------------------------------------------------ *)
(** *** What the encoder writes is a text of the value *)

Section Encoder.
Variable indent : option nat.
(** The key separator is a colon and white space: [":"] or [": "]. *)
Variable key_ws : str.
Hypothesis key_ws_ok : all_ws key_ws.

Let enc := iterencode indent (py ",") (ch ":" :: key_ws).
Let nl := newline_indent indent.

Lemma newline_indent_ws (level : nat) : all_ws (nl level).
Proof.
  unfold nl, newline_indent, all_ws. destruct indent as [n|]; [|reflexivity].
  simpl. induction (n * level) as [|m IH]; [reflexivity|exact IH].
Qed.

Let mtext := member_text indent key_ws.

Lemma enc_arr (level : nat) (x : json) (l : list json) :
  enc level (JArr (x :: l)) =
    ch "[" :: nl (S level)
    ++ join (py "," ++ nl (S level)) (List.map (enc (S level)) (x :: l))
    ++ nl level ++ [ch "]"].
Proof.
  unfold enc at 1. cbn [iterencode]. fold enc. fold nl.
  change (py "[") with [ch "["]. change (py "]") with [ch "]"].
  cbn [app]. reflexivity.
Qed.

Lemma enc_obj (level : nat) (kv : str * json) (l : list (str * json)) :
  enc level (JObj (kv :: l)) =
    ch "{" :: nl (S level)
    ++ join (py "," ++ nl (S level))
            (List.map (mtext level) (kv :: l))
    ++ nl level ++ [ch "}"].
Proof.
  destruct kv as [k x].
  unfold enc at 1. cbn [iterencode]. fold enc. fold nl.
  change (py "{") with [ch "{"]. change (py "}") with [ch "}"].
  cbn [app]. do 3 f_equal. f_equal. cbn [List.map]. f_equal.
  induction l as [|[k' y] l IH]; [reflexivity|].
  cbn [List.map]. rewrite <- IH. reflexivity.
Qed.

Lemma join_cons2 (sep a b : str) (l : list str) :
  join sep (a :: b :: l) = a ++ sep ++ join sep (b :: l).
Proof. reflexivity. Qed.

(** The items of an array, up to the closing bracket. *)
Lemma Elems_written (level : nat) (x : json) (l : list json) :
  Forall (fun v => Value (enc (S level) v) v) (x :: l) ->
  Elems (join (py "," ++ nl (S level)) (List.map (enc (S level)) (x :: l))
         ++ nl level ++ [ch "]"])
        (x :: l).
Proof.
  revert x. induction l as [|y l IH]; intros x H; inversion H; subst.
  - cbn [List.map join]. apply E_one; [assumption|apply newline_indent_ws].
  - cbn [List.map]. rewrite join_cons2.
    replace ((enc (S level) x ++ (py "," ++ nl (S level))
              ++ join (py "," ++ nl (S level))
                      (enc (S level) y :: List.map (enc (S level)) l))
             ++ nl level ++ [ch "]"])
      with (enc (S level) x ++ [] ++ ch "," :: nl (S level)
            ++ (join (py "," ++ nl (S level))
                     (List.map (enc (S level)) (y :: l))
                ++ nl level ++ [ch "]"]))
      by (change (py ",") with [ch ","]; cbn [List.map]; list_eq).
    apply E_cons; try assumption.
    + apply all_ws_nil.
    + apply newline_indent_ws.
    + apply IH. assumption.
Qed.

(** The members of an object, after the quote that opens the first key
    and up to the closing brace. *)
Lemma Members_written (level : nat) (kv : str * json)
    (l : list (str * json)) :
  Forall (fun kv => Value (enc (S level) (snd kv)) (snd kv)) (kv :: l) ->
  exists body,
    join (py "," ++ nl (S level)) (List.map (mtext level) (kv :: l))
    ++ nl level ++ [ch "}"] = QUOTE :: body /\
    Members body (kv :: l).
Proof.
  revert kv. induction l as [|kv' l IH]; intros [k x] H; inversion H; subst.
  - cbn [List.map join]. unfold mtext, member_text, encode_basestring. cbn [fst snd].
    exists ((List.concat (List.map escape_char k) ++ [QUOTE]) ++ []
            ++ ch ":" :: key_ws ++ enc (S level) x ++ nl level ++ [ch "}"]).
    split; [list_eq|].
    apply M_one; try assumption.
    + apply IsStr_escaped.
    + apply all_ws_nil.
    + apply newline_indent_ws.
  - destruct (IH kv' H3) as (body & Hb & HM).
    cbn [List.map] in Hb |- *. rewrite join_cons2.
    unfold mtext at 1, member_text, encode_basestring. cbn [fst snd].
    exists ((List.concat (List.map escape_char k) ++ [QUOTE]) ++ []
            ++ ch ":" :: key_ws ++ enc (S level) x ++ [] ++ ch "," ::
            nl (S level) ++ QUOTE :: body).
    split.
    + rewrite <- Hb. change (py ",") with [ch ","]. list_eq.
    + apply M_cons; try assumption.
      * apply IsStr_escaped.
      * apply all_ws_nil.
      * apply all_ws_nil.
      * apply newline_indent_ws.
Qed.

Lemma written_is_value (v : json) :
  wf_json v -> forall level, Value (enc level v) v.
Proof.
  induction v as [|b|z|literal|s|items IH|members IH] using json_induction;
    intros Hwf level.
  - apply V_scalar, Scalar_null.
  - destruct b; apply V_scalar; [apply Scalar_true|apply Scalar_false].
  - apply V_scalar, Scalar_int.
  - apply V_scalar. exact Hwf.
  - apply V_scalar.
    apply (Scalar_str (List.concat (List.map escape_char s) ++ [QUOTE])).
    apply IsStr_escaped.
  - apply wf_json_arr in Hwf. destruct items as [|x l].
    + apply (V_arr_empty []). apply all_ws_nil.
    + rewrite enc_arr. apply V_arr; [apply newline_indent_ws|].
      apply Elems_written.
      rewrite Forall_forall in IH, Hwf |- *. intros y Hy.
      apply IH; auto.
  - apply wf_json_obj in Hwf. destruct Hwf as [Hnd Hwf].
    destruct members as [|kv l].
    + apply (V_obj_empty []). apply all_ws_nil.
    + rewrite enc_obj.
      destruct (Members_written level kv l) as (body & Hb & HM).
      { rewrite Forall_forall in IH, Hwf |- *. intros y Hy.
        apply IH; auto. }
      rewrite Hb.
      rewrite <- (dict_of_pairs_distinct json (kv :: l) Hnd).
      apply V_obj; [apply newline_indent_ws|exact HM].
Qed.
End Encoder.

(* ------------------------------------------------------------------ *)
(** *** [json.loads] *)

Lemma all_ws_follow (w : str) : all_ws w -> follow w.
Proof.
  destruct w as [|c w]; [exact (fun _ => I)|].
  unfold all_ws. simpl. intros H. apply andb_true_iff in H. left. tauto.
Qed.

Lemma all_ws_skip (w : str) : all_ws w -> skip_ws w = [].
Proof.
  intros H. rewrite <- (List.app_nil_r w). rewrite skip_ws_all by exact H.
  reflexivity.
Qed.

Lemma value_start_not_bom (c : char) :
  value_start c = true -> N.eqb 65279 c = false.
Proof.
  apply (value_start_cases c (fun c => N.eqb 65279 c = false)).
  repeat constructor.
Qed.

Lemma json_ws_not_bom (c : char) : json_ws c = true -> N.eqb 65279 c = false.
Proof.
  unfold json_ws. rewrite !orb_true_iff, !N.eqb_eq.
  intros [[[->| ->]| ->]| ->]; reflexivity.
Qed.

(** A text of a value between white space is loaded as the value. *)
Lemma loads_text (w0 pre w1 : str) (v : json) :
  all_ws w0 -> Value pre v -> all_ws w1 ->
  json_loads (w0 ++ pre ++ w1) = Ok v.
Proof.
  intros H0 HV H1. unfold json_loads.
  destruct (Value_start pre v HV) as (c & t & Hp & Hc).
  assert (Hbom : startswith (w0 ++ pre ++ w1) [65279%N] = false).
  { destruct w0 as [|x w0].
    - rewrite Hp. cbn [app startswith].
      rewrite value_start_not_bom by exact Hc. reflexivity.
    - unfold all_ws in H0. cbn [forallb] in H0. apply andb_true_iff in H0.
      cbn [app startswith]. rewrite json_ws_not_bom by tauto. reflexivity. }
  rewrite Hbom. rewrite skip_ws_all by exact H0.
  assert (Hskip : skip_ws (pre ++ w1) = pre ++ w1).
  { rewrite Hp. apply skip_ws_id. apply value_start_not_ws. exact Hc. }
  rewrite Hskip.
  rewrite (proj1 decoder_complete pre v HV).
  - cbn [bind fst snd]. rewrite all_ws_skip by exact H1. reflexivity.
  - rewrite !length_app. lia.
  - apply all_ws_follow. exact H1.
Qed.

(** A text that is loaded is a text of the value between white space. *)
Lemma loads_Ok (x : str) (v : json) :
  json_loads x = Ok v ->
  exists w0 pre w1,
    x = w0 ++ pre ++ w1 /\ all_ws w0 /\ Value pre v /\ all_ws w1.
Proof.
  unfold json_loads. destruct (startswith x [65279%N]); [discriminate|].
  intros H. apply bind_Ok in H. destruct H as ([v' rest] & Hs & H).
  cbn [fst snd] in H.
  destruct (skip_ws rest) eqn:Er; [|discriminate H]. injection H as ->.
  destruct (proj1 (decoder_sound _) _ _ _ Hs) as (pre & Hx & HV).
  destruct (skip_ws_split x) as (w0 & Hw0 & H0).
  exists w0, pre, rest. repeat split; try assumption.
  - rewrite Hw0 at 1. rewrite Hx. reflexivity.
  - apply skip_ws_nil_all. exact Er.
Qed.

(* ------------------------------------------------------------------ *)
(** *** Stripping *)

Lemma all_ws_space (w : str) : all_ws w -> all_space w.
Proof.
  unfold all_ws, all_space. induction w as [|c w IH]; simpl; [auto|].
  intros H. apply andb_true_iff in H. destruct H as [Hc Hw].
  rewrite (json_ws_isspace c Hc). auto.
Qed.

Lemma lstrip_space (w s : str) : all_space w -> lstrip (w ++ s) = lstrip s.
Proof.
  unfold all_space. induction w as [|c w IH]; simpl; intros H; [reflexivity|].
  apply andb_true_iff in H. destruct H as [Hc Hw]. rewrite Hc. auto.
Qed.

Lemma all_space_rev (w : str) : all_space w -> all_space (rev w).
Proof.
  unfold all_space. intros H. rewrite forallb_forall in H |- *.
  intros c Hc. apply H. apply in_rev. exact Hc.
Qed.

(** The text between white space, when it neither starts nor ends with
    white space. *)
Lemma strip_between (w0 w1 p : str) (c d : char) :
  all_space w0 -> all_space w1 ->
  isspace c = false -> isspace d = false ->
  forall t, c :: t = p ++ [d] ->
  strip (w0 ++ (c :: t) ++ w1) = c :: t.
Proof.
  intros H0 H1 Hc Hd t Ht. unfold strip, rstrip.
  rewrite lstrip_space by exact H0. cbn [app].
  rewrite lstrip_fixed by exact Hc.
  change (c :: t ++ w1) with ((c :: t) ++ w1). rewrite Ht.
  rewrite rev_app_distr, lstrip_space by (apply all_space_rev; exact H1).
  rewrite rev_app_distr. cbn [rev app]. rewrite lstrip_fixed by exact Hd.
  cbn [rev]. rewrite rev_involutive. reflexivity.
Qed.

Lemma strip_value (w0 pre w1 : str) (v : json) :
  all_ws w0 -> Value pre v -> all_ws w1 ->
  strip (w0 ++ pre ++ w1) = pre /\ strip pre = pre /\ pre <> [].
Proof.
  intros H0 HV H1.
  destruct (Value_start pre v HV) as (c & t & Hp & Hc).
  destruct (Value_last pre v HV) as (p & d & Hl & Hd).
  apply value_start_not_space in Hc. subst pre.
  split; [|split].
  - apply (strip_between w0 w1 p c d); auto using all_ws_space.
  - pose proof (strip_between [] [] p c d eq_refl eq_refl Hc Hd t Hl) as H.
    cbn [app] in H. rewrite List.app_nil_r in H. exact H.
  - discriminate.
Qed.

(* ------------------------------------------------------------------ *)
(** *** Detection of objects and arrays *)

Lemma Elems_end (body : str) (vs : list json) :
  Elems body vs -> exists p, body = p ++ [ch "]"].
Proof.
  induction 1 as [pre v w _ _|pre v w1 w2 body vs _ _ _ _ (p & IH)].
  - exists (pre ++ w). list_eq.
  - exists (pre ++ w1 ++ ch "," :: w2 ++ p). rewrite IH. list_eq.
Qed.

Lemma Members_end (body : str) (ps : list (str * json)) :
  Members body ps -> exists p, body = p ++ [ch "}"].
Proof.
  induction 1 as [kbody k w1 w2 pre v w3 _ _ _ _ _
                 |kbody k w1 w2 pre v w3 w4 body ps _ _ _ _ _ _ _ (p & IH)].
  - exists (kbody ++ w1 ++ ch ":" :: w2 ++ pre ++ w3). list_eq.
  - exists (kbody ++ w1 ++ ch ":" :: w2 ++ pre ++ w3 ++ ch "," :: w4
                  ++ QUOTE :: p). rewrite IH. list_eq.
Qed.

Lemma endswith_last (p : str) (c : char) : endswith (p ++ [c]) [c] = true.
Proof.
  unfold endswith. rewrite rev_app_distr. simpl. rewrite N.eqb_refl.
  reflexivity.
Qed.

(** The text of an object or array has the shape [_is_json] asks for. *)
Lemma container_shape (pre : str) (v : json) :
  Value pre v -> container v = true ->
  (startswith pre (py "{") && endswith pre (py "}"))
  || (startswith pre (py "[") && endswith pre (py "]")) = true.
Proof.
  intros HV Hc.
  destruct HV as [pre v Hsc|w _|w body vs _ He|w _|w body ps _ Hm].
  - destruct v; try discriminate Hc.
    + exfalso. apply (sc_arr _ _ Hsc items). reflexivity.
    + exfalso. apply (sc_obj _ _ Hsc members). reflexivity.
  - apply orb_true_iff. right.
    change (ch "[" :: w ++ [ch "]"]) with ((ch "[" :: w) ++ [ch "]"]).
    change (py "]") with [ch "]"]. rewrite endswith_last. reflexivity.
  - apply orb_true_iff. right. destruct (Elems_end body vs He) as (p & ->).
    replace (ch "[" :: w ++ p ++ [ch "]"])
      with ((ch "[" :: w ++ p) ++ [ch "]"]) by list_eq.
    change (py "]") with [ch "]"]. rewrite endswith_last. reflexivity.
  - apply orb_true_iff. left.
    change (ch "{" :: w ++ [ch "}"]) with ((ch "{" :: w) ++ [ch "}"]).
    change (py "}") with [ch "}"]. rewrite endswith_last. reflexivity.
  - apply orb_true_iff. left. destruct (Members_end body ps Hm) as (p & ->).
    replace (ch "{" :: w ++ QUOTE :: p ++ [ch "}"])
      with ((ch "{" :: w ++ QUOTE :: p) ++ [ch "}"]) by list_eq.
    change (py "}") with [ch "}"]. rewrite endswith_last. reflexivity.
Qed.

Lemma is_json_container (x w0 pre w1 : str) (v : json) :
  x = w0 ++ pre ++ w1 -> all_ws w0 -> Value pre v -> all_ws w1 ->
  container v = true ->
  _is_json x = true.
Proof.
  intros -> H0 HV H1 Hc. unfold _is_json.
  destruct (strip_value w0 pre w1 v H0 HV H1) as (-> & _ & Hne).
  destruct pre as [|c t]; [congruence|]. cbn [py_not].
  rewrite (container_shape _ v HV Hc).
  pose proof (loads_text [] _ [] v all_ws_nil HV all_ws_nil) as Hl.
  cbn [app] in Hl. rewrite List.app_nil_r in Hl. rewrite Hl. reflexivity.
Qed.

(* ------------------------------------------------------------------ *)
(** *** Texts written by [json.dumps] are loaded back *)

Lemma loads_dumps_compact (v : json) :
  wf_json v -> json_loads (dumps_compact v) = Ok v.
Proof.
  intros Hwf.
  pose proof (loads_text [] (dumps_compact v) [] v all_ws_nil) as H.
  cbn [app] in H. rewrite List.app_nil_r in H. apply H; [|exact all_ws_nil].
  apply (written_is_value None [] all_ws_nil v Hwf 0).
Qed.

Lemma loads_dumps_indent2 (v : json) :
  wf_json v -> json_loads (dumps_indent2 v) = Ok v.
Proof.
  intros Hwf.
  pose proof (loads_text [] (dumps_indent2 v) [] v all_ws_nil) as H.
  cbn [app] in H. rewrite List.app_nil_r in H. apply H; [|exact all_ws_nil].
  apply (written_is_value (Some 2) [32%N] eq_refl v Hwf 0).
Qed.

(* ------------------------------------------------------------------ *)
(** *** Scalars are not taken for JSON or XML *)

Lemma value_start_not_xml (c : char) :
  value_start c = true ->
  forall t,
    startswith (c :: t) (py "<?xml") || startswith (c :: t) (py "<soap:")
    || startswith (c :: t) (py "<rss") || startswith (c :: t) (py "<feed")
    || match re_match re_xml_root (c :: t) with
       | Some _ => true
       | None => false
       end = false.
Proof.
  apply (value_start_cases c
    (fun c => forall t,
       startswith (c :: t) (py "<?xml") || startswith (c :: t) (py "<soap:")
       || startswith (c :: t) (py "<rss") || startswith (c :: t) (py "<feed")
       || match re_match re_xml_root (c :: t) with
          | Some _ => true
          | None => false
          end = false)).
  repeat constructor.
Qed.

Lemma scalar_not_bracket (pre : str) (v : json) :
  Value pre v -> container v = false ->
  startswith pre (py "{") = false /\ startswith pre (py "[") = false.
Proof.
  intros HV Hc.
  destruct HV as [pre v Hsc| | | |]; try discriminate Hc.
  pose proof (sc_scan _ _ Hsc 0 [] I) as H. rewrite List.app_nil_r in H.
  destruct pre as [|c t]; [discriminate H|].
  cbn [startswith py List.map list_ascii_of_string].
  destruct (N.eqb (N_of_ascii "{") c) eqn:E1.
  { apply N.eqb_eq in E1. subst c. exfalso.
    rewrite scan_once_obj in H.
    destruct (skip_ws t) as [|c2 s2]; [discriminate H|].
    destruct (N.eqb c2 (ch "}")).
    - injection H as <- _. discriminate Hc.
    - destruct (N.eqb c2 QUOTE); discriminate H. }
  destruct (N.eqb (N_of_ascii "[") c) eqn:E2.
  { apply N.eqb_eq in E2. subst c. exfalso.
    rewrite scan_once_arr in H.
    destruct (skip_ws t) as [|c2 s2]; [discriminate H|].
    destruct (N.eqb c2 (ch "]")).
    - injection H as <- _. discriminate Hc.
    - discriminate H. }
  split; reflexivity.
Qed.

Lemma upper_chars (c : char) (P : char -> Prop) :
  Forall P (List.map N.of_nat (seq 65 26)) ->
  (N.leb 65 c && N.leb c 90 = true) -> P c.
Proof.
  intros HP H. apply andb_true_iff in H. destruct H as [H1 H2].
  apply N.leb_le in H1, H2. rewrite Forall_forall in HP. apply HP.
  replace c with (N.of_nat (N.to_nat c)) by apply N2Nat.id.
  apply in_map, in_seq. lia.
Qed.

Lemma isspace_lower (c : char) : isspace (lower_char c) = isspace c.
Proof.
  unfold lower_char. destruct (N.leb 65 c && N.leb c 90) eqn:E; [|reflexivity].
  revert E. apply (upper_chars c (fun c => isspace (c + 32)%N = isspace c)).
  repeat constructor.
Qed.

Lemma all_space_lower (w : str) : all_space w -> all_space (lower w).
Proof.
  unfold all_space, lower. intros H. rewrite forallb_forall in H |- *.
  intros c Hc. apply in_map_iff in Hc. destruct Hc as (c0 & <- & Hc0).
  rewrite isspace_lower. auto.
Qed.

(** [_is_html] gives the same answer on a text and on the text between
    white space. *)
Lemma is_html_between (w0 pre w1 : str) (v : json) :
  all_ws w0 -> Value pre v -> all_ws w1 ->
  _is_html pre = _is_html (w0 ++ pre ++ w1).
Proof.
  intros H0 HV H1. unfold _is_html.
  destruct (Value_start pre v HV) as (c & t & Hp & Hc).
  destruct (Value_last pre v HV) as (p & d & Hl & Hd).
  apply value_start_not_space in Hc. subst pre.
  assert (Hc' : isspace (lower_char c) = false)
    by (rewrite isspace_lower; exact Hc).
  assert (Hd' : isspace (lower_char d) = false)
    by (rewrite isspace_lower; exact Hd).
  assert (Hl' : lower_char c :: lower t = lower p ++ [lower_char d]).
  { change (lower_char c :: lower t) with (lower (c :: t)). rewrite Hl.
    unfold lower. rewrite map_app. reflexivity. }
  assert (E1 : strip (lower (c :: t)) = lower (c :: t)).
  { pose proof (strip_between [] [] (lower p) _ _ eq_refl eq_refl Hc' Hd'
                  (lower t) Hl') as H.
    cbn [app] in H. rewrite List.app_nil_r in H. exact H. }
  assert (E2 : strip (lower (w0 ++ (c :: t) ++ w1)) = lower (c :: t)).
  { unfold lower. rewrite !map_app. cbn [List.map].
    apply (strip_between (lower w0) (lower w1) (lower p)
                         (lower_char c) (lower_char d)); auto.
    - apply all_space_lower, all_ws_space. exact H0.
    - apply all_space_lower, all_ws_space. exact H1. }
  rewrite E1, E2. reflexivity.
Qed.

(* ------------------------------------------------------------------ *)
(** *** The fuel of the decoder is never used up *)

Lemma bind_no_rec (A B : Type) (r : result A) (k : A -> result B) :
  no_rec r -> (forall a, r = Ok a -> no_rec (k a)) -> no_rec (bind r k).
Proof.
  unfold no_rec. destruct r as [a|e]; simpl; intros Hr Hk.
  - apply Hk. reflexivity.
  - congruence.
Qed.

Lemma cons_result_no_rec (c : char) (r : result (str * str)) :
  no_rec r -> no_rec (cons_result c r).
Proof.
  intros H. apply bind_no_rec; [exact H|]. intros a _. discriminate.
Qed.

Lemma length_skipn_le (n : nat) (s : str) :
  List.length (skipn n s) <= List.length s.
Proof. rewrite length_skipn. lia. Qed.

Lemma scanstring_no_rec (n : nat) :
  forall (s : str) (b : nat), List.length s <= n -> no_rec (scanstring s b).
Proof.
  induction n as [|n IH]; intros s b Hlen.
  - destruct s; [discriminate|simpl in Hlen; lia].
  - destruct s as [|c s1]; [discriminate|]. simpl in Hlen.
    destruct (N.eqb c QUOTE) eqn:Eq.
    { cbn [scanstring]. rewrite Eq. discriminate. }
    destruct (N.eqb c BACKSLASH_CHAR) eqn:Eb.
    2:{ cbn [scanstring]. rewrite Eq, Eb.
        destruct (N.ltb c 32); [discriminate|].
        apply cons_result_no_rec, IH. lia. }
    apply N.eqb_eq in Eb. subst c.
    destruct s1 as [|esc s2]; [discriminate|]. simpl in Hlen.
    destruct (N.eqb esc (ch "u")) eqn:Eu.
    2:{ cbn [scanstring].
        change (N.eqb BACKSLASH_CHAR QUOTE) with false.
        change (N.eqb BACKSLASH_CHAR BACKSLASH_CHAR) with true.
        cbv iota. rewrite Eu.
        destruct (backslash esc); [|discriminate].
        apply cons_result_no_rec, IH. lia. }
    apply N.eqb_eq in Eu. subst esc.
    destruct s2 as [|h1 [|h2 [|h3 [|h4 s3]]]]; try discriminate.
    simpl in Hlen.
    destruct (hex4 h1 h2 h3 h4) as [uni|] eqn:Eh.
    2:{ cbn [scanstring].
        change (N.eqb BACKSLASH_CHAR QUOTE) with false.
        change (N.eqb BACKSLASH_CHAR BACKSLASH_CHAR) with true.
        change (N.eqb (ch "u") (ch "u")) with true.
        cbv iota. rewrite Eh. discriminate. }
    rewrite (scanstring_u h1 h2 h3 h4 s3 b uni Eh).
    assert (Hs3 : no_rec (cons_result uni (scanstring s3 b)))
      by (apply cons_result_no_rec, IH; lia).
    destruct (high_surrogate uni); [|exact Hs3].
    destruct (ahead s3); [exact Hs3|discriminate|].
    apply cons_result_no_rec, IH.
    pose proof (length_skipn_le 6 s3). lia.
Qed.

Lemma number_no_rec (s : str) : no_rec (number_or_constant s).
Proof.
  unfold number_or_constant, no_rec.
  destruct (lex_integer s) as [[i s1]|].
  - destruct (lex_frac s1) as [f s2]. destruct (lex_exp s2) as [e s3].
    destruct f, e; discriminate.
  - repeat match goal with
           | |- context [if ?b then _ else _] => destruct b
           end; discriminate.
Qed.

Lemma skip_ws_length (s : str) : List.length (skip_ws s) <= List.length s.
Proof.
  destruct (skip_ws_split s) as (w & Hs & _).
  rewrite Hs at 2. rewrite length_app. lia.
Qed.

Lemma scan_once_progress (f : nat) (s : str) (v : json) (rest : str) :
  scan_once f s = Ok (v, rest) -> List.length rest < List.length s.
Proof.
  intros H. destruct (proj1 (decoder_sound f) s v rest H) as (pre & -> & HV).
  destruct (Value_start pre v HV) as (c & t & -> & _).
  rewrite length_app. simpl. lia.
Qed.

Lemma scanstring_progress (s : str) (b : nat) (t rest : str) :
  scanstring s b = Ok (t, rest) -> List.length rest < List.length s.
Proof.
  intros H.
  destruct (scanstring_local _ s b t rest (le_n _) H) as (body & -> & HB).
  apply IsStr_nonempty in HB. rewrite length_app.
  destruct body; [congruence|simpl; lia].
Qed.

Lemma skip_ws_cons_length (s : str) (c : char) (s' : str) :
  skip_ws s = c :: s' -> S (List.length s') <= List.length s.
Proof.
  intros H. pose proof (skip_ws_length s) as Hl. rewrite H in Hl. exact Hl.
Qed.

Lemma fuel_enough (f : nat) :
  (forall s, 2 * List.length s < f -> no_rec (scan_once f s)) /\
  (forall s, 2 * List.length s + 1 < f -> no_rec (array_loop f s)) /\
  (forall s, 2 * List.length s + 1 < f -> no_rec (object_loop f s)).
Proof.
  induction f as [|f (IHs & IHa & IHo)].
  - repeat split; intros s H; lia.
  - split; [|split]; intros s Hlen.
    + (* scan_once *)
      destruct s as [|c s1]; [discriminate|]. simpl List.length in Hlen.
      cbn [scan_once].
      destruct (N.eqb c QUOTE).
      { apply bind_no_rec; [apply (scanstring_no_rec _ _ _ (le_n _))|].
        intros a _. discriminate. }
      destruct (N.eqb c (ch "{")).
      { destruct (skip_ws s1) as [|c2 s2] eqn:Es; [discriminate|].
        apply skip_ws_cons_length in Es.
        destruct (N.eqb c2 (ch "}")); [discriminate|].
        destruct (N.eqb c2 QUOTE); [|discriminate].
        apply bind_no_rec; [apply IHo; lia|]. intros a _. discriminate. }
      destruct (N.eqb c (ch "[")).
      { pose proof (skip_ws_length s1) as Hsk.
        destruct (skip_ws s1) as [|c2 s2] eqn:Es.
        - apply bind_no_rec; [apply IHa; simpl; lia|]. intros a _.
          discriminate.
        - destruct (N.eqb c2 (ch "]")); [discriminate|].
          apply bind_no_rec; [apply IHa; lia|]. intros a _. discriminate. }
      destruct (startswith (c :: s1) (py "null")); [discriminate|].
      destruct (startswith (c :: s1) (py "true")); [discriminate|].
      destruct (startswith (c :: s1) (py "false")); [discriminate|].
      apply number_no_rec.
    + (* array_loop *)
      cbn [array_loop]. apply bind_no_rec; [apply IHs; lia|].
      intros [value s1] Hs. apply scan_once_progress in Hs.
      destruct (skip_ws s1) as [|c s2] eqn:Es; [discriminate|].
      apply skip_ws_cons_length in Es.
      destruct (N.eqb c (ch "]")); [discriminate|].
      destruct (N.eqb c (ch ",")); [|discriminate].
      pose proof (skip_ws_length s2) as Hsk.
      apply bind_no_rec; [apply IHa; lia|]. intros a _. discriminate.
    + (* object_loop *)
      cbn [object_loop].
      apply bind_no_rec; [apply (scanstring_no_rec _ _ _ (le_n _))|].
      intros [key s1] Hk. apply scanstring_progress in Hk.
      destruct (skip_ws s1) as [|c s2] eqn:Es; [discriminate|].
      apply skip_ws_cons_length in Es.
      destruct (N.eqb c (ch ":")); [|discriminate].
      pose proof (skip_ws_length s2) as Hsk.
      apply bind_no_rec; [apply IHs; lia|].
      intros [value s3] Hs. apply scan_once_progress in Hs.
      destruct (skip_ws s3) as [|d s4] eqn:Es3; [discriminate|].
      apply skip_ws_cons_length in Es3.
      destruct (N.eqb d (ch "}")); [discriminate|].
      destruct (N.eqb d (ch ",")); [|discriminate].
      destruct (skip_ws s4) as [|e s5] eqn:Es4; [discriminate|].
      apply skip_ws_cons_length in Es4.
      destruct (N.eqb e QUOTE); [|discriminate].
      apply bind_no_rec; [apply IHo; lia|]. intros a _. discriminate.
Qed.

(** [json_loads] returns a value or raises a [JSONDecodeError]. *)
Lemma loads_no_recursion_error (s : str) :
  json_loads s <> Raise RecursionError.
Proof.
  unfold json_loads. destruct (startswith s [65279%N]); [discriminate|].
  apply bind_no_rec.
  - apply (proj1 (fuel_enough _)). pose proof (skip_ws_length s). lia.
  - intros [v rest] _. cbn [fst snd]. destruct (skip_ws rest); discriminate.
Qed.

(* ================================================================== *)
(** ** Properties of the history *)
(* ================================================================== *)

Lemma filter_none (A : Type) (f : A -> bool) (l : list A) :
  (forall x, In x l -> f x = false) -> filter f l = [].
Proof.
  induction l as [|x l IH]; simpl; intros H; [reflexivity|].
  rewrite (H x) by tauto. apply IH. intros y Hy. apply H. tauto.
Qed.

Lemma evicted_same_keys (s s' : HistoryManager) :
  keys (history_data s') = keys (history_data s) -> evicted s s' = [].
Proof.
  intros H. unfold evicted. apply filter_none. intros k Hk.
  rewrite <- H in Hk. apply dict_mem_In in Hk. rewrite Hk. reflexivity.
Qed.

Lemma evicted_head (s s' : HistoryManager) (k0 k : str) (rest : list str) :
  NoDup (k0 :: rest) -> k <> k0 ->
  keys (history_data s) = k0 :: rest ->
  keys (history_data s') = rest ++ [k] ->
  evicted s s' = [k0].
Proof.
  intros Hnd Hne Hs Hs'. unfold evicted. rewrite Hs. simpl.
  inversion Hnd as [|? ? Hn _]; subst.
  assert (H0 : dict_mem (history_data s') k0 = false).
  { apply dict_mem_false. rewrite Hs'. intros H.
    apply in_app_or in H. destruct H as [H|[H|[]]]; [tauto|congruence]. }
  rewrite H0. simpl. f_equal. apply filter_none. intros x Hx.
  assert (H1 : dict_mem (history_data s') x = true).
  { apply dict_mem_In. rewrite Hs'. apply in_or_app. tauto. }
  rewrite H1. reflexivity.
Qed.

(** C1, as the claim states it, fails.  Twenty requests [/a] ... [/t] are
    recorded, then [/a] is recorded again, which moves it to rank 0; the
    entry at the highest rank is now [/b].  Recording the new [/u] evicts
    [/a], the entry at rank 0, and keeps [/b]. *)
Lemma C1_evicts_rerecorded_entry :
  let s := run (List.map record_call (sample_requests 20 ++ [sample_request 1])) in
  let s' := step s (record_call (sample_request 21)) in
  hd_error (ordered_keys s) = Some (Some (py "GET_/a")) /\
  last (ordered_keys s) None = Some (py "GET_/b") /\
  List.length (history_data s) = max_items /\
  evicted s s' = [py "GET_/a"] /\
  In (Some (py "GET_/b")) (ordered_keys s').
Proof. vm_compute. repeat split; auto 30. Qed.

(** C1, amended.  When a new fingerprint is recorded into a cache that holds
    [max_items] entries, exactly the first key of [history_data] is
    evicted: the entry created first among those present.  The dictionary
    then holds the later keys in their order followed by the new key, and
    the list box shows the new key on top of what it showed before, less
    the evicted key.  Re-recording a fingerprint moves its row to rank 0
    and leaves the order of the dictionary, hence the order of eviction,
    as it was. *)
Theorem C1_eviction_removes_first_created :
  forall (cs : list call) (m u : str) resp b h,
    u <> [] ->
    let s := run cs in
    let k := request_key_of m u in
    let s' := add_to_history s m u resp b h in
    (~ In k (keys (history_data s)) ->
     List.length (history_data s) = max_items ->
     exists k0 rest,
       keys (history_data s) = k0 :: rest /\
       keys (history_data s') = rest ++ [k] /\
       evicted s s' = [k0] /\
       ordered_keys s' = Some k :: filter (okey_neqb k0) (ordered_keys s)) /\
    (In k (keys (history_data s)) ->
     keys (history_data s') = keys (history_data s) /\
     evicted s s' = [] /\
     ordered_keys s' = Some k :: filter (okey_neqb k) (ordered_keys s)).
Proof.
  intros cs m u resp b h Hu s k s'.
  assert (W : wf s) by apply wf_run.
  split.
  - intros Hk Hlen.
    destruct (overflow_shown s m u resp b h W Hu Hk)
      as (k0 & rest & Hk0 & Hk' & Ho); [lia|].
    exists k0, rest. repeat split; try assumption.
    eapply evicted_head; try eassumption.
    + rewrite <- Hk0. apply (wf_keys _ W).
    + intros Heq. apply Hk. rewrite Hk0. left. symmetry. exact Heq.
  - intros Hk.
    destruct (rerecord_shown s m u resp b h W Hu Hk) as (Hk' & Ho & _).
    repeat split; try assumption.
    apply evicted_same_keys. exact Hk'.
Qed.

Lemma C1_eviction_removes_first_created_witness :
  let s := run (List.map record_call (sample_requests 20)) in
  let m := py "GET" in
  (let u := py "/u" in
   let s' := add_to_history s m u (sample_response 200) [] [] in
   exists k0 rest,
     keys (history_data s) = k0 :: rest /\
     keys (history_data s') = rest ++ [request_key_of m u] /\
     evicted s s' = [k0] /\
     ordered_keys s' =
       Some (request_key_of m u) :: filter (okey_neqb k0) (ordered_keys s)) /\
  (let u := py "/c" in
   let s' := add_to_history s m u (sample_response 404) [] [] in
   keys (history_data s') = keys (history_data s) /\
   evicted s s' = [] /\
   ordered_keys s' =
     Some (request_key_of m u)
       :: filter (okey_neqb (request_key_of m u)) (ordered_keys s)).
Proof.
  split.
  - refine (proj1 (C1_eviction_removes_first_created
                     (List.map record_call (sample_requests 20))
                     (py "GET") (py "/u") (sample_response 200) [] [] _) _ _).
    + discriminate.
    + vm_compute. intuition discriminate.
    + vm_compute. reflexivity.
  - refine (proj2 (C1_eviction_removes_first_created
                     (List.map record_call (sample_requests 20))
                     (py "GET") (py "/c") (sample_response 404) [] [] _) _).
    + discriminate.
    + vm_compute. auto 10.
Defined.

(** C2.  Recording the same method and url twice, whatever the two
    responses and whatever was recorded before, leaves one entry for the
    fingerprint in what the list box shows: it is the top row and it holds
    the second response.  In a new history the two calls leave that entry
    alone.  Three pairwise distinct fingerprints A, B, C recorded in that
    order into a new history are shown as C, B, A, and as A, C, B once A is
    recorded again. *)
Theorem C2_rerecord_single_entry_on_top :
  (forall (cs : list call) (m u : str) r1 b1 h1 r2 b2 h2,
     u <> [] ->
     let k := request_key_of m u in
     let s := run (cs ++ [Record_ m u r1 b1 h1; Record_ m u r2 b2 h2]) in
     exists rest e,
       ordered_keys s = Some k :: rest /\ ~ In (Some k) rest /\
       hd_error (ordered_view s) = Some (Some e) /\
       get_history_data s k = Some e /\
       it_response e = r2 /\
       (cs = [] -> rest = [] /\ ordered_view s = [Some e])) /\
  (forall (a b c : request) resp,
     rq_url a <> [] -> rq_url b <> [] -> rq_url c <> [] ->
     fingerprint a <> fingerprint b -> fingerprint a <> fingerprint c ->
     fingerprint b <> fingerprint c ->
     let s := run [record_call a; record_call b; record_call c] in
     ordered_keys s =
       [Some (fingerprint c); Some (fingerprint b); Some (fingerprint a)] /\
     ordered_keys
       (add_to_history s (rq_method a) (rq_url a) resp (rq_body a)
                       (rq_headers a)) =
       [Some (fingerprint a); Some (fingerprint c); Some (fingerprint b)]).
Proof.
  split.
  - intros cs m u r1 b1 h1 r2 b2 h2 Hu k s.
    assert (Hs : s = add_to_history
                       (run (cs ++ [Record_ m u r1 b1 h1])) m u r2 b2 h2).
    { unfold s. change [Record_ m u r1 b1 h1; Record_ m u r2 b2 h2]
        with ([Record_ m u r1 b1 h1] ++ [Record_ m u r2 b2 h2]).
      rewrite app_assoc, run_snoc. reflexivity. }
    set (s1 := run (cs ++ [Record_ m u r1 b1 h1])) in *.
    assert (W1 : wf s1) by apply wf_run.
    assert (Hin : In k (keys (history_data s1))).
    { unfold s1. rewrite run_snoc. simpl. apply add_present. exact Hu. }
    destruct (rerecord_shown s1 m u r2 b2 h2 W1 Hu Hin)
      as (_ & Ho & v & _ & Hg).
    fold k in Ho, Hg. rewrite <- Hs in Ho, Hg.
    exists (filter (okey_neqb k) (ordered_keys s1)), (with_response v r2).
    assert (Hview : hd_error (ordered_view s) = Some (Some (with_response v r2)))
      by (rewrite ordered_view_eq, Ho; simpl; rewrite Hg; reflexivity).
    repeat split.
    + exact Ho.
    + apply not_in_filter_okey.
    + exact Hview.
    + exact Hg.
    + subst cs.
      destruct (room_shown init m u r1 b1 h1 wf_init Hu) as [_ Ho1].
      { simpl. tauto. }
      { unfold max_items. simpl. lia. }
      change (ordered_keys s1 = Some k :: ordered_keys init) in Ho1.
      rewrite Ho1. simpl. rewrite str_eqb_refl. reflexivity.
    + subst cs.
      destruct (room_shown init m u r1 b1 h1 wf_init Hu) as [_ Ho1].
      { simpl. tauto. }
      { unfold max_items. simpl. lia. }
      change (ordered_keys s1 = Some k :: ordered_keys init) in Ho1.
      rewrite ordered_view_eq, Ho, Ho1. simpl. rewrite str_eqb_refl.
      simpl. rewrite Hg. reflexivity.
  - intros a b c resp Ha Hb Hc Hab Hac Hbc s.
    assert (H3 : 3 < max_items) by (unfold max_items; lia).
    assert (Hrun : s = run (List.map record_call [a; b; c])) by reflexivity.
    destruct (distinct_run [a; b; c]) as [Hk Ho].
    { repeat constructor; assumption. }
    { repeat constructor; simpl; intuition congruence. }
    rewrite <- Hrun in Hk, Ho. simpl in Hk, Ho.
    split; [exact Ho|].
    assert (W : wf s) by (rewrite Hrun; apply wf_run).
    destruct (rerecord_shown s (rq_method a) (rq_url a) resp (rq_body a)
                (rq_headers a) W Ha) as (_ & Ho' & _).
    { rewrite Hk. left. reflexivity. }
    rewrite Ho', Ho. simpl. fold (fingerprint a).
    rewrite str_eqb_refl.
    apply not_eq_sym in Hab, Hac.
    apply str_eqb_neq in Hab, Hac. rewrite Hab, Hac. reflexivity.
Qed.

Lemma C2_rerecord_single_entry_on_top_witness :
  (let k := request_key_of (py "POST") (py "/x") in
   let s := run (List.map record_call (sample_requests 5)
                 ++ [Record_ (py "POST") (py "/x") (sample_response 500) [] [];
                     Record_ (py "POST") (py "/x") (sample_response 200) [] []]) in
   exists rest e,
     ordered_keys s = Some k :: rest /\ ~ In (Some k) rest /\
     hd_error (ordered_view s) = Some (Some e) /\
     get_history_data s k = Some e /\
     it_response e = sample_response 200 /\
     (List.map record_call (sample_requests 5) = [] ->
      rest = [] /\ ordered_view s = [Some e])) /\
  (let s := run (List.map record_call (sample_requests 3)) in
   ordered_keys s =
     [Some (py "GET_/c"); Some (py "GET_/b"); Some (py "GET_/a")] /\
   ordered_keys (add_to_history s (py "GET") (py "/a") (sample_response 404)
                                [] []) =
     [Some (py "GET_/a"); Some (py "GET_/c"); Some (py "GET_/b")]).
Proof.
  split.
  - apply (proj1 C2_rerecord_single_entry_on_top
             (List.map record_call (sample_requests 5))
             (py "POST") (py "/x")). discriminate.
  - apply (proj2 C2_rerecord_single_entry_on_top
             (sample_request 1) (sample_request 2) (sample_request 3)
             (sample_response 404)); discriminate.
Defined.

(** C3.  Whatever calls are made, the dictionary and the list box never
    hold more than [max_items] = 20 entries.  When more than twenty
    requests with pairwise distinct fingerprints (and a url each) are
    recorded into a new history, the list box shows exactly twenty rows:
    the twenty fingerprints recorded last, the latest on top. *)
Theorem C3_cache_bound :
  max_items = 20 /\
  (forall cs : list call,
     List.length (history_data (run cs)) <= max_items /\
     List.length (ordered_view (run cs)) <= max_items) /\
  (forall rqs : list request,
     Forall (fun rq => rq_url rq <> []) rqs ->
     NoDup (List.map fingerprint rqs) ->
     max_items < List.length rqs ->
     let s := run (List.map record_call rqs) in
     List.length (ordered_view s) = max_items /\
     ordered_keys s =
       List.map Some (firstn max_items (rev (List.map fingerprint rqs)))).
Proof.
  split; [reflexivity|]. split.
  - intros cs. split; [apply length_run|].
    rewrite ordered_view_eq, length_map, length_ordered_keys by apply wf_run.
    apply length_run.
  - intros rqs Hu Hnd Hlen s.
    destruct (distinct_run rqs Hu Hnd) as [Hk Ho]. fold s in Hk, Ho.
    rewrite length_map in Hk, Ho.
    assert (Hfirst : firstn max_items (rev (List.map fingerprint rqs))
                     = rev (skipn (List.length rqs - max_items)
                                  (List.map fingerprint rqs))).
    { rewrite firstn_rev, length_map. reflexivity. }
    split.
    + rewrite ordered_view_eq, length_map, Ho, length_map, length_rev.
      rewrite length_skipn, length_map. lia.
    + rewrite Ho, Hfirst. reflexivity.
Qed.

Lemma distinctb_NoDup (l : list str) : distinctb l = true -> NoDup l.
Proof.
  induction l as [|x l IH]; simpl; intros H; constructor.
  - apply andb_true_iff in H. destruct H as [H _].
    apply negb_true_iff in H. intros Hin.
    assert (existsb (str_eqb x) l = true).
    { apply existsb_exists. exists x. split; [exact Hin|apply str_eqb_refl]. }
    congruence.
  - apply IH. apply andb_true_iff in H. tauto.
Qed.

Lemma C3_cache_bound_witness :
  let s := run (List.map record_call (sample_requests 23)) in
  List.length (ordered_view s) = max_items /\
  ordered_keys s =
    List.map Some
      (firstn max_items (rev (List.map fingerprint (sample_requests 23)))).
Proof.
  apply (proj2 (proj2 C3_cache_bound) (sample_requests 23)).
  - apply Forall_forall. intros rq Hrq.
    unfold sample_requests in Hrq. apply in_map_iff in Hrq.
    destruct Hrq as (i & <- & _). discriminate.
  - apply distinctb_NoDup. vm_compute. reflexivity.
  - vm_compute. lia.
Defined.

(** C9.  The key is [method ++ "_" ++ url], and two different pairs of
    method and url can give the same key: [("GET_a", "b")] and
    [("GET", "a_b")] both give ["GET_a_b"].  Whatever was recorded before,
    recording the second right after the first creates no entry: the keys
    of the dictionary stay as they are and the slot of the first call, with
    its method, url, body and headers, takes the response of the second.
    In a new history the two calls leave one entry. *)
Theorem C9_fingerprint_collision :
  request_key_of (py "GET_a") (py "b") = py "GET_a_b" /\
  request_key_of (py "GET") (py "a_b") = py "GET_a_b" /\
  (py "GET_a", py "b") <> (py "GET", py "a_b") /\
  (forall (cs : list call) r1 b1 h1 r2 b2 h2,
     let s1 := run (cs ++ [Record_ (py "GET_a") (py "b") r1 b1 h1]) in
     let s2 := add_to_history s1 (py "GET") (py "a_b") r2 b2 h2 in
     keys (history_data s2) = keys (history_data s1) /\
     exists e,
       get_history_data s1 (py "GET_a_b") = Some e /\
       get_history_data s2 (py "GET_a_b") = Some (with_response e r2)) /\
  (forall r1 b1 h1 r2 b2 h2,
     let s2 := run [Record_ (py "GET_a") (py "b") r1 b1 h1;
                    Record_ (py "GET") (py "a_b") r2 b2 h2] in
     ordered_keys s2 = [Some (py "GET_a_b")] /\
     exists e,
       history_data s2 = [(py "GET_a_b", e)] /\
       it_method e = py "GET_a" /\ it_url e = py "b" /\
       it_body e = b1 /\ it_headers e = h1 /\ it_response e = r2).
Proof.
  split; [reflexivity|]. split; [reflexivity|]. split; [discriminate|].
  split.
  - intros cs r1 b1 h1 r2 b2 h2 s1 s2.
    assert (W1 : wf s1) by apply wf_run.
    assert (Hin : In (request_key_of (py "GET") (py "a_b"))
                     (keys (history_data s1))).
    { unfold s1. rewrite run_snoc.
      change (request_key_of (py "GET") (py "a_b"))
        with (request_key_of (py "GET_a") (py "b")).
      simpl step. apply add_present. discriminate. }
    destruct (rerecord_shown s1 (py "GET") (py "a_b") r2 b2 h2 W1)
      as (Hk & _ & v & Hg1 & Hg2); [discriminate|exact Hin|].
    split; [exact Hk|]. exists v. split; assumption.
  - intros r1 b1 h1 r2 b2 h2 s2. split; [reflexivity|].
    eexists. split; [reflexivity|]. simpl. repeat split; reflexivity.
Qed.

(* ================================================================== *)
(** ** Properties of the formatter *)
(* ================================================================== *)

(** C10.  For every input, after every turn of the loop of
    [_simple_xml_format] and of [_simple_html_format] the indentation
    level is at least 0, and every line written so far is a whole,
    non-negative number of two-space units followed by a trimmed line of
    the input.  The two functions are total: they return the written lines
    joined by newlines, and [format_html] returns what
    [_simple_html_format] returns. *)
Theorem C10_indenters_keep_level_nonnegative :
  forall content : str,
    let lines :=
      split_lines
        (re_sub re_between_tags (py ">" ++ [NEWLINE] ++ py "<") content) in
    (forall n : nat,
       loop_ok (fold_left xml_line (firstn n lines) ([], 0%Z)) /\
       loop_ok (fold_left html_line (firstn n lines) ([], 0%Z))) /\
    (exists formatted level,
       fold_left xml_line lines ([], 0%Z) = (formatted, level) /\
       Forall indented formatted /\ (0 <= level)%Z /\
       _simple_xml_format content = join [NEWLINE] formatted) /\
    (exists formatted level,
       fold_left html_line lines ([], 0%Z) = (formatted, level) /\
       Forall indented formatted /\ (0 <= level)%Z /\
       _simple_html_format content = join [NEWLINE] formatted /\
       format_html content = join [NEWLINE] formatted).
Proof.
  intros content lines. split; [|split].
  - intros n. split; apply loop_ok_fold;
      auto using xml_line_ok, html_line_ok, loop_ok_start.
  - destruct (fold_left xml_line lines ([], 0%Z)) as [formatted level] eqn:E.
    exists formatted, level.
    pose proof (loop_ok_fold xml_line lines ([], 0%Z) xml_line_ok loop_ok_start)
      as [Hf Hl].
    fold lines in E. rewrite E in Hf, Hl. simpl in Hf, Hl.
    repeat split; try assumption.
    unfold _simple_xml_format. fold lines. rewrite E. reflexivity.
  - destruct (fold_left html_line lines ([], 0%Z)) as [formatted level] eqn:E.
    exists formatted, level.
    pose proof (loop_ok_fold html_line lines ([], 0%Z) html_line_ok loop_ok_start)
      as [Hf Hl].
    fold lines in E. rewrite E in Hf, Hl. simpl in Hf, Hl.
    repeat split; try assumption;
      unfold format_html, _simple_html_format; fold lines; rewrite E;
      reflexivity.
Qed.

(** Closing tags in excess are written at level 0. *)
Example excess_closing_tags :
  _simple_xml_format (py "</a></b><c><d/></c></c>")
  = join [NEWLINE] [py "</a>"; py "</b>"; py "<c>"; py "  <d/>"; py "</c>";
                    py "</c>"]
  /\ _simple_html_format (py "</div><p>x</p><br></div>")
     = join [NEWLINE] [py "</div>"; py "<p>x</p>"; py "<br>"; py "</div>"].
Proof. split; vm_compute; reflexivity. Qed.

(** With a hint that names json, [format_content] hands the trimmed text
    to [format_json] and keeps its answer unless it starts with the error
    marker. *)
Lemma format_content_json_hint (minidom : str -> option str)
    (content hint : str) :
  py_not (strip content) = false ->
  contains hint (py "json") = true ->
  startswith (format_json (strip content)) JSON_ERROR_MARKER = false ->
  format_content minidom content (Some hint) = format_json (strip content).
Proof.
  intros Hs Hj Hm. unfold format_content.
  assert (Hc : py_not content = false).
  { destruct content; [discriminate Hs|reflexivity]. }
  rewrite Hc, Hs. simpl orb. cbv iota.
  destruct hint as [|c t]; [discriminate Hj|].
  simpl truthy. cbv iota. rewrite Hj, Hm. reflexivity.
Qed.

(** C5.  On [{"a":1,"b":[1,2,]}] the first parse fails, the repair pass
    takes the comma before the closing bracket away, and [format_json]
    returns the text of the claim; so does [format_content] under every
    hint that names json. *)
Theorem C5_trailing_comma_repaired :
  let content := pyq "{'a':1,'b':[1,2,]}" in
  let expected :=
    join [NEWLINE]
         [pyq "{"; pyq "  'a': 1,"; pyq "  'b': ["; pyq "    1,";
          pyq "    2"; pyq "  ]"; pyq "}"] in
  json_loads content = Raise (JSONDecodeError (py "Expecting value") 2) /\
  re_sub re_comma_bracket (py "]") (re_sub re_comma_brace (py "}") content)
    = pyq "{'a':1,'b':[1,2]}" /\
  format_json content = expected /\
  forall (minidom : str -> option str) (hint : str),
    contains hint (py "json") = true ->
    format_content minidom content (Some hint) = expected.
Proof.
  cbv zeta. repeat split; try (vm_compute; reflexivity).
  intros minidom hint Hj. rewrite format_content_json_hint.
  - vm_compute. reflexivity.
  - vm_compute. reflexivity.
  - exact Hj.
  - vm_compute. reflexivity.
Qed.

Lemma C5_trailing_comma_repaired_witness :
  format_content minidom_rejects (pyq "{'a':1,'b':[1,2,]}")
                 (Some (py "application/json"))
  = join [NEWLINE]
         [pyq "{"; pyq "  'a': 1,"; pyq "  'b': ["; pyq "    1,";
          pyq "    2"; pyq "  ]"; pyq "}"].
Proof.
  apply (proj2 (proj2 (proj2 C5_trailing_comma_repaired))).
  vm_compute. reflexivity.
Defined.

(** C6.  [<note attr="1"><to>x</to></note>] meets every premise of the
    claim: it starts with [<], a tag name and white space, starts with none
    of the four fixed prefixes, holds an opening tag for the pattern of
    [open_tags], is no JSON and holds no HTML marker.  The last test of
    [xml_patterns] does not accept it, because its class [[>\\s]] holds a
    backslash and the letter s and no white space; the content is
    classified PLAIN and returned as it is.  With [>] right after the name
    the same content is XML. *)
Theorem C6_root_tag_with_attributes_is_plain :
  let content := pyq "<note attr='1'><to>x</to></note>" in
  (re_match [(Once, eqc "<"); (Once, alpha); (Star, alnum); (Once, isspace)]
            content = Some 6 /\
   existsb (startswith content)
           [py "<?xml"; py "<soap:"; py "<rss"; py "<feed"] = false /\
   re_search re_open_tag content = true /\
   _is_json content = false /\
   _is_html content = false) /\
  (re_match re_xml_root content = None /\
   _is_xml content = false /\
   detect content = PLAIN /\
   forall minidom : str -> option str,
     format_content minidom content None = content) /\
  detect (pyq "<note><to>x</to></note>") = XML.
Proof.
  cbv zeta. repeat split; try (vm_compute; reflexivity).
Qed.

(** What [format_content] returns for content it takes for plain text. *)
Lemma format_content_plain (minidom : str -> option str) (content : str) :
  detect (strip content) = PLAIN ->
  format_content minidom content None =
    if py_not (strip content) then content else strip content.
Proof.
  intros Hd. unfold format_content.
  destruct (py_not content) eqn:Hc.
  - destruct content; [reflexivity|discriminate Hc].
  - simpl orb. destruct (py_not (strip content)); [reflexivity|].
    simpl. rewrite Hd. reflexivity.
Qed.

(** Input that is empty or all white space is returned as it is. *)
Lemma format_content_blank (minidom : str -> option str) (blank : str)
    (hint : option str) :
  py_not (strip blank) = true -> format_content minidom blank hint = blank.
Proof.
  intros Hb. unfold format_content. rewrite Hb, orb_true_r. reflexivity.
Qed.

(** C8.  [" hello "] is classified PLAIN, and [format_content] returns
    ["hello"]: the text without its leading and trailing blank, not the
    input. *)
Theorem C8_plain_text_is_trimmed :
  let content := py " hello " in
  detect content = PLAIN /\
  detect (strip content) = PLAIN /\
  (forall minidom : str -> option str,
     format_content minidom content None = py "hello") /\
  py "hello" <> content.
Proof.
  cbv zeta. repeat split; try (vm_compute; reflexivity). discriminate.
Qed.

(** C4.  On [{"a":1,} x] both parses fail, and [format_json] returns the
    marker and the message of the first parse followed by the text as the
    repair pass left it, [{"a":1} x], not by the input. *)
Theorem C4_error_text_follows_repaired_content :
  let content := pyq "{'a':1,} x" in
  let message :=
    py "Expecting property name enclosed in double quotes: line 1 column 8 (char 7)" in
  (exists e, json_loads content = Raise e /\ str_of_exn content e = message) /\
  (exists e, json_loads (pyq "{'a':1} x") = Raise e) /\
  format_json content
    = py "/* JSON Format Error: " ++ message ++ py " */" ++ [NEWLINE]
         ++ pyq "{'a':1} x" /\
  format_json content
    <> py "/* JSON Format Error: " ++ message ++ py " */" ++ [NEWLINE]
          ++ content.
Proof.
  cbv zeta. split; [|split; [|split]].
  - eexists. split; vm_compute; reflexivity.
  - eexists. vm_compute. reflexivity.
  - vm_compute. reflexivity.
  - vm_compute. discriminate.
Qed.

(** C7, as the claim states it, fails.  ["<div>  a"] (with its quotes) is
    a JSON string.  It has neither the shape of an object nor of an array,
    so it is not taken for JSON; it holds [<div], so it is taken for HTML.
    [minify_content] folds the two blanks into one, [format_content] keeps
    them, and the two results parse to different strings.  The XML branch
    is not entered, so the stand-in for [minidom] plays no part. *)
Lemma C7_html_like_json_string :
  let x := pyq "'<div>  a'" in
  json_loads x = Ok (JStr (py "<div>  a")) /\
  json_loads (minify_content x None) = Ok (JStr (py "<div> a")) /\
  json_loads (format_content minidom_rejects x None)
    = Ok (JStr (py "<div>  a")) /\
  json_loads (minify_content x None)
    <> json_loads (format_content minidom_rejects x None).
Proof.
  cbv zeta. repeat split; try (vm_compute; reflexivity).
  vm_compute. discriminate.
Qed.

(* ================================================================== *)
(** ** Minifying and formatting JSON *)
(* ================================================================== *)

Lemma is_json_scalar (pre : str) (v : json) :
  Value pre v -> container v = false -> strip pre = pre ->
  _is_json pre = false.
Proof.
  intros HV Hc Hs. unfold _is_json. rewrite Hs.
  destruct (scalar_not_bracket pre v HV Hc) as [-> ->].
  destruct (py_not pre); reflexivity.
Qed.

Lemma is_xml_value (pre : str) (v : json) :
  Value pre v -> strip pre = pre -> _is_xml pre = false.
Proof.
  intros HV Hs. unfold _is_xml. rewrite Hs.
  destruct (Value_start pre v HV) as (c & t & -> & Hc).
  cbn [py_not]. rewrite (value_start_not_xml c Hc t). reflexivity.
Qed.

Lemma is_json_strip (x : str) : strip (strip x) = strip x -> _is_json (strip x) = _is_json x.
Proof. intros H. unfold _is_json. rewrite H. reflexivity. Qed.

Lemma is_xml_strip (x : str) : strip (strip x) = strip x -> _is_xml (strip x) = _is_xml x.
Proof. intros H. unfold _is_xml. rewrite H. reflexivity. Qed.

(** C7, amended.  Let [x] parse as JSON to the value [v], and let [v] be an
    object or an array, or [x] hold none of the HTML markers.  Then what
    [minify_content] and what [format_content] return for [x] without a
    hint both parse to [v]. *)
Theorem C7_minify_format_agree_on_structure :
  forall (minidom : str -> option str) (x : str) (v : json),
    json_loads x = Ok v ->
    container v = true \/ _is_html x = false ->
    json_loads (minify_content x None) = Ok v /\
    json_loads (format_content minidom x None) = Ok v.
Proof.
  intros minidom x v Hload Hkind.
  destruct (loads_Ok x v Hload) as (w0 & pre & w1 & Hx & H0 & HV & H1).
  pose proof (proj1 decoded_wf pre v HV) as Hwf.
  destruct (strip_value w0 pre w1 v H0 HV H1) as (Hsx & Hsp & Hne).
  rewrite <- Hx in Hsx.
  assert (Hpre : json_loads pre = Ok v).
  { pose proof (loads_text [] pre [] v all_ws_nil HV all_ws_nil) as H.
    cbn [app] in H. rewrite List.app_nil_r in H. exact H. }
  assert (Hnx : py_not x = false).
  { destruct x; [|reflexivity]. destruct w0; [|discriminate Hx].
    destruct pre; [congruence|discriminate Hx]. }
  assert (Hnp : py_not pre = false) by (destruct pre; [congruence|reflexivity]).
  assert (Hss : strip (strip x) = strip x) by (rewrite Hsx; exact Hsp).
  unfold minify_content, format_content.
  rewrite Hnx, Hsx, Hnp. cbn [orb truthy]. unfold detect.
  destruct (container v) eqn:Hc.
  - (* an object or an array *)
    assert (Hj : _is_json x = true)
      by (eapply is_json_container; eassumption).
    assert (Hjp : _is_json pre = true)
      by (rewrite <- Hsx, is_json_strip; assumption).
    rewrite Hj, Hjp. cbn [orb]. rewrite Hload.
    unfold format_json. rewrite Hpre.
    split; [apply loads_dumps_compact|apply loads_dumps_indent2]; exact Hwf.
  - (* a scalar without HTML markers *)
    destruct Hkind as [Hk|Hh]; [discriminate Hk|].
    assert (Hjp : _is_json pre = false) by (eapply is_json_scalar; eassumption).
    assert (Hxp : _is_xml pre = false) by (eapply is_xml_value; eassumption).
    assert (Hhp : _is_html pre = false).
    { rewrite (is_html_between w0 pre w1 v H0 HV H1), <- Hx. exact Hh. }
    assert (Hj : _is_json x = false)
      by (rewrite <- is_json_strip, Hsx; assumption).
    assert (Hxx : _is_xml x = false)
      by (rewrite <- is_xml_strip, Hsx; assumption).
    rewrite Hj, Hxx, Hh, Hjp, Hxp, Hhp. cbn [orb].
    split; assumption.
Qed.

Lemma C7_minify_format_agree_on_structure_witness :
  (let x := pyq " {'a': [1, -2.5e3, 'x\ny'], 'b': {'c': null}} " in
   exists v,
     json_loads x = Ok v /\
     json_loads (minify_content x None) = Ok v /\
     json_loads (format_content minidom_rejects x None) = Ok v) /\
  (let x := pyq " 'plain  text' " in
   exists v,
     json_loads x = Ok v /\
     json_loads (minify_content x None) = Ok v /\
     json_loads (format_content minidom_rejects x None) = Ok v).
Proof.
  split.
  - eexists. split; [vm_compute; reflexivity|].
    apply C7_minify_format_agree_on_structure.
    + vm_compute. reflexivity.
    + left. reflexivity.
  - eexists. split; [vm_compute; reflexivity|].
    apply C7_minify_format_agree_on_structure.
    + vm_compute. reflexivity.
    + right. vm_compute. reflexivity.
Defined.

(* ================================================================== *)
(** ** Further properties of the history *)
(* ================================================================== *)

Section DictOtherKeys.
Variable V : Type.
Implicit Types (d : dict V) (k : str) (v : V).

Lemma dict_get_del_other d k k' :
  k' <> k -> dict_get (dict_del d k) k' = dict_get d k'.
Proof.
  intros Hne. induction d as [|[k1 v1] d IH]; simpl; [reflexivity|].
  destruct (str_eqb k1 k) eqn:E.
  - apply str_eqb_eq in E. subst k1.
    destruct (str_eqb k k') eqn:E'; [|reflexivity].
    apply str_eqb_eq in E'. congruence.
  - simpl. rewrite IH. reflexivity.
Qed.

Lemma dict_get_del_same d k :
  NoDup (keys d) -> dict_get (dict_del d k) k = None.
Proof.
  intros Hnd. apply dict_get_None.
  induction d as [|[k1 v1] d IH]; simpl in *; [tauto|].
  inversion Hnd as [|? ? Hn Hnd']; subst.
  destruct (str_eqb k1 k) eqn:E.
  - apply str_eqb_eq in E. subst k1. exact Hn.
  - apply str_eqb_neq in E. simpl. intros [H|H]; [congruence|].
    apply IH; assumption.
Qed.

Lemma dict_get_set_other d k k' v :
  k' <> k -> dict_get (dict_set d k v) k' = dict_get d k'.
Proof.
  intros Hne. induction d as [|[k1 v1] d IH]; simpl.
  - destruct (str_eqb k k') eqn:E; [|reflexivity].
    apply str_eqb_eq in E. congruence.
  - destruct (str_eqb k1 k) eqn:E; simpl.
    + apply str_eqb_eq in E. subst k1.
      destruct (str_eqb k k') eqn:E'; [|reflexivity].
      apply str_eqb_eq in E'. congruence.
    + rewrite IH. reflexivity.
Qed.

Lemma dict_get_set_same d k v : dict_get (dict_set d k v) k = Some v.
Proof.
  induction d as [|[k1 v1] d IH]; simpl.
  - rewrite str_eqb_refl. reflexivity.
  - destruct (str_eqb k1 k) eqn:E; simpl; rewrite E; [reflexivity|exact IH].
Qed.

Lemma Forall_dict_del (P : str * V -> Prop) d k :
  Forall P d -> Forall P (dict_del d k).
Proof.
  induction d as [|[k1 v1] d IH]; simpl; intros H; [constructor|].
  inversion H; subst.
  destruct (str_eqb k1 k); [assumption|]. constructor; auto.
Qed.

Lemma Forall_dict_set_pair (P : str * V -> Prop) d k v :
  Forall P d -> P (k, v) -> Forall P (dict_set d k v).
Proof.
  induction d as [|[k1 v1] d IH]; simpl; intros H Hv.
  - constructor; [exact Hv|constructor].
  - inversion H; subst. destruct (str_eqb k1 k) eqn:E.
    + apply str_eqb_eq in E. subst k1. constructor; assumption.
    + constructor; auto.
Qed.
End DictOtherKeys.

(** *** Reading [history_data] after one call *)

Lemma get_remove_other (s : HistoryManager) (k k' : str) :
  k' <> k ->
  get_history_data (remove_history_item s k) k' = get_history_data s k'.
Proof.
  intros Hne. unfold get_history_data, remove_history_item.
  destruct (dict_get (history_data s) k); [|reflexivity].
  simpl. apply dict_get_del_other. exact Hne.
Qed.

Lemma get_remove_same (s : HistoryManager) (k : str) :
  wf s -> get_history_data (remove_history_item s k) k = None.
Proof.
  intros W. unfold get_history_data, remove_history_item.
  destruct (dict_get (history_data s) k) eqn:E; [|exact E].
  simpl. apply dict_get_del_same. apply (wf_keys _ W).
Qed.

Lemma get_update_other (s : HistoryManager) (k k' : str) resp :
  k' <> k ->
  get_history_data (_update_history_item s k resp) k' = get_history_data s k'.
Proof.
  intros Hne. unfold get_history_data, _update_history_item.
  destruct (dict_get (history_data s) k); [|reflexivity].
  simpl. apply dict_get_set_other. exact Hne.
Qed.

Lemma get_inserted_other (s : HistoryManager) (k k' m u : str) resp b h :
  k' <> k ->
  get_history_data (inserted s k m u resp b h) k' = get_history_data s k'.
Proof.
  intros Hne. unfold get_history_data, inserted. simpl.
  induction (history_data s) as [|[k1 v1] d IH]; simpl.
  - destruct (str_eqb k k') eqn:E; [|reflexivity].
    apply str_eqb_eq in E. congruence.
  - destruct (str_eqb k1 k'); [reflexivity|exact IH].
Qed.

Lemma get_inserted_same (s : HistoryManager) (k m u : str) resp b h :
  ~ In k (keys (history_data s)) ->
  exists e,
    get_history_data (inserted s k m u resp b h) k = Some e /\
    it_method e = m /\ it_url e = u /\ it_response e = resp /\
    it_body e = b /\ it_headers e = h.
Proof.
  intros Hk. unfold get_history_data, inserted. simpl.
  eexists. split.
  - apply dict_get_at. exact Hk.
  - simpl. repeat split; reflexivity.
Qed.

(** The keys of a non-empty url as they are told apart. *)
Lemma key_cases (s : HistoryManager) (k : str) :
  In k (keys (history_data s)) \/ ~ In k (keys (history_data s)).
Proof.
  destruct (dict_mem (history_data s) k) eqn:E.
  - left. apply dict_mem_In. exact E.
  - right. apply dict_mem_false. exact E.
Qed.

Lemma full_head (s : HistoryManager) :
  max_items <= List.length (history_data s) ->
  exists k0 v0 d, history_data s = (k0, v0) :: d.
Proof.
  unfold max_items. destruct (history_data s) as [|[k0 v0] d]; simpl.
  - lia.
  - intros _. exists k0, v0, d. reflexivity.
Qed.

Lemma clear_from (d : dict item) :
  forall s, wf s -> history_data s = d ->
    history_data (fold_left remove_history_item (keys d) s) = [] /\
    wf (fold_left remove_history_item (keys d) s) /\
    next_row (fold_left remove_history_item (keys d) s) = next_row s.
Proof.
  induction d as [|[k v] d IH]; intros s W Hd; simpl.
  - auto.
  - destruct (remove_oldest_head s k v d Hd) as [_ Hd'].
    destruct (IH (remove_history_item s k)
                 (wf_remove_history_item s k W) Hd') as (H1 & H2 & H3).
    split; [exact H1|]. split; [exact H2|].
    rewrite H3. unfold remove_history_item.
    destruct (dict_get (history_data s) k); reflexivity.
Qed.

(** X1.  [clear_history], after any calls, leaves nothing: the dictionary is
    empty and the list box has no row, so the ordered view is empty. *)
Theorem clear_history_empties :
  forall cs : list call,
    let s := clear_history (run cs) in
    history_data s = [] /\ history_list s = [] /\ ordered_view s = [] /\
    run (cs ++ [Clear]) = s.
Proof.
  intros cs s.
  destruct (clear_from (history_data (run cs)) (run cs) (wf_run cs) eq_refl)
    as (Hd & W & _).
  fold (clear_history (run cs)) in Hd, W. fold s in Hd, W.
  assert (Hl : history_list s = []).
  { pose proof (wf_list _ W) as P. rewrite Hd in P. simpl in P.
    apply Permutation_sym, Permutation_nil in P. exact P. }
  split; [exact Hd|]. split; [exact Hl|]. split.
  - unfold ordered_view. rewrite Hl. reflexivity.
  - rewrite run_snoc. reflexivity.
Qed.

Lemma ordered_keys_present (s : HistoryManager) (o : option str) :
  wf s -> In o (ordered_keys s) ->
  exists k, o = Some k /\ In k (keys (history_data s)).
Proof.
  intros W Ho. rewrite ordered_keys_eq in Ho. apply in_map_iff in Ho.
  destruct Ho as (r & <- & Hr).
  apply (Permutation_in _ (wf_list _ W)) in Hr.
  unfold rows in Hr. apply in_map_iff in Hr. destruct Hr as ([k v] & <- & Hkv).
  simpl. apply in_split in Hkv. destruct Hkv as (d1 & d2 & Hd).
  rewrite Hd. exists k. split.
  - apply key_of_row_self. rewrite <- Hd. apply (wf_rows _ W).
  - rewrite keys_app. apply in_or_app. right. left. reflexivity.
Qed.

(** X2.  [remove_history_item], after any calls: a key that is not held leaves
    the manager as it is; a key that is held is gone from the dictionary
    and from what the list box shows, and every other entry and the order
    of the rows stay as they were. *)
Theorem remove_history_item_takes_one :
  forall (cs : list call) (k : str),
    let s := run cs in
    let s' := remove_history_item s k in
    (get_history_data s k = None -> s' = s) /\
    get_history_data s' k = None /\
    (forall k', k' <> k -> get_history_data s' k' = get_history_data s k') /\
    ordered_keys s' = filter (okey_neqb k) (ordered_keys s) /\
    ~ In (Some k) (ordered_keys s').
Proof.
  intros cs k s s'. assert (W : wf s) by apply wf_run.
  assert (Ho : ordered_keys s' = filter (okey_neqb k) (ordered_keys s)).
  { destruct (key_cases s k) as [Hk|Hk].
    - apply ordered_keys_remove; assumption.
    - assert (Hs : s' = s).
      { unfold s', remove_history_item.
        apply (dict_get_None _ (history_data s) k) in Hk.
        rewrite Hk. reflexivity. }
      rewrite Hs. symmetry. apply forallb_filter_id.
      apply forallb_forall. intros o Hin.
      destruct (ordered_keys_present s o W Hin) as (k' & -> & Hk').
      simpl. apply negb_true_iff. apply str_eqb_neq. congruence. }
  repeat split.
  - intros Hn. unfold s', remove_history_item.
    unfold get_history_data in Hn. rewrite Hn. reflexivity.
  - apply get_remove_same. exact W.
  - intros k' Hne. apply get_remove_other. exact Hne.
  - exact Ho.
  - rewrite Ho. apply not_in_filter_okey.
Qed.

Lemma map_key_of_row_rows (d : dict item) :
  NoDup (rows d) ->
  List.map (key_of_row d) (rows d) = List.map Some (keys d).
Proof.
  intros Hnd.
  assert (H : forall d1 d2, d = d1 ++ d2 ->
            List.map (key_of_row d) (rows d2) = List.map Some (keys d2)).
  { intros d1 d2. revert d1. induction d2 as [|[k v] d2 IH]; intros d1 Hd.
    - reflexivity.
    - simpl. f_equal.
      + rewrite Hd. apply key_of_row_self. rewrite <- Hd. exact Hnd.
      + apply (IH (d1 ++ [(k, v)])). rewrite <- app_assoc. exact Hd. }
  apply (H [] d). reflexivity.
Qed.

(** X3.  After any calls the list box and the dictionary agree: no row is shown
    twice, there is one row for each entry, and the rows resolve, through
    [get_request_key_from_row], to exactly the keys of the dictionary. *)
Theorem list_box_shows_the_dictionary :
  forall cs : list call,
    let s := run cs in
    NoDup (keys (history_data s)) /\
    NoDup (history_list s) /\
    List.length (history_list s) = List.length (history_data s) /\
    Permutation (ordered_keys s) (List.map Some (keys (history_data s))).
Proof.
  intros cs s. assert (W : wf s) by apply wf_run.
  repeat split.
  - apply (wf_keys _ W).
  - apply wf_NoDup_list. exact W.
  - rewrite (Permutation_length (wf_list _ W)). unfold rows.
    apply length_map.
  - rewrite ordered_keys_eq.
    rewrite <- (map_key_of_row_rows _ (wf_rows _ W)).
    apply Permutation_map. apply (wf_list _ W).
Qed.

(** X4.  Rows and keys name each other, after any calls: the row of the entry
    held under a key resolves to that key and is in the list box; a row
    that resolves to a key is the row of the entry held under it; a row
    that is not in the list box resolves to no key. *)
Theorem row_and_key_name_each_other :
  forall cs : list call,
    let s := run cs in
    (forall k e, get_history_data s k = Some e ->
       get_request_key_from_row s (it_row e) = Some k /\
       In (it_row e) (history_list s)) /\
    (forall r k, get_request_key_from_row s r = Some k ->
       exists e, get_history_data s k = Some e /\ it_row e = r) /\
    (forall r, ~ In r (history_list s) -> get_request_key_from_row s r = None).
Proof.
  intros cs s. assert (W : wf s) by apply wf_run.
  repeat split.
  - destruct (dict_get_split _ _ _ _ H) as (d1 & d2 & Hd & _).
    change (key_of_row (history_data s) (it_row e) = Some k).
    rewrite Hd. apply key_of_row_self. rewrite <- Hd. apply (wf_rows _ W).
  - pose proof (Permutation_sym (wf_list _ W)) as P.
    apply (Permutation_in _ P). apply dict_get_In in H.
    unfold rows. apply in_map_iff. exists (k, e). auto.
  - intros r k H. change (key_of_row (history_data s) r = Some k) in H.
    destruct (key_of_row_In _ _ _ H) as (v & Hin & Hr).
    exists v. split; [|exact Hr].
    apply in_split in Hin. destruct Hin as (d1 & d2 & Hd).
    unfold get_history_data.
    destruct (dict_get (history_data s) k) as [v'|] eqn:E.
    + f_equal. apply dict_get_In in E.
      apply (NoDup_keys_fun (history_data s) k); try assumption.
      * apply (wf_keys _ W).
      * rewrite Hd. apply in_or_app. right. left. reflexivity.
    + apply dict_get_None in E. exfalso. apply E. rewrite Hd, keys_app.
      apply in_or_app. right. left. reflexivity.
  - intros r Hr. change (key_of_row (history_data s) r = None).
    destruct (key_of_row (history_data s) r) as [k|] eqn:E; [|reflexivity].
    destruct (key_of_row_In _ _ _ E) as (v & Hin & Hv). exfalso. apply Hr.
    pose proof (Permutation_sym (wf_list _ W)) as P.
    apply (Permutation_in _ P). unfold rows. apply in_map_iff.
    exists (k, v). auto.
Qed.

Lemma consistent_remove (s : HistoryManager) (k : str) :
  Forall entry_consistent (history_data s) ->
  Forall entry_consistent (history_data (remove_history_item s k)).
Proof.
  intros H. unfold remove_history_item.
  destruct (dict_get (history_data s) k); [|exact H].
  simpl. apply Forall_dict_del. exact H.
Qed.

Lemma consistent_clear (s : HistoryManager) :
  Forall entry_consistent (history_data s) ->
  Forall entry_consistent (history_data (clear_history s)).
Proof.
  unfold clear_history. generalize (keys (history_data s)) as ks.
  intros ks. revert s. induction ks as [|k ks IH]; intros s H; simpl.
  - exact H.
  - apply IH. apply consistent_remove. exact H.
Qed.

Lemma consistent_update (s : HistoryManager) (k : str) resp :
  Forall entry_consistent (history_data s) ->
  Forall entry_consistent (history_data (_update_history_item s k resp)).
Proof.
  intros H. unfold _update_history_item.
  destruct (dict_get (history_data s) k) as [data|] eqn:E; [|exact H].
  simpl. apply Forall_dict_set_pair; [exact H|].
  apply dict_get_In in E.
  pose proof (proj1 (Forall_forall _ _) H _ E) as (H1 & H2 & H3 & H4).
  simpl in *. unfold entry_consistent. simpl. auto.
Qed.

Lemma consistent_create (s : HistoryManager) (m u : str) resp b h :
  u <> [] ->
  Forall entry_consistent (history_data s) ->
  Forall entry_consistent
    (history_data (_create_history_item s (request_key_of m u) m u resp b h)).
Proof.
  intros Hu H. unfold _create_history_item.
  match goal with
  | |- context [if ?c then _ else _] => destruct c
  end.
  - unfold _remove_oldest_item.
    match goal with
    | |- context [match ?ks with [] => _ | _ => _ end] => destruct ks
    end.
    + simpl. apply Forall_dict_set_pair; [exact H|].
      unfold entry_consistent. simpl. auto.
    + apply consistent_remove. simpl. apply Forall_dict_set_pair; [exact H|].
      unfold entry_consistent. simpl. auto.
  - simpl. apply Forall_dict_set_pair; [exact H|].
    unfold entry_consistent. simpl. auto.
Qed.

Lemma consistent_step (s : HistoryManager) (c : call) :
  Forall entry_consistent (history_data s) ->
  Forall entry_consistent (history_data (step s c)).
Proof.
  intros H. destruct c as [m u resp b h|k|]; simpl.
  - unfold add_to_history. destruct u as [|c u]; [exact H|]. simpl py_not.
    cbv iota. cbv zeta.
    destruct (dict_mem (history_data s) (request_key_of m (c :: u))).
    + apply consistent_update. exact H.
    + apply consistent_create; [discriminate|exact H].
  - apply consistent_remove. exact H.
  - apply consistent_clear. exact H.
Qed.

Lemma consistent_run (cs : list call) :
  Forall entry_consistent (history_data (run cs)).
Proof.
  induction cs as [|c cs IH] using rev_ind.
  - constructor.
  - rewrite run_snoc. apply consistent_step. exact IH.
Qed.



(** X6.  Recording a key that is held changes the response of its entry and
    nothing else of it: the method, url, request body and headers stored
    stay those of the call that created the entry, and the body and
    headers passed now are dropped.  No entry is added or evicted. *)
Theorem rerecord_keeps_the_first_request :
  forall (cs : list call) (m u : str) resp b h (e : item),
    u <> [] ->
    get_history_data (run cs) (request_key_of m u) = Some e ->
    let s' := add_to_history (run cs) m u resp b h in
    exists e',
      get_history_data s' (request_key_of m u) = Some e' /\
      it_response e' = resp /\
      it_subtitle_label e' = subtitle_of resp /\
      it_method e' = it_method e /\ it_url e' = it_url e /\
      it_body e' = it_body e /\ it_headers e' = it_headers e /\
      it_row e' = it_row e /\
      keys (history_data s') = keys (history_data (run cs)).
Proof.
  intros cs m u resp b h e Hu He s'.
  assert (Hin : In (request_key_of m u) (keys (history_data (run cs)))).
  { apply dict_get_In in He. apply (in_map fst) in He. exact He. }
  destruct (rerecord_shown (run cs) m u resp b h (wf_run cs) Hu Hin)
    as (Hk & _ & v & Hv & Hv').
  rewrite He in Hv. injection Hv as <-.
  exists (with_response e resp). fold s' in Hv', Hk.
  repeat split; assumption || reflexivity.
Qed.

Lemma rerecord_keeps_the_first_request_witness :
  let cs := [Record_ (py "POST") (py "/x") (sample_response 500)
                     (py "old body") [(py "A", py "1")]] in
  exists e',
    get_history_data
      (add_to_history (run cs) (py "POST") (py "/x") (sample_response 200)
                      (py "new body") [])
      (py "POST_/x") = Some e' /\
    it_response e' = sample_response 200 /\
    it_subtitle_label e' = subtitle_of (sample_response 200) /\
    it_method e' = py "POST" /\ it_url e' = py "/x" /\
    it_body e' = py "old body" /\ it_headers e' = [(py "A", py "1")] /\
    it_row e' = 0 /\
    keys (history_data
            (add_to_history (run cs) (py "POST") (py "/x")
                            (sample_response 200) (py "new body") []))
      = keys (history_data (run cs)).
Proof.
  refine (rerecord_keeps_the_first_request
            [Record_ (py "POST") (py "/x") (sample_response 500)
                     (py "old body") [(py "A", py "1")]]
            (py "POST") (py "/x") (sample_response 200) (py "new body") []
            {| it_method := py "POST"; it_url := py "/x";
               it_response := sample_response 500;
               it_body := py "old body"; it_headers := [(py "A", py "1")];
               it_row := 0; it_title_label := (py "POST", py "/x");
               it_subtitle_label := subtitle_of (sample_response 500) |}
            _ _).
  - discriminate.
  - vm_compute. reflexivity.
Defined.

(** X7.  What is recorded can be read back: after [add_to_history] with a url,
    whatever the history held and also when an entry had to be evicted,
    the key of the call is held, its entry has the response just passed,
    and its row is the top row of the list box. *)
Theorem recorded_response_is_read_back :
  forall (cs : list call) (m u : str) resp b h,
    u <> [] ->
    let k := request_key_of m u in
    let s' := add_to_history (run cs) m u resp b h in
    exists e,
      get_history_data s' k = Some e /\
      it_response e = resp /\
      hd_error (ordered_keys s') = Some (Some k) /\
      hd_error (ordered_view s') = Some (Some e) /\
      (get_history_data (run cs) k = None ->
       it_method e = m /\ it_url e = u /\ it_body e = b /\ it_headers e = h).
Proof.
  intros cs m u resp b h Hu k s'. set (s := run cs) in *.
  assert (W : wf s) by apply wf_run.
  assert (Hview : forall e l,
            get_history_data s' k = Some e -> ordered_keys s' = Some k :: l ->
            hd_error (ordered_view s') = Some (Some e)).
  { intros e l He Ho. rewrite ordered_view_eq, Ho. simpl. rewrite He.
    reflexivity. }
  destruct (key_cases s k) as [Hk|Hk].
  - destruct (rerecord_shown s m u resp b h W Hu Hk) as (_ & Ho & v & Hv & Hv').
    fold k s' in Ho, Hv'. exists (with_response v resp).
    split; [exact Hv'|]. split; [reflexivity|]. split; [rewrite Ho; reflexivity|].
    split; [eapply Hview; eassumption|].
    intros Hn. fold k in Hv. unfold s in Hn. fold s in Hn. congruence.
  - destruct (get_inserted_same s k m u resp b h Hk)
      as (e & He & Hm & Hu' & Hr & Hb & Hh).
    assert (Hget : get_history_data s' k = Some e /\
                   exists l, ordered_keys s' = Some k :: l).
    { destruct (Nat.lt_ge_cases (List.length (history_data s)) max_items)
        as [Hlt|Hge].
      - destruct (room_shown s m u resp b h W Hu Hk Hlt) as [_ Ho].
        fold k s' in Ho. split; [|eauto].
        unfold s'. rewrite add_new_room; try assumption.
        apply py_not_false. exact Hu.
      - destruct (overflow_shown s m u resp b h W Hu Hk Hge)
          as (k0 & rest & Hk0 & _ & Ho).
        fold k s' in Ho. split; [|eauto].
        destruct (full_head s Hge) as (k0' & v0 & d & Hd).
        unfold s'. rewrite (add_new_full s m u resp b h k0' v0 d);
          try assumption; [|apply py_not_false; exact Hu].
        fold k. rewrite get_remove_other; [exact He|].
        intros Heq. apply Hk. rewrite Hd. left. simpl. congruence. }
    destruct Hget as [Hg [l Ho]].
    exists e. split; [exact Hg|]. split; [exact Hr|].
    split; [rewrite Ho; reflexivity|]. split; [eapply Hview; eassumption|].
    intros _. auto.
Qed.

Lemma recorded_response_is_read_back_witness :
  let cs := List.map record_call (sample_requests 20) in
  let k := request_key_of (py "PUT") (py "/new") in
  let s' := add_to_history (run cs) (py "PUT") (py "/new")
                           (sample_response 201) (py "body") [] in
  exists e,
    get_history_data s' k = Some e /\
    it_response e = sample_response 201 /\
    hd_error (ordered_keys s') = Some (Some k) /\
    hd_error (ordered_view s') = Some (Some e) /\
    (get_history_data (run cs) k = None ->
     it_method e = py "PUT" /\ it_url e = py "/new" /\
     it_body e = py "body" /\ it_headers e = []).
Proof.
  apply (recorded_response_is_read_back
           (List.map record_call (sample_requests 20))
           (py "PUT") (py "/new") (sample_response 201) (py "body") []).
  discriminate.
Defined.

(** X8.  Recording one request does not touch the entries of other keys: an
    entry read under another key after the call was there, the same,
    before it; and while the history holds fewer than [max_items] entries,
    or the key of the call is already held, every other key reads as
    before. *)
Theorem recording_leaves_other_entries :
  forall (cs : list call) (m u : str) resp b h (k' : str),
    k' <> request_key_of m u ->
    let s := run cs in
    let s' := add_to_history s m u resp b h in
    (forall e', get_history_data s' k' = Some e' ->
                get_history_data s k' = Some e') /\
    (List.length (history_data s) < max_items \/
     In (request_key_of m u) (keys (history_data s)) ->
     get_history_data s' k' = get_history_data s k').
Proof.
  intros cs m u resp b h k' Hne s s'.
  assert (W : wf s) by apply wf_run.
  destruct u as [|c u]; [split; intros; assumption || reflexivity|].
  assert (Hu : py_not (c :: u) = false) by reflexivity.
  set (k := request_key_of m (c :: u)) in *.
  destruct (key_cases s k) as [Hk|Hk].
  - assert (E : get_history_data s' k' = get_history_data s k').
    { unfold s'. rewrite add_existing by assumption.
      apply get_update_other. exact Hne. }
    rewrite E. auto.
  - destruct (Nat.lt_ge_cases (List.length (history_data s)) max_items)
      as [Hlt|Hge].
    + assert (E : get_history_data s' k' = get_history_data s k').
      { unfold s'. rewrite add_new_room by assumption.
        apply get_inserted_other. exact Hne. }
      rewrite E. auto.
    + destruct (full_head s Hge) as (k0 & v0 & d & Hd).
      assert (E : s' = remove_history_item
                         (inserted s k m (c :: u) resp b h) k0).
      { apply add_new_full with (v0 := v0) (d := d); assumption. }
      split.
      * intros e' He'. rewrite E in He'.
        destruct (str_eqb k' k0) eqn:Ek.
        -- apply str_eqb_eq in Ek. subst k'.
           rewrite get_remove_same in He'; [discriminate|].
           apply wf_inserted; assumption.
        -- apply str_eqb_neq in Ek. rewrite get_remove_other in He' by exact Ek.
           rewrite get_inserted_other in He' by exact Hne. exact He'.
      * intros [Hlt|Hin]; [lia|tauto].
Qed.

Lemma recording_leaves_other_entries_witness :
  let s := run (List.map record_call (sample_requests 4)) in
  let s' := add_to_history s (py "GET") (py "/b") (sample_response 404) [] [] in
  (forall e', get_history_data s' (py "GET_/c") = Some e' ->
              get_history_data s (py "GET_/c") = Some e') /\
  (List.length (history_data s) < max_items \/
   In (request_key_of (py "GET") (py "/b")) (keys (history_data s)) ->
   get_history_data s' (py "GET_/c") = get_history_data s (py "GET_/c")).
Proof.
  apply (recording_leaves_other_entries
           (List.map record_call (sample_requests 4))
           (py "GET") (py "/b") (sample_response 404) [] [] (py "GET_/c")).
  discriminate.
Defined.

Lemma filter_okey_map (k : str) (l : list str) :
  filter (okey_neqb k) (List.map Some l) =
  List.map Some (filter (fun k' => negb (str_eqb k' k)) l).
Proof.
  induction l as [|x l IH]; simpl; [reflexivity|].
  destruct (negb (str_eqb x k)); simpl; rewrite IH; reflexivity.
Qed.

Lemma filter_neq_fresh (k : str) (l : list str) :
  ~ In k l -> filter (fun k' => negb (str_eqb k' k)) l = l.
Proof.
  induction l as [|x l IH]; simpl; intros H; [reflexivity|].
  destruct (str_eqb x k) eqn:E.
  - apply str_eqb_eq in E. tauto.
  - simpl. rewrite IH; tauto.
Qed.

Lemma existsb_str_In (k : str) (l : list str) :
  existsb (str_eqb k) l = true <-> In k l.
Proof.
  rewrite existsb_exists. split.
  - intros (x & Hx & E). apply str_eqb_eq in E. congruence.
  - intros H. exists k. split; [exact H|apply str_eqb_refl].
Qed.

Lemma creation_snoc (ks : list str) (k : str) :
  creation (ks ++ [k]) = first_seen (creation ks) k.
Proof. unfold creation. rewrite fold_left_app. reflexivity. Qed.

Lemma recency_snoc (ks : list str) (k : str) :
  recency (ks ++ [k]) = touch (recency ks) k.
Proof. unfold recency. rewrite fold_left_app. reflexivity. Qed.

Lemma creation_length_snoc (ks : list str) (k : str) :
  List.length (creation ks) <= List.length (creation (ks ++ [k])).
Proof.
  rewrite creation_snoc. unfold first_seen.
  destruct (existsb (str_eqb k) (creation ks)); [lia|].
  rewrite length_app. lia.
Qed.

(** X9.  While the requests recorded have at most [max_items] different keys,
    nothing is evicted: the dictionary holds the keys in the order in
    which they first came, and the list box shows them in the order of
    recency, the key recorded last on top and every key once. *)
Theorem history_is_ordered_by_recency :
  forall rqs : list request,
    Forall (fun rq => rq_url rq <> []) rqs ->
    List.length (creation (List.map fingerprint rqs)) <= max_items ->
    let s := run (List.map record_call rqs) in
    keys (history_data s) = creation (List.map fingerprint rqs) /\
    ordered_keys s = List.map Some (recency (List.map fingerprint rqs)).
Proof.
  induction rqs as [|rq rqs IH] using rev_ind; intros Hu Hlen.
  - split; reflexivity.
  - apply Forall_app in Hu. destruct Hu as [Hu Hrq].
    inversion Hrq as [|? ? Hq _]; subst.
    cbv zeta. rewrite run_map_snoc.
    rewrite map_app in Hlen |- *. cbn [List.map] in Hlen |- *.
    destruct IH as [Hk Ho]; [exact Hu| |].
    { pose proof (creation_length_snoc (List.map fingerprint rqs)
                                       (fingerprint rq)). lia. }
    set (s := run (List.map record_call rqs)) in *.
    assert (W : wf s) by apply wf_run.
    rewrite creation_snoc, recency_snoc. rewrite creation_snoc in Hlen.
    unfold first_seen in *. unfold touch.
    change (request_key_of (rq_method rq) (rq_url rq)) with (fingerprint rq).
    destruct (existsb (str_eqb (fingerprint rq))
                      (creation (List.map fingerprint rqs))) eqn:E.
    + apply existsb_str_In in E. rewrite <- Hk in E.
      destruct (rerecord_shown s (rq_method rq) (rq_url rq) (rq_response rq)
                  (rq_body rq) (rq_headers rq) W Hq E) as (Hk' & Ho' & _).
      split; [rewrite Hk'; exact Hk|].
      rewrite Ho', Ho, filter_okey_map. reflexivity.
    + assert (Hn : ~ In (fingerprint rq) (keys (history_data s))).
      { rewrite Hk. intros H. apply existsb_str_In in H. congruence. }
      rewrite length_app in Hlen. simpl in Hlen.
      destruct (room_shown s (rq_method rq) (rq_url rq) (rq_response rq)
                  (rq_body rq) (rq_headers rq) W Hq Hn) as (Hk' & Ho').
      { rewrite <- Hk in Hlen. unfold keys in Hlen.
        rewrite length_map in Hlen. lia. }
      split; [rewrite Hk', Hk; reflexivity|].
      rewrite Ho', Ho. cbn [List.map]. f_equal. f_equal. symmetry.
      apply filter_neq_fresh. intros Hin.
      assert (Hin' : In (Some (fingerprint rq)) (ordered_keys s))
        by (rewrite Ho; apply in_map; exact Hin).
      destruct (ordered_keys_present s _ W Hin') as (k & [= <-] & Hk'').
      exact (Hn Hk'').
Qed.

Lemma history_is_ordered_by_recency_witness :
  let rqs := [sample_request 1; sample_request 2; sample_request 3;
              sample_request 2; sample_request 1; sample_request 4;
              sample_request 2] in
  let s := run (List.map record_call rqs) in
  keys (history_data s) = creation (List.map fingerprint rqs) /\
  ordered_keys s = List.map Some (recency (List.map fingerprint rqs)).
Proof.
  apply (history_is_ordered_by_recency
           [sample_request 1; sample_request 2; sample_request 3;
            sample_request 2; sample_request 1; sample_request 4;
            sample_request 2]).
  - repeat constructor; discriminate.
  - vm_compute. lia.
Defined.

Lemma remove_history_item_takes_one_witness :
  let s := run (List.map record_call (sample_requests 3)) in
  let s' := remove_history_item s (py "GET_/b") in
  get_history_data s' (py "GET_/a") = get_history_data s (py "GET_/a") /\
  remove_history_item s (py "GET_/z") = s.
Proof.
  split.
  - apply (proj1 (proj2 (proj2 (remove_history_item_takes_one
                                  (List.map record_call (sample_requests 3))
                                  (py "GET_/b"))))).
    discriminate.
  - apply (proj1 (remove_history_item_takes_one
                    (List.map record_call (sample_requests 3))
                    (py "GET_/z"))).
    vm_compute. reflexivity.
Defined.

Lemma row_and_key_name_each_other_witness :
  let s := run (List.map record_call (sample_requests 3)
                ++ [record_call (sample_request 1)]) in
  (get_request_key_from_row s 1 = Some (py "GET_/b") /\ In 1 (history_list s)) /\
  (exists e, get_history_data s (py "GET_/a") = Some e /\ it_row e = 0) /\
  get_request_key_from_row s 7 = None.
Proof.
  pose (cs := List.map record_call (sample_requests 3)
              ++ [record_call (sample_request 1)]).
  split; [|split].
  - refine (proj1 (row_and_key_name_each_other cs) (py "GET_/b")
              {| it_method := py "GET"; it_url := py "/b";
                 it_response := sample_response 200; it_body := [];
                 it_headers := []; it_row := 1;
                 it_title_label := (py "GET", py "/b");
                 it_subtitle_label := subtitle_of (sample_response 200) |} _).
    vm_compute. reflexivity.
  - apply (proj1 (proj2 (row_and_key_name_each_other cs)) 0 (py "GET_/a")).
    vm_compute. reflexivity.
  - apply (proj2 (proj2 (row_and_key_name_each_other cs)) 7).
    vm_compute. intuition discriminate.
Defined.

(* ================================================================== *)
(** ** Further properties of the formatter *)
(* ================================================================== *)

(** *** [str.strip] *)

Lemma lstrip_lstrip (s : str) : lstrip (lstrip s) = lstrip s.
Proof.
  destruct (lstrip_head s) as [E|(c & t & E & Hc)]; rewrite E.
  - reflexivity.
  - apply lstrip_fixed. exact Hc.
Qed.

Lemma rstrip_rstrip (s : str) : rstrip (rstrip s) = rstrip s.
Proof. unfold rstrip. rewrite rev_involutive, lstrip_lstrip. reflexivity. Qed.

Lemma lstrip_strip (s : str) : lstrip (strip s) = strip s.
Proof.
  destruct (strip_head s) as [E|(c & t & E & Hc)]; rewrite E.
  - reflexivity.
  - apply lstrip_fixed. exact Hc.
Qed.

Lemma strip_strip (s : str) : strip (strip s) = strip s.
Proof.
  unfold strip at 1. rewrite lstrip_strip. unfold strip.
  apply rstrip_rstrip.
Qed.

Lemma lstrip_suffix (s : str) :
  exists w, s = w ++ lstrip s /\ all_space w.
Proof.
  induction s as [|c s (w & Hs & Hw)]; simpl.
  - exists []. split; reflexivity.
  - destruct (isspace c) eqn:E.
    + exists (c :: w). split; [simpl; congruence|].
      unfold all_space in *. simpl. rewrite E. exact Hw.
    + exists []. split; reflexivity.
Qed.

Lemma rstrip_prefix (s : str) :
  exists w, s = rstrip s ++ w /\ all_space w.
Proof.
  unfold rstrip. destruct (lstrip_suffix (rev s)) as (w & Hs & Hw).
  exists (rev w). split.
  - rewrite <- rev_app_distr, <- Hs, rev_involutive. reflexivity.
  - apply all_space_rev. exact Hw.
Qed.

(** The text without its surrounding white space is a segment of it. *)
Lemma strip_segment (s : str) :
  exists w0 w1, s = w0 ++ strip s ++ w1 /\ all_space w0 /\ all_space w1.
Proof.
  destruct (lstrip_suffix s) as (w0 & Hs & H0).
  destruct (rstrip_prefix (lstrip s)) as (w1 & Hl & H1).
  exists w0, w1. unfold strip. rewrite <- Hl. auto.
Qed.

Lemma lower_lstrip (s : str) : lower (lstrip s) = lstrip (lower s).
Proof.
  induction s as [|c s IH]; simpl; [reflexivity|].
  rewrite isspace_lower. destruct (isspace c); [exact IH|reflexivity].
Qed.

Lemma lower_rev (s : str) : lower (rev s) = rev (lower s).
Proof. unfold lower. apply map_rev. Qed.

Lemma lower_strip (s : str) : lower (strip s) = strip (lower s).
Proof.
  unfold strip, rstrip.
  rewrite lower_rev, lower_lstrip, lower_rev, lower_lstrip. reflexivity.
Qed.

(** *** Detection and surrounding white space *)

Lemma is_html_strip (x : str) : _is_html (strip x) = _is_html x.
Proof.
  unfold _is_html. rewrite lower_strip, strip_strip. reflexivity.
Qed.

Lemma detect_strip (x : str) : detect (strip x) = detect x.
Proof.
  unfold detect.
  rewrite (is_json_strip x (strip_strip x)), (is_xml_strip x (strip_strip x)),
    is_html_strip.
  reflexivity.
Qed.

(** *** What parses as JSON *)


Lemma is_json_loaded (x : str) (v : json) :
  json_loads x = Ok v -> _is_json x = container v.
Proof.
  intros Hload.
  destruct (loads_Ok x v Hload) as (w0 & pre & w1 & Hx & H0 & HV & H1).
  destruct (container v) eqn:Hc.
  - eapply is_json_container; eassumption.
  - destruct (strip_value w0 pre w1 v H0 HV H1) as (Hsx & Hsp & Hne).
    rewrite <- Hx in Hsx.
    rewrite <- (is_json_strip x (strip_strip x)), Hsx.
    eapply is_json_scalar; eassumption.
Qed.

Lemma is_xml_loaded (x : str) (v : json) :
  json_loads x = Ok v -> _is_xml x = false.
Proof.
  intros Hload.
  destruct (loads_Ok x v Hload) as (w0 & pre & w1 & Hx & H0 & HV & H1).
  destruct (strip_value w0 pre w1 v H0 HV H1) as (Hsx & Hsp & Hne).
  rewrite <- Hx in Hsx.
  rewrite <- (is_xml_strip x (strip_strip x)), Hsx.
  eapply is_xml_value; eassumption.
Qed.




Lemma marker_prefix (rest : str) :
  startswith (py "/* JSON Format Error: " ++ rest) JSON_ERROR_MARKER = true.
Proof. reflexivity. Qed.

Lemma format_json_marked (content : str) (e e' : exn) :
  json_loads content = Raise e ->
  json_loads (without_trailing_commas content) = Raise e' ->
  format_json content =
    py "/* JSON Format Error: " ++ str_of_exn content e ++ py " */"
       ++ [NEWLINE] ++ without_trailing_commas content.
Proof.
  intros E1 E2. unfold format_json. rewrite E1.
  destruct e as [msg remaining|].
  - unfold without_trailing_commas in E2 |- *. cbv zeta. rewrite E2.
    reflexivity.
  - exfalso. exact (loads_no_recursion_error content E1).
Qed.

(** *** [format_json] *)


(** *** Detection *)

(** X11.  The three tests look at the text without its surrounding white space,
    so they and the kind detected are the same for a text and for the
    text trimmed. *)
Theorem detection_ignores_surrounding_white_space :
  forall content : str,
    _is_json (strip content) = _is_json content /\
    _is_xml (strip content) = _is_xml content /\
    _is_html (strip content) = _is_html content /\
    detect (strip content) = detect content.
Proof.
  intros content.
  split; [exact (is_json_strip content (strip_strip content))|].
  split; [exact (is_xml_strip content (strip_strip content))|].
  split; [apply is_html_strip|apply detect_strip].
Qed.

Lemma startswith_first (s p : str) (a : char) :
  startswith s (a :: p) = true -> startswith s [a] = true.
Proof.
  destruct s as [|b s]; simpl; [discriminate|].
  intros H. apply andb_true_iff in H. destruct H as [-> _]. reflexivity.
Qed.

Lemma is_xml_first (content : str) :
  _is_xml content = true -> startswith (strip content) (py "<") = true.
Proof.
  unfold _is_xml. destruct (py_not (strip content)); [discriminate|].
  destruct (startswith (strip content) (py "<?xml")) eqn:E1;
    [intros _; exact (startswith_first _ _ _ E1)|].
  destruct (startswith (strip content) (py "<soap:")) eqn:E2;
    [intros _; exact (startswith_first _ _ _ E2)|].
  destruct (startswith (strip content) (py "<rss")) eqn:E3;
    [intros _; exact (startswith_first _ _ _ E3)|].
  destruct (startswith (strip content) (py "<feed")) eqn:E4;
    [intros _; exact (startswith_first _ _ _ E4)|].
  cbn [orb].
  destruct (re_match re_xml_root (strip content)) eqn:E5; [|discriminate].
  intros _. destruct (strip content) as [|c t]; [discriminate E5|].
  unfold re_xml_root in E5. cbn [re_match] in E5.
  destruct (eqc "<" c) eqn:Ec; [|discriminate E5].
  unfold eqc in Ec. apply N.eqb_eq in Ec. subst c. reflexivity.
Qed.

Lemma is_json_first (content : str) :
  _is_json content = true ->
  startswith (strip content) (py "{") && endswith (strip content) (py "}")
  || startswith (strip content) (py "[") && endswith (strip content) (py "]")
  = true.
Proof.
  unfold _is_json. destruct (py_not (strip content)); [discriminate|].
  match goal with
  | |- (if ?b then _ else _) = true -> _ => destruct b
  end; [reflexivity|discriminate].
Qed.

(** X12.  A text taken for JSON starts with a brace or a bracket and ends with
    its partner; a text taken for XML starts with [<].  So no text passes
    both tests, and the order of the two tests in [format_content] and
    [minify_content] decides nothing. *)
Theorem json_and_xml_tests_exclude_each_other :
  forall content : str,
    (_is_json content = true ->
     startswith (strip content) (py "{") && endswith (strip content) (py "}")
     || startswith (strip content) (py "[") && endswith (strip content) (py "]")
     = true) /\
    (_is_xml content = true -> startswith (strip content) (py "<") = true) /\
    (_is_json content = true -> _is_xml content = false).
Proof.
  intros content. split; [apply is_json_first|]. split; [apply is_xml_first|].
  intros Hj. destruct (_is_xml content) eqn:Hx; [|reflexivity].
  apply is_json_first in Hj. apply is_xml_first in Hx.
  destruct (strip content) as [|c t]; [discriminate Hx|].
  cbn [py list_ascii_of_string List.map startswith] in Hj, Hx.
  apply andb_true_iff in Hx. destruct Hx as [Hx _].
  apply N.eqb_eq in Hx. subst c.
  vm_compute in Hj. discriminate Hj.
Qed.

Lemma json_and_xml_tests_exclude_each_other_witness :
  (startswith (strip (pyq " [1, 2] ")) (py "{")
   && endswith (strip (pyq " [1, 2] ")) (py "}")
   || startswith (strip (pyq " [1, 2] ")) (py "[")
      && endswith (strip (pyq " [1, 2] ")) (py "]") = true) /\
  startswith (strip (py " <a>x</a>")) (py "<") = true /\
  _is_xml (pyq " [1, 2] ") = false.
Proof.
  split; [|split].
  - apply (proj1 (json_and_xml_tests_exclude_each_other (pyq " [1, 2] "))).
    vm_compute. reflexivity.
  - apply (proj1 (proj2 (json_and_xml_tests_exclude_each_other
                           (py " <a>x</a>")))).
    vm_compute. reflexivity.
  - apply (proj2 (proj2 (json_and_xml_tests_exclude_each_other
                           (pyq " [1, 2] ")))).
    vm_compute. reflexivity.
Defined.

(** X13.  A text that parses as JSON is taken for JSON exactly when its value is
    an object or an array, it is never taken for XML, and a scalar is
    plain text unless it holds an HTML marker. *)
Theorem valid_json_is_detected_by_its_shape :
  forall (content : str) (v : json),
    json_loads content = Ok v ->
    _is_json content = container v /\
    _is_xml content = false /\
    detect content =
      if container v then JSON
      else if _is_html content then HTML else PLAIN.
Proof.
  intros content v H.
  pose proof (is_json_loaded content v H) as Hj.
  pose proof (is_xml_loaded content v H) as Hx.
  split; [exact Hj|]. split; [exact Hx|].
  unfold detect. rewrite Hj, Hx. reflexivity.
Qed.

Lemma valid_json_is_detected_by_its_shape_witness :
  (_is_json (pyq " {'a': [1, 2]} ") = true /\
   _is_xml (pyq " {'a': [1, 2]} ") = false /\
   detect (pyq " {'a': [1, 2]} ") = JSON) /\
  (_is_json (py "12.5") = false /\
   _is_xml (py "12.5") = false /\
   detect (py "12.5") = PLAIN).
Proof.
  split.
  - apply (valid_json_is_detected_by_its_shape (pyq " {'a': [1, 2]} ")
             (JObj [(py "a", JArr [JInt 1; JInt 2])])).
    vm_compute. reflexivity.
  - apply (valid_json_is_detected_by_its_shape (py "12.5")
             (JFloat (py "12.5"))).
    vm_compute. reflexivity.
Defined.

(** *** [format_content] and [minify_content] on JSON *)



Lemma truthy_contains (h p : str) :
  p <> [] -> contains h p = true -> truthy (Some h) = Some h.
Proof.
  destruct h as [|c h]; [|reflexivity].
  destruct p as [|a p]; [congruence|]. simpl. discriminate.
Qed.









(** X16.  [minify_content] does not run the markup minifier on a text it has
    sent down the JSON path.  When the text is taken for JSON, or the
    content type names json, and the text does not parse, the text is
    returned as it is: comments and white space of an XML or HTML text
    stay. *)
Theorem minify_leaves_unparsable_json_alone :
  forall (content : str) (hint : option str) (e : exn),
    json_loads content = Raise e ->
    _is_json content = true \/
    (exists h, hint = Some h /\ contains h (py "json") = true) ->
    minify_content content hint = content.
Proof.
  intros content hint e Hload Hpath. unfold minify_content.
  destruct (py_not content); [reflexivity|].
  assert (Hc : _is_json content
               || match truthy hint with
                  | Some content_type => contains content_type (py "json")
                  | None => false
                  end = true).
  { destruct Hpath as [->|(h & -> & Hh)]; [reflexivity|].
    rewrite (truthy_contains h (py "json")), Hh; try assumption;
      [apply orb_true_r|discriminate]. }
  rewrite Hc, Hload. reflexivity.
Qed.

Lemma minify_leaves_unparsable_json_alone_witness :
  minify_content (py "<a>  <!-- note -->  <b/>  </a>")
                 (Some (py "application/json"))
  = py "<a>  <!-- note -->  <b/>  </a>" /\
  minify_content (py "<a>  <!-- note -->  <b/>  </a>") None
  = py "<a><b/></a>".
Proof.
  split.
  - refine (minify_leaves_unparsable_json_alone
              (py "<a>  <!-- note -->  <b/>  </a>")
              (Some (py "application/json"))
              (JSONDecodeError (py "Expecting value") 30) _ _).
    + vm_compute. reflexivity.
    + right. eexists. split; [reflexivity|]. vm_compute. reflexivity.
  - vm_compute. reflexivity.
Defined.

(** *** Plain text and content types *)

(** X17.  Text of no detected kind is returned without its surrounding white
    space, or as it is when it is all white space, and formatting the
    result again returns it unchanged. *)
Theorem plain_text_is_formatted_once :
  forall (minidom : str -> option str) (content : str),
    detect content = PLAIN ->
    let formatted := format_content minidom content None in
    formatted = (if py_not (strip content) then content else strip content) /\
    format_content minidom formatted None = formatted.
Proof.
  intros minidom content Hd formatted.
  assert (Hds : detect (strip content) = PLAIN)
    by (rewrite detect_strip; exact Hd).
  assert (E : formatted =
              if py_not (strip content) then content else strip content)
    by (apply format_content_plain; exact Hds).
  split; [exact E|]. rewrite E.
  destruct (py_not (strip content)) eqn:Hb.
  - rewrite format_content_plain by exact Hds. rewrite Hb. reflexivity.
  - rewrite format_content_plain
      by (rewrite detect_strip; exact Hds).
    rewrite strip_strip, Hb. reflexivity.
Qed.

Lemma plain_text_is_formatted_once_witness :
  let formatted := format_content minidom_rejects (py "  not json or xml ") None in
  formatted = py "not json or xml" /\
  format_content minidom_rejects formatted None = formatted.
Proof.
  apply (plain_text_is_formatted_once minidom_rejects
           (py "  not json or xml ")).
  vm_compute. reflexivity.
Defined.

(** X18.  A content type that helps nothing does no harm.  One that names none
    of json, xml and html, and one that names json for a text on which
    both parses of [format_json] fail, give what no content type gives. *)
Theorem useless_content_type_is_ignored :
  forall (minidom : str -> option str) (content hint : str),
    (contains hint (py "json") = false /\
     contains hint (py "xml") = false /\
     contains hint (py "html") = false) \/
    (contains hint (py "json") = true /\
     (exists e, json_loads (strip content) = Raise e) /\
     (exists e, json_loads (without_trailing_commas (strip content)) = Raise e)) ->
    format_content minidom content (Some hint) =
    format_content minidom content None.
Proof.
  intros minidom content hint H. unfold format_content.
  destruct (py_not content || py_not (strip content)); [reflexivity|].
  cbv zeta. destruct (truthy (Some hint)) as [h|] eqn:Et; [|reflexivity].
  assert (Eh : h = hint).
  { destruct hint; simpl in Et; [discriminate|]. congruence. }
  subst h. cbn [truthy].
  destruct H as [(Hj & Hx & Hh)|(Hj & (e & H1) & (e' & H2))].
  - rewrite Hj, Hx, Hh. reflexivity.
  - rewrite Hj.
    rewrite (format_json_marked (strip content) e e' H1 H2), marker_prefix.
    reflexivity.
Qed.

Lemma useless_content_type_is_ignored_witness :
  format_content minidom_rejects (py "<a><b>x</b></a>") (Some (py "text/plain"))
  = format_content minidom_rejects (py "<a><b>x</b></a>") None /\
  format_content minidom_rejects (py "<a><b>x</b></a>")
                 (Some (py "application/json"))
  = format_content minidom_rejects (py "<a><b>x</b></a>") None.
Proof.
  split.
  - apply (useless_content_type_is_ignored minidom_rejects
             (py "<a><b>x</b></a>") (py "text/plain")).
    left. vm_compute. auto.
  - apply (useless_content_type_is_ignored minidom_rejects
             (py "<a><b>x</b></a>") (py "application/json")).
    right. vm_compute. repeat split; eexists; reflexivity.
Defined.

(** *** The line indenters, line by line *)

Lemma xml_line_by_kind (st : list str * Z) (line : str) :
  xml_line st line = line_step (xml_kind_of line) st line.
Proof.
  destruct st as [formatted level]. unfold xml_line, xml_kind_of, line_step.
  split_tests; reflexivity.
Qed.

Lemma html_line_by_kind (st : list str * Z) (line : str) :
  html_line st line = line_step (html_kind_of line) st line.
Proof.
  destruct st as [formatted level]. unfold html_line, html_kind_of, line_step.
  split_tests; reflexivity.
Qed.

Lemma kind_blank_xml (line : str) :
  xml_kind_of line = Blank <-> py_not (strip line) = true.
Proof.
  unfold xml_kind_of. destruct (py_not (strip line)); split; try reflexivity;
    try discriminate.
  split_tests; discriminate.
Qed.

Lemma kind_blank_html (line : str) :
  html_kind_of line = Blank <-> py_not (strip line) = true.
Proof.
  unfold html_kind_of. destruct (py_not (strip line)); split; try reflexivity;
    try discriminate.
  split_tests; discriminate.
Qed.

Lemma lstrip_py_mul (n : Z) (l : str) :
  lstrip (py_mul (py "  ") n ++ l) = lstrip l.
Proof.
  unfold py_mul. induction (Z.to_nat n) as [|k IH]; [reflexivity|].
  simpl. exact IH.
Qed.

Section Loop.
Variable kind_of : str -> line_kind.
Variable f : list str * Z -> str -> list str * Z.
Hypothesis f_by_kind : forall st line, f st line = line_step (kind_of line) st line.
Hypothesis kind_blank :
  forall line, kind_of line = Blank <-> py_not (strip line) = true.

(** The lines written before a turn stay; the turn adds to them. *)
Lemma fold_prefix (lines : list str) :
  forall formatted level,
    fold_left f lines (formatted, level) =
    (formatted ++ lines_written f level lines,
     snd (fold_left f lines ([], level))).
Proof.
  unfold lines_written.
  induction lines as [|l lines IH]; intros formatted level; simpl.
  - rewrite List.app_nil_r. reflexivity.
  - rewrite !f_by_kind. unfold line_step.
    destruct (kind_of l); try apply IH;
      rewrite IH; symmetry; rewrite IH; cbn [fst snd app];
      rewrite <- app_assoc; reflexivity.
Qed.

Lemma written_app (l1 l2 : list str) (level : Z) :
  lines_written f level (l1 ++ l2) =
  lines_written f level l1
  ++ lines_written f (snd (fold_left f l1 ([], level))) l2.
Proof.
  unfold lines_written at 1. rewrite fold_left_app.
  rewrite (fold_prefix l1 [] level). cbn [app].
  rewrite fold_prefix. reflexivity.
Qed.

Lemma level_app (l1 l2 : list str) (level : Z) :
  snd (fold_left f (l1 ++ l2) ([], level)) =
  snd (fold_left f l2 ([], snd (fold_left f l1 ([], level)))).
Proof.
  rewrite fold_left_app. rewrite (fold_prefix l1 [] level). cbn [app].
  rewrite fold_prefix. reflexivity.
Qed.

(** Only the indentation is the loop's own. *)
Lemma written_trimmed (lines : list str) :
  forall level,
    List.map lstrip (lines_written f level lines) = trimmed_lines lines.
Proof.
  induction lines as [|l lines IH]; intros level; [reflexivity|].
  change (l :: lines) with ([l] ++ lines). rewrite written_app, map_app, IH.
  unfold trimmed_lines. cbn [List.map app filter]. f_equal.
  unfold lines_written. cbn [fold_left]. rewrite f_by_kind.
  destruct (py_not (strip l)) eqn:Hb.
  - apply kind_blank in Hb. rewrite Hb. reflexivity.
  - assert (Hk : kind_of l <> Blank)
      by (intros Hk; apply kind_blank in Hk; congruence).
    unfold line_step.
    destruct (kind_of l); try congruence; cbn [fst app List.map negb];
      rewrite ?lstrip_py_mul, lstrip_strip; reflexivity.
Qed.

(** Over nested lines the level comes back to where it started. *)
Lemma nested_level (lines : list str) :
  Nested kind_of lines ->
  forall level, (0 <= level)%Z ->
    snd (fold_left f lines ([], level)) = level.
Proof.
  induction 1 as [|l rest Ho Hc _ IH|o c body rest Ho _ IHb Hc _ IHr];
    intros level Hl.
  - reflexivity.
  - change (l :: rest) with ([l] ++ rest). rewrite level_app.
    cbn [fold_left]. rewrite f_by_kind. unfold line_step.
    destruct (kind_of l); try congruence; cbn [snd]; apply IH; exact Hl.
  - change (o :: body ++ c :: rest) with ([o] ++ body ++ [c] ++ rest).
    rewrite !level_app. cbn [fold_left]. rewrite !f_by_kind, Ho, Hc.
    unfold line_step. cbn [snd]. rewrite IHb by lia.
    replace (Z.max 0 (level + 1 - 1)) with level by lia.
    apply IHr. exact Hl.
Qed.

(** An element: the closing line is written under the opening line, and
    the lines between them one level deeper. *)
Lemma nested_element (o c : str) (body : list str) (level : Z) :
  kind_of o = Opening -> Nested kind_of body -> kind_of c = Closing ->
  (0 <= level)%Z ->
  fold_left f (o :: body ++ [c]) ([], level) =
  ([py_mul (py "  ") level ++ strip o]
   ++ lines_written f (level + 1) body
   ++ [py_mul (py "  ") level ++ strip c],
   level).
Proof.
  intros Ho Hb Hc Hl.
  change (o :: body ++ [c]) with ([o] ++ body ++ [c]).
  rewrite !fold_left_app. cbn [fold_left]. rewrite (f_by_kind _ o), Ho.
  unfold line_step. cbn [app].
  rewrite fold_prefix, (nested_level body Hb) by lia.
  rewrite f_by_kind, Hc. unfold line_step.
  replace (Z.max 0 (level + 1 - 1)) with level by lia.
  cbn [app]. reflexivity.
Qed.
End Loop.

(** X19.  Both indenters write the lines of their input that are not blank, in
    their order and each without its surrounding white space, and put
    nothing but indentation in front of them: no line is lost, added or
    changed inside. *)
Theorem indenters_change_only_indentation :
  forall content : str,
    let lines :=
      split_lines
        (re_sub re_between_tags (py ">" ++ [NEWLINE] ++ py "<") content) in
    _simple_xml_format content = join [NEWLINE] (lines_written xml_line 0 lines) /\
    _simple_html_format content = join [NEWLINE] (lines_written html_line 0 lines) /\
    List.map lstrip (lines_written xml_line 0 lines) = trimmed_lines lines /\
    List.map lstrip (lines_written html_line 0 lines) = trimmed_lines lines.
Proof.
  intros content lines.
  split; [reflexivity|]. split; [reflexivity|]. split.
  - apply (written_trimmed xml_kind_of xml_line xml_line_by_kind kind_blank_xml).
  - apply (written_trimmed html_kind_of html_line html_line_by_kind
                           kind_blank_html).
Qed.

(** X20.  [_simple_xml_format] on nested lines.  When every opening line has its
    closing line, the loop ends at the level it started from; and an
    element, started at a level, is written with its opening and closing
    lines at that level and the lines between them as the loop writes them
    one level deeper. *)
Theorem nested_xml_is_indented_by_depth :
  (forall (lines : list str) (level : Z),
     Nested xml_kind_of lines -> (0 <= level)%Z ->
     snd (fold_left xml_line lines ([], level)) = level) /\
  (forall (o c : str) (body : list str) (level : Z),
     xml_kind_of o = Opening -> Nested xml_kind_of body ->
     xml_kind_of c = Closing -> (0 <= level)%Z ->
     fold_left xml_line (o :: body ++ [c]) ([], level) =
     ([py_mul (py "  ") level ++ strip o]
      ++ lines_written xml_line (level + 1) body
      ++ [py_mul (py "  ") level ++ strip c],
      level)).
Proof.
  split.
  - intros lines level H Hl.
    apply (nested_level xml_kind_of xml_line xml_line_by_kind lines H level Hl).
  - intros o c body level Ho Hb Hc Hl.
    apply (nested_element xml_kind_of xml_line xml_line_by_kind); assumption.
Qed.

Lemma nested_xml_is_indented_by_depth_witness :
  snd (fold_left xml_line
         [py "<a>"; py "<b>"; py "<c/>"; py "</b>"; py "text"; py "</a>"]
         ([], 0%Z)) = 0%Z /\
  fold_left xml_line ([py "<a>"] ++ [py "<b>x</b>"; py "<c/>"] ++ [py "</a>"])
            ([], 1%Z) =
  ([py_mul (py "  ") 1 ++ strip (py "<a>")]
   ++ lines_written xml_line (1 + 1) [py "<b>x</b>"; py "<c/>"]
   ++ [py_mul (py "  ") 1 ++ strip (py "</a>")],
   1%Z).
Proof.
  split.
  - apply (proj1 nested_xml_is_indented_by_depth); [|lia].
    apply (Nested_element xml_kind_of (py "<a>") (py "</a>")
             [py "<b>"; py "<c/>"; py "</b>"; py "text"] []);
      [reflexivity| |reflexivity|constructor].
    apply (Nested_element xml_kind_of (py "<b>") (py "</b>")
             [py "<c/>"] [py "text"]);
      [reflexivity| |reflexivity|].
    + apply Nested_line; [discriminate|discriminate|constructor].
    + apply Nested_line; [discriminate|discriminate|constructor].
  - apply (proj2 nested_xml_is_indented_by_depth (py "<a>") (py "</a>")
             [py "<b>x</b>"; py "<c/>"] 1%Z); [reflexivity| |reflexivity|lia].
    apply Nested_line; [discriminate|discriminate|].
    apply Nested_line; [discriminate|discriminate|constructor].
Defined.

(** X21.  [_simple_html_format] on nested lines: the same, with the opening and
    closing lines as its own tests tell them, so that void elements and
    elements closed on their own line open no level. *)
Theorem nested_html_is_indented_by_depth :
  (forall (lines : list str) (level : Z),
     Nested html_kind_of lines -> (0 <= level)%Z ->
     snd (fold_left html_line lines ([], level)) = level) /\
  (forall (o c : str) (body : list str) (level : Z),
     html_kind_of o = Opening -> Nested html_kind_of body ->
     html_kind_of c = Closing -> (0 <= level)%Z ->
     fold_left html_line (o :: body ++ [c]) ([], level) =
     ([py_mul (py "  ") level ++ strip o]
      ++ lines_written html_line (level + 1) body
      ++ [py_mul (py "  ") level ++ strip c],
      level)).
Proof.
  split.
  - intros lines level H Hl.
    apply (nested_level html_kind_of html_line html_line_by_kind lines H
                        level Hl).
  - intros o c body level Ho Hb Hc Hl.
    apply (nested_element html_kind_of html_line html_line_by_kind); assumption.
Qed.

Lemma nested_html_is_indented_by_depth_witness :
  snd (fold_left html_line
         [py "<!DOCTYPE html>"; py "<div>"; py "<br>"; py "<p>x</p>";
          py "</div>"]
         ([], 0%Z)) = 0%Z /\
  fold_left html_line ([py "<div>"] ++ [py "<br>"; py "<p>x</p>"] ++ [py "</div>"])
            ([], 0%Z) =
  ([py_mul (py "  ") 0 ++ strip (py "<div>")]
   ++ lines_written html_line (0 + 1) [py "<br>"; py "<p>x</p>"]
   ++ [py_mul (py "  ") 0 ++ strip (py "</div>")],
   0%Z).
Proof.
  split.
  - apply (proj1 nested_html_is_indented_by_depth); [|lia].
    apply Nested_line; [discriminate|discriminate|].
    apply (Nested_element html_kind_of (py "<div>") (py "</div>")
             [py "<br>"; py "<p>x</p>"] []);
      [reflexivity| |reflexivity|constructor].
    apply Nested_line; [discriminate|discriminate|].
    apply Nested_line; [discriminate|discriminate|constructor].
  - apply (proj2 nested_html_is_indented_by_depth (py "<div>") (py "</div>")
             [py "<br>"; py "<p>x</p>"] 0%Z); [reflexivity| |reflexivity|lia].
    apply Nested_line; [discriminate|discriminate|].
    apply Nested_line; [discriminate|discriminate|constructor].
Defined.

(** *** The substitutions of [minify_content] *)

Lemma re_sub_from_skip (p : regex) (repl w r : str) :
  re_sub_from p repl (w ++ r) (List.length w) = re_sub_from p repl r 0.
Proof.
  induction w as [|c w IH]; simpl; [|exact IH].
  destruct r; reflexivity.
Qed.

Lemma re_sub_from_skip_one (p : regex) (repl w r : str) (c : char) :
  re_sub_from p repl (w ++ c :: r) (S (List.length w)) =
  re_sub_from p repl r 0.
Proof.
  replace (w ++ c :: r) with ((w ++ [c]) ++ r)
    by (rewrite <- app_assoc; reflexivity).
  replace (S (List.length w)) with (List.length (w ++ [c]))
    by (rewrite length_app; simpl; lia).
  apply re_sub_from_skip.
Qed.

Lemma re_sub_from_chars (P : char -> Prop) (p : regex) (repl : str) :
  Forall P repl ->
  forall s skip, Forall P s -> Forall P (re_sub_from p repl s skip).
Proof.
  intros Hr. induction s as [|c s IH]; intros skip Hs; simpl; [constructor|].
  inversion Hs; subst.
  destruct skip as [|k]; [|apply IH; assumption].
  destruct (re_match p (c :: s)) as [[|n]|].
  - constructor; auto.
  - apply Forall_app. split; [exact Hr|]. apply IH. assumption.
  - constructor; auto.
Qed.

(** A star at the end of a pattern takes the longest run. *)
Lemma match_star_end (cls : char -> bool) (s : str) :
  re_match [(Star, cls)] s = Some (List.length (fst (span cls s))).
Proof.
  induction s as [|x s IH]; [reflexivity|].
  cbn [re_match] in IH |- *. cbn [span].
  destruct (cls x); [|reflexivity].
  rewrite IH. destruct (span cls s). reflexivity.
Qed.

(** A star in front of one character outside its class takes the longest
    run, or nothing matches. *)
Lemma match_star_then (cls q : char -> bool) (w r : str) :
  (forall c, cls c = true -> q c = false) ->
  forallb cls w = true -> head_is cls r = false ->
  re_match [(Star, cls); (Once, q)] (w ++ r) =
  match r with
  | d :: _ => if q d then Some (S (List.length w)) else None
  | [] => None
  end.
Proof.
  intros Hq Hw Hr. induction w as [|x w IH].
  - cbn [app List.length]. destruct r as [|d r]; [reflexivity|].
    simpl in Hr. cbn [re_match]. rewrite Hr.
    destruct (q d); reflexivity.
  - simpl in Hw. apply andb_true_iff in Hw. destruct Hw as [Hx Hw].
    specialize (IH Hw). cbn [re_match] in IH |- *. cbn [app List.length].
    rewrite Hx, IH. destruct r as [|d r].
    + rewrite (Hq x Hx). reflexivity.
    + destruct (q d); [reflexivity|]. rewrite (Hq x Hx). reflexivity.
Qed.

Lemma span_split (cls : char -> bool) (s : str) :
  exists w r, s = w ++ r /\ forallb cls w = true /\ head_is cls r = false /\
              fst (span cls s) = w.
Proof.
  destruct (span cls s) as [w r] eqn:E.
  destruct (span_spec cls s w r E) as (Hs & Hw & Hr).
  exists w, r. auto.
Qed.

Lemma space_not_lt (c : char) : isspace c = true -> eqc "<" c = false.
Proof.
  intros H. unfold eqc. destruct (N.eqb c (ch "<")) eqn:E; [|reflexivity].
  apply N.eqb_eq in E. subst c. discriminate H.
Qed.

(** [r'\s+'] at the head of a text. *)
Lemma match_spaces (c : char) (s : str) :
  re_match re_spaces (c :: s) =
  if isspace c then Some (S (List.length (fst (span isspace s)))) else None.
Proof.
  unfold re_spaces.
  change (re_match [(Once, isspace); (Star, isspace)] (c :: s))
    with (if isspace c then option_map S (re_match [(Star, isspace)] s)
          else None).
  rewrite match_star_end. reflexivity.
Qed.

(** [r'>\s+<'] at the head of a text. *)
Lemma match_space_between_tags (s : str) (k : nat) :
  re_match re_space_between_tags s = Some k ->
  exists w r,
    s = ch ">" :: w ++ ch "<" :: r /\ w <> [] /\
    forallb isspace w = true /\ k = S (S (List.length w)).
Proof.
  unfold re_space_between_tags. destruct s as [|c s]; [discriminate|].
  change (re_match [(Once, eqc ">"); (Once, isspace); (Star, isspace);
                    (Once, eqc "<")] (c :: s))
    with (if eqc ">" c
          then option_map S
                 (match s with
                  | x :: s' =>
                      if isspace x
                      then option_map S
                             (re_match [(Star, isspace); (Once, eqc "<")] s')
                      else None
                  | [] => None
                  end)
          else None).
  destruct (eqc ">" c) eqn:Ec; [|discriminate].
  unfold eqc in Ec. apply N.eqb_eq in Ec. subst c.
  destruct s as [|x s]; [discriminate|].
  destruct (isspace x) eqn:Ex; [|discriminate].
  destruct (span_split isspace s) as (w & r & -> & Hw & Hr & _).
  rewrite (match_star_then isspace (eqc "<") w r space_not_lt Hw Hr).
  destruct r as [|d r]; [discriminate|].
  destruct (eqc "<" d) eqn:Ed; [|discriminate].
  unfold eqc in Ed. apply N.eqb_eq in Ed. subst d.
  simpl. intros [= <-]. exists (x :: w), r.
  repeat split; try discriminate.
  simpl. rewrite Ex. exact Hw.
Qed.

(** *** White space after the substitutions *)

Lemma no_space_run_tail (c : char) (s : str) :
  no_space_run (c :: s) = true -> no_space_run s = true.
Proof. simpl. intros H. apply andb_true_iff in H. tauto. Qed.

Lemma no_space_run_suffix (a b : str) :
  no_space_run (a ++ b) = true -> no_space_run b = true.
Proof.
  induction a as [|c a IH]; [auto|]. intros H. apply IH.
  exact (no_space_run_tail c _ H).
Qed.

Lemma no_space_run_prefix (a b : str) :
  no_space_run (a ++ b) = true -> no_space_run a = true.
Proof.
  induction a as [|c a IH]; [reflexivity|]. cbn [app no_space_run].
  intros H. apply andb_true_iff in H. destruct H as [H1 H2].
  rewrite (IH H2), andb_true_r. destruct a as [|d a]; [reflexivity|exact H1].
Qed.

Lemma no_space_run_cons (c : char) (s : str) :
  isspace c = false -> no_space_run s = true -> no_space_run (c :: s) = true.
Proof.
  intros Hc Hs. simpl. rewrite Hc, Hs. destruct s; reflexivity.
Qed.

(** After [re.sub(r'\s+', ' ', s)]. *)
Lemma spaces_collapsed (n : nat) :
  forall s, List.length s <= n ->
    plain_spaces (re_sub re_spaces (py " ") s) /\
    no_space_run (re_sub re_spaces (py " ") s) = true /\
    (head_is isspace s = false ->
     head_is isspace (re_sub re_spaces (py " ") s) = false).
Proof.
  induction n as [|n IH]; intros s Hlen.
  - destruct s; [|simpl in Hlen; lia].
    repeat split; try reflexivity. constructor.
  - destruct s as [|c s]; [repeat split; try reflexivity; constructor|].
    simpl in Hlen. unfold re_sub in *. cbn [re_sub_from].
    rewrite match_spaces. destruct (isspace c) eqn:Ec.
    + destruct (span_split isspace s) as (w & r & Hs & Hw & Hr & Hf).
      rewrite Hf. subst s. rewrite !re_sub_from_skip.
      assert (Hlr : List.length r <= n).
      { rewrite length_app in Hlen. lia. }
      destruct (IH r Hlr) as (H1 & H2 & H3).
      set (out := re_sub_from re_spaces (py " ") r 0) in *.
      change (py " " ++ out) with (32%N :: out).
      split; [|split].
      * constructor; [reflexivity|exact H1].
      * change (no_space_run (32%N :: out))
          with (match out with
                | b :: _ => negb (isspace 32%N && isspace b)
                | [] => true
                end && no_space_run out).
        rewrite H2, andb_true_r.
        specialize (H3 Hr).
        destruct out as [|d t]; [reflexivity|].
        simpl in H3. rewrite H3, andb_false_r. reflexivity.
      * simpl. rewrite Ec. discriminate.
    + destruct (IH s) as (H1 & H2 & H3); [lia|].
      split; [|split].
      * constructor; [congruence|exact H1].
      * apply no_space_run_cons; assumption.
      * intros _. simpl. exact Ec.
Qed.

Lemma head_eq (a b : str) (c : char) :
  hd_error a = hd_error b ->
  match a with d :: _ => negb (isspace c && isspace d) | [] => true end =
  match b with d :: _ => negb (isspace c && isspace d) | [] => true end.
Proof.
  destruct a, b; simpl; intros H; try discriminate; [reflexivity|].
  injection H as ->. reflexivity.
Qed.

(** After [re.sub(r'>\s+<', '><', s)]. *)
Lemma tags_joined (n : nat) :
  forall s, List.length s <= n ->
    let out := re_sub re_space_between_tags (py "><") s in
    hd_error out = hd_error s /\
    (plain_spaces s -> plain_spaces out) /\
    (no_space_run s = true -> no_space_run out = true) /\
    contains out (py "> <") = false.
Proof.
  induction n as [|n IH]; intros s Hlen.
  - destruct s; [|simpl in Hlen; lia].
    repeat split; auto.
  - destruct s as [|c s]; [repeat split; auto|].
    simpl in Hlen. unfold re_sub in *. cbn zeta in *. cbn [re_sub_from].
    destruct (re_match re_space_between_tags (c :: s)) as [k|] eqn:E.
    + destruct (match_space_between_tags _ _ E)
        as (w & r & Hs & Hne & Hw & ->).
      injection Hs as -> ->.
      rewrite !re_sub_from_skip_one.
      assert (Hlr : List.length r <= n).
      { rewrite length_app in Hlen. simpl in Hlen. lia. }
      destruct (IH r Hlr) as (H0 & H1 & H2 & H3).
      split; [reflexivity|]. split; [|split].
      * intros Hp. constructor; [discriminate|]. constructor; [discriminate|].
        apply H1. inversion Hp as [|? ? _ Hp']; subst.
        apply Forall_app in Hp'. destruct Hp' as [_ Hp'].
        inversion Hp'; assumption.
      * intros Hq. apply no_space_run_cons; [reflexivity|].
        apply no_space_run_cons; [reflexivity|].
        apply H2. apply no_space_run_tail in Hq.
        apply no_space_run_suffix in Hq. apply no_space_run_tail in Hq.
        exact Hq.
      * cbn [app py list_ascii_of_string List.map].
        change (contains (62%N :: 60%N :: re_sub_from re_space_between_tags
                                            [62%N; 60%N] r 0) (py "> <"))
          with (false || (false || contains (re_sub_from re_space_between_tags
                                               [62%N; 60%N] r 0) (py "> <"))).
        exact H3.
    + destruct (IH s) as (H0 & H1 & H2 & H3); [lia|].
      set (out := re_sub_from re_space_between_tags (py "><") s 0) in *.
      split; [reflexivity|]. split; [|split].
      * intros Hp. inversion Hp; subst.
        apply Forall_cons; [assumption|]. apply H1. assumption.
      * intros Hq. cbn [no_space_run] in Hq |- *.
        apply andb_true_iff in Hq. destruct Hq as [Ha Hb].
        rewrite (H2 Hb), andb_true_r. rewrite (head_eq out s c H0). exact Ha.
      * cbn [contains]. rewrite H3, orb_false_r.
        destruct (startswith (c :: out) (py "> <")) eqn:Est; [|reflexivity].
        exfalso.
        destruct out as [|a [|b out']] eqn:Eo;
          cbn [py list_ascii_of_string List.map startswith] in Est;
          rewrite ?andb_false_r in Est; try discriminate Est.
        apply andb_true_iff in Est. destruct Est as [Ec Est].
        apply andb_true_iff in Est. destruct Est as [Ea Est].
        apply andb_true_iff in Est. destruct Est as [Eb _].
        apply N.eqb_eq in Ec, Ea, Eb. subst c a b.
        destruct s as [|a s]; [discriminate H0|].
        injection H0 as <-.
        unfold out in Eo. cbn [re_sub_from] in Eo.
        change (re_match re_space_between_tags (32%N :: s)) with (@None nat)
          in Eo.
        injection Eo as Eo.
        destruct (IH s) as (H0' & _); [simpl in Hlen; lia|].
        rewrite Eo in H0'. destruct s as [|b s]; [discriminate H0'|].
        injection H0' as <-.
        discriminate E.
Qed.

Lemma startswith_app (a b p : str) :
  startswith a p = true -> startswith (a ++ b) p = true.
Proof.
  revert a. induction p as [|x p IH]; intros a; [reflexivity|].
  destruct a as [|y a]; simpl; [discriminate|].
  intros H. apply andb_true_iff in H. destruct H as [-> H].
  apply IH. exact H.
Qed.

Lemma contains_app_l (a b p : str) :
  contains a p = true -> contains (a ++ b) p = true.
Proof.
  induction a as [|y a IH].
  - simpl. rewrite orb_false_r. intros H. destruct p; [|discriminate H].
    destruct b; reflexivity.
  - intros H.
    change (contains (y :: a) p)
      with (startswith (y :: a) p || contains a p) in H.
    change (contains ((y :: a) ++ b) p)
      with (startswith ((y :: a) ++ b) p || contains (a ++ b) p).
    apply orb_true_iff in H. destruct H as [H|H].
    + rewrite (startswith_app (y :: a) b p H). reflexivity.
    + rewrite (IH H). apply orb_true_r.
Qed.

Lemma contains_app_r (a b p : str) :
  contains b p = true -> contains (a ++ b) p = true.
Proof.
  intros H. induction a as [|y a IH]; [exact H|].
  simpl. rewrite IH. apply orb_true_r.
Qed.

Lemma contains_segment (a m b p : str) :
  contains (a ++ m ++ b) p = false -> contains m p = false.
Proof.
  intros H. destruct (contains m p) eqn:E; [|reflexivity].
  rewrite (contains_app_r a (m ++ b) p (contains_app_l m b p E)) in H.
  discriminate H.
Qed.

(** X22.  What the markup path of [minify_content] leaves of white space.  For a
    text taken for XML or HTML, and not sent down the JSON path, the
    result has no white space at either end, no white space character but
    the plain space, no two spaces side by side, and no space between the
    end of one tag and the start of the next. *)
Theorem minified_markup_white_space :
  forall (content : str) (hint : option str),
    _is_json content = false ->
    (forall h, hint = Some h -> contains h (py "json") = false) ->
    _is_xml content || _is_html content = true ->
    let minified := minify_content content hint in
    strip minified = minified /\
    plain_spaces minified /\
    no_space_run minified = true /\
    contains minified (py "> <") = false.
Proof.
  intros content hint Hj Hh Hm minified.
  assert (Hnot : py_not content = false).
  { destruct content; [|reflexivity]. discriminate Hm. }
  assert (Ht : match truthy hint with
               | Some content_type => contains content_type (py "json")
               | None => false
               end = false).
  { destruct hint as [[|c h]|]; try reflexivity. apply Hh. reflexivity. }
  set (s1 := re_sub re_comment [] content).
  set (s2 := re_sub re_spaces (py " ") s1).
  set (s3 := re_sub re_space_between_tags (py "><") s2).
  assert (E : minified = strip s3).
  { unfold minified, minify_content. rewrite Hnot, Hj, Ht, Hm. reflexivity. }
  destruct (spaces_collapsed (List.length s1) s1 (le_n _)) as (P2 & Q2 & _).
  fold s2 in P2, Q2.
  destruct (tags_joined (List.length s2) s2 (le_n _)) as (_ & P3 & Q3 & C3).
  fold s3 in P3, Q3, C3. specialize (P3 P2). specialize (Q3 Q2).
  destruct (strip_segment s3) as (w0 & w1 & Hs & _ & _).
  rewrite E. split; [apply strip_strip|]. split; [|split].
  - unfold plain_spaces in *. rewrite Hs in P3.
    apply Forall_app in P3. destruct P3 as [_ P3].
    apply Forall_app in P3. tauto.
  - rewrite Hs in Q3. apply no_space_run_suffix in Q3.
    apply no_space_run_prefix in Q3. exact Q3.
  - rewrite Hs in C3. apply (contains_segment w0 _ w1). exact C3.
Qed.

Lemma minified_markup_white_space_witness :
  let minified :=
    minify_content
      (py "  <ul>" ++ [NEWLINE] ++ py "    <li>one   two</li>  <!-- x -->"
          ++ [NEWLINE; 9%N] ++ py "<li/>" ++ [NEWLINE] ++ py "</ul> ")
      (Some (py "text/xml")) in
  strip minified = minified /\
  plain_spaces minified /\
  no_space_run minified = true /\
  contains minified (py "> <") = false.
Proof.
  apply (minified_markup_white_space
           (py "  <ul>" ++ [NEWLINE] ++ py "    <li>one   two</li>  <!-- x -->"
               ++ [NEWLINE; 9%N] ++ py "<li/>" ++ [NEWLINE] ++ py "</ul> ")
           (Some (py "text/xml"))).
  - vm_compute. reflexivity.
  - intros h [= <-]. vm_compute. reflexivity.
  - vm_compute. reflexivity.
Defined.

(** *** [format_xml] *)

Lemma split_lines_cons (s : str) : exists l ls, split_lines s = l :: ls.
Proof.
  induction s as [|c s (l & ls & IH)]; simpl; [eauto|].
  destruct (N.eqb c NEWLINE); [eauto|]. rewrite IH. eauto.
Qed.

Lemma split_lines_head (c : char) (s : str) :
  N.eqb c NEWLINE = false ->
  exists l ls, split_lines s = l :: ls /\ split_lines (c :: s) = (c :: l) :: ls.
Proof.
  intros Hc. destruct (split_lines_cons s) as (l & ls & E).
  exists l, ls. split; [exact E|]. simpl. rewrite Hc, E. reflexivity.
Qed.

Lemma lstrip_keeps (t r : str) (d : char) :
  isspace d = false -> exists u, lstrip (t ++ d :: r) = u ++ d :: r.
Proof.
  intros Hd. induction t as [|c t (u & IH)]; simpl.
  - rewrite Hd. exists []. reflexivity.
  - destruct (isspace c); [eauto|]. exists (c :: t). reflexivity.
Qed.

Lemma rstrip_keeps (a t : str) (d : char) :
  isspace d = false -> exists t', rstrip (a ++ d :: t) = a ++ d :: t'.
Proof.
  intros Hd. unfold rstrip.
  rewrite rev_app_distr. cbn [rev]. rewrite <- app_assoc. cbn [app].
  destruct (lstrip_keeps (rev t) (rev a) d Hd) as (u & E).
  rewrite E, rev_app_distr. cbn [rev]. rewrite rev_involutive, <- app_assoc.
  exists (rev u). reflexivity.
Qed.

(** A line that starts with the text of the declaration still does so
    without its surrounding white space. *)
Lemma strip_declaration (t : str) :
  exists t', strip (py "<?xml" ++ t) = py "<?xml" ++ t'.
Proof.
  unfold strip.
  change (lstrip (py "<?xml" ++ t)) with (py "<?xm" ++ ch "l" :: t).
  destruct (rstrip_keeps (py "<?xm") t (ch "l") eq_refl) as (t' & E).
  exists t'. rewrite E. reflexivity.
Qed.

Lemma join_head (x : str) (rest : list str) :
  exists t, join [NEWLINE] (x :: rest) = x ++ t.
Proof.
  destruct rest as [|y rest].
  - exists []. simpl. rewrite List.app_nil_r. reflexivity.
  - eexists. reflexivity.
Qed.

Lemma simple_xml_declaration (t : str) :
  exists t', _simple_xml_format (py "<?xml" ++ t) = py "<?xml" ++ t'.
Proof.
  unfold _simple_xml_format.
  change (re_sub re_between_tags (py ">" ++ [NEWLINE] ++ py "<")
                 (py "<?xml" ++ t))
    with (py "<?xm" ++ ch "l"
            :: re_sub re_between_tags (py ">" ++ [NEWLINE] ++ py "<") t).
  set (t1 := re_sub re_between_tags (py ">" ++ [NEWLINE] ++ py "<") t).
  destruct (split_lines_head (ch "l") t1 eq_refl) as (l & ls & _ & E).
  assert (E' : split_lines (py "<?xm" ++ ch "l" :: t1)
               = (py "<?xml" ++ l) :: ls).
  { cbn [py list_ascii_of_string List.map app split_lines] in E |- *.
    change (N_of_ascii "l") with (ch "l"). rewrite E. reflexivity. }
  rewrite E'. cbn [fold_left].
  destruct (strip_declaration l) as (l' & El).
  assert (Ex : xml_line ([], 0%Z) (py "<?xml" ++ l)
               = ([py "<?xml" ++ l'], 0%Z)).
  { unfold xml_line. rewrite El. reflexivity. }
  rewrite Ex.
  rewrite (fold_prefix xml_kind_of xml_line xml_line_by_kind).
  cbn [fst app].
  destruct (join_head (py "<?xml" ++ l') (lines_written xml_line 0 ls))
    as (t' & Ej).
  rewrite Ej, <- app_assoc. eauto.
Qed.

Lemma with_declaration_starts (content : str) :
  exists t, with_declaration content = py "<?xml" ++ t.
Proof.
  unfold with_declaration.
  destruct (startswith (strip content) (py "<?xml")) eqn:E; cbn [negb].
  - exists (skipn 5 (strip content)). apply (startswith_split _ _ E).
  - eexists. reflexivity.
Qed.

Lemma format_xml_unfold (minidom : str -> option str) (content : str) :
  format_xml minidom content =
  match minidom (with_declaration content) with
  | Some formatted =>
      join [NEWLINE] (filter not_blank (split_lines formatted))
  | None => _simple_xml_format (with_declaration content)
  end.
Proof. reflexivity. Qed.

(** Lines hold no newline, and joining them gives them back on a split. *)
Lemma split_lines_no_newline (s : str) :
  Forall (fun l => forallb (fun c => negb (N.eqb c NEWLINE)) l = true)
         (split_lines s).
Proof.
  induction s as [|c s IH]; simpl.
  - constructor; [reflexivity|constructor].
  - destruct (N.eqb c NEWLINE) eqn:E.
    + constructor; [reflexivity|exact IH].
    + destruct (split_lines s) as [|l ls].
      * constructor; [simpl; rewrite E; reflexivity|constructor].
      * inversion IH; subst. constructor; [|assumption].
        simpl. rewrite E. assumption.
Qed.

Lemma split_lines_app (x r : str) :
  forallb (fun c => negb (N.eqb c NEWLINE)) x = true ->
  split_lines (x ++ NEWLINE :: r) = x :: split_lines r.
Proof.
  induction x as [|c x IH]; intros H.
  - reflexivity.
  - simpl in H. apply andb_true_iff in H. destruct H as [Hc Hx].
    apply negb_true_iff in Hc. cbn [app split_lines].
    rewrite Hc, (IH Hx). reflexivity.
Qed.

Lemma split_lines_line (x : str) :
  forallb (fun c => negb (N.eqb c NEWLINE)) x = true -> split_lines x = [x].
Proof.
  induction x as [|c x IH]; intros H; [reflexivity|].
  simpl in H. apply andb_true_iff in H. destruct H as [Hc Hx].
  apply negb_true_iff in Hc. cbn [split_lines]. rewrite Hc, (IH Hx).
  reflexivity.
Qed.

Lemma split_join (ls : list str) :
  ls <> [] ->
  Forall (fun l => forallb (fun c => negb (N.eqb c NEWLINE)) l = true) ls ->
  split_lines (join [NEWLINE] ls) = ls.
Proof.
  induction ls as [|x ls IH]; [congruence|]. intros _ H.
  inversion H as [|? ? Hx Hls]; subst.
  destruct ls as [|y ls].
  - simpl. apply split_lines_line. exact Hx.
  - change (join [NEWLINE] (x :: y :: ls))
      with (x ++ NEWLINE :: join [NEWLINE] (y :: ls)).
    rewrite (split_lines_app x _ Hx). f_equal.
    apply IH; [discriminate|exact Hls].
Qed.

Lemma Forall_filter (A : Type) (P : A -> Prop) (f : A -> bool) (l : list A) :
  Forall P l -> Forall P (filter f l).
Proof.
  induction 1 as [|x l Hx _ IH]; simpl; [constructor|].
  destruct (f x); [constructor; assumption|assumption].
Qed.

(** X23.  When [minidom] rejects the document, [format_xml] falls back to
    [_simple_xml_format] on the document with its declaration, so the
    result starts with an XML declaration, the text's own or the one
    added, and never with the XML error marker. *)
Theorem format_xml_fallback_starts_with_declaration :
  forall (minidom : str -> option str) (content : str),
    minidom (with_declaration content) = None ->
    format_xml minidom content = _simple_xml_format (with_declaration content) /\
    startswith (format_xml minidom content) (py "<?xml") = true /\
    startswith (format_xml minidom content) XML_ERROR_MARKER = false.
Proof.
  intros minidom content Hm.
  assert (E : format_xml minidom content
              = _simple_xml_format (with_declaration content))
    by (rewrite format_xml_unfold, Hm; reflexivity).
  split; [exact E|]. rewrite E.
  destruct (with_declaration_starts content) as (t & ->).
  destruct (simple_xml_declaration t) as (t' & ->).
  split; reflexivity.
Qed.

Lemma format_xml_fallback_starts_with_declaration_witness :
  format_xml minidom_rejects (py " <a><b>x</b></a> ")
  = _simple_xml_format (with_declaration (py " <a><b>x</b></a> ")) /\
  startswith (format_xml minidom_rejects (py " <a><b>x</b></a> "))
             (py "<?xml") = true /\
  startswith (format_xml minidom_rejects (py " <a><b>x</b></a> "))
             XML_ERROR_MARKER = false.
Proof.
  apply (format_xml_fallback_starts_with_declaration minidom_rejects
           (py " <a><b>x</b></a> ")).
  reflexivity.
Defined.

(** X24.  When [minidom] accepts the document, [format_xml] returns its pretty
    print without the blank lines: the lines of the result are the lines
    of the pretty print that are not blank, in their order. *)
Theorem format_xml_drops_blank_lines :
  forall (minidom : str -> option str) (content pretty : str),
    minidom (with_declaration content) = Some pretty ->
    filter not_blank (split_lines pretty) <> [] ->
    split_lines (format_xml minidom content)
      = filter not_blank (split_lines pretty) /\
    Forall (fun line => not_blank line = true)
           (split_lines (format_xml minidom content)).
Proof.
  intros minidom content pretty Hm Hne.
  rewrite format_xml_unfold, Hm.
  rewrite split_join; [| exact Hne
                       | apply Forall_filter, split_lines_no_newline].
  split; [reflexivity|].
  apply Forall_forall. intros l Hl. apply filter_In in Hl. tauto.
Qed.

Lemma format_xml_drops_blank_lines_witness :
  let pretty :=
    pyq "<?xml version='1.0' ?>" ++ [NEWLINE] ++ py "<a>" ++ [NEWLINE]
        ++ py "  " ++ [NEWLINE] ++ py "  <b>x</b>" ++ [NEWLINE]
        ++ py "</a>" ++ [NEWLINE] in
  split_lines (format_xml (fun _ => Some pretty) (py "<a> <b>x</b></a>"))
    = filter not_blank (split_lines pretty) /\
  Forall (fun line => not_blank line = true)
         (split_lines (format_xml (fun _ => Some pretty) (py "<a> <b>x</b></a>"))).
Proof.
  refine (format_xml_drops_blank_lines
            (fun _ => Some _) (py "<a> <b>x</b></a>") _ eq_refl _).
  vm_compute. discriminate.
Defined.

(* ================================================================== *)
(** ** Properties of the callers in window.py *)
(* ================================================================== *)

Lemma request_key_nonempty (m u : str) : py_not (request_key_of m u) = false.
Proof. unfold request_key_of. destruct m; reflexivity. Qed.

(** X25.  Activating a row of the list box always loads an item: after any
    calls, each row shown resolves to a key, the key is not empty and is
    held, and the item loaded is the one the row belongs to. *)
Theorem every_row_shown_loads_its_item :
  forall (cs : list call) (r : row),
    In r (history_list (run cs)) ->
    exists k e,
      get_request_key_from_row (run cs) r = Some k /\
      get_history_data (run cs) k = Some e /\
      it_row e = r /\
      on_history_activated (run cs) r = Some e.
Proof.
  intros cs r Hr. set (s := run cs) in *.
  assert (W : wf s) by apply wf_run.
  apply (Permutation_in _ (wf_list _ W)) in Hr.
  unfold rows in Hr. apply in_map_iff in Hr.
  destruct Hr as ([k e] & Hrow & Hin). simpl in Hrow.
  assert (Hget : get_history_data s k = Some e).
  { unfold get_history_data.
    destruct (dict_get (history_data s) k) as [e'|] eqn:E.
    - f_equal. apply dict_get_In in E.
      apply (NoDup_keys_fun (history_data s) k); try assumption.
      apply (wf_keys _ W).
    - apply dict_get_None in E. exfalso. apply E.
      apply (in_map fst) in Hin. exact Hin. }
  assert (Hkey : get_request_key_from_row s r = Some k).
  { destruct (dict_get_split _ _ _ _ Hget) as (d1 & d2 & Hd & _).
    change (key_of_row (history_data s) r = Some k).
    rewrite Hd, <- Hrow. apply key_of_row_self. rewrite <- Hd.
    apply (wf_rows _ W). }
  exists k, e. split; [exact Hkey|]. split; [exact Hget|].
  split; [exact Hrow|].
  unfold on_history_activated. rewrite Hkey.
  pose proof (proj1 (Forall_forall _ _) (consistent_run cs) _ Hin)
    as (Hk & _).
  simpl in Hk. rewrite Hk, request_key_nonempty.
  rewrite <- Hk. exact Hget.
Qed.

Lemma every_row_shown_loads_its_item_witness :
  let cs := List.map record_call (sample_requests 3) ++ [Remove (py "GET_/b")] in
  exists k e,
    get_request_key_from_row (run cs) 2 = Some k /\
    get_history_data (run cs) k = Some e /\
    it_row e = 2 /\
    on_history_activated (run cs) 2 = Some e.
Proof.
  apply (every_row_shown_loads_its_item
           (List.map record_call (sample_requests 3) ++ [Remove (py "GET_/b")])
           2).
  vm_compute. auto.
Defined.



(** *** The indenters read only the trimmed lines *)

Lemma xml_kind_strip (l : str) : xml_kind_of (strip l) = xml_kind_of l.
Proof. unfold xml_kind_of. rewrite strip_strip. reflexivity. Qed.

Lemma html_kind_strip (l : str) : html_kind_of (strip l) = html_kind_of l.
Proof. unfold html_kind_of. rewrite strip_strip. reflexivity. Qed.

Lemma trimmed_cons (l : str) (lines : list str) :
  trimmed_lines (l :: lines) =
  if py_not (strip l) then trimmed_lines lines
  else strip l :: trimmed_lines lines.
Proof.
  unfold trimmed_lines. cbn [List.map filter].
  destruct (py_not (strip l)); reflexivity.
Qed.

Lemma trimmed_app (l1 l2 : list str) :
  trimmed_lines (l1 ++ l2) = trimmed_lines l1 ++ trimmed_lines l2.
Proof. unfold trimmed_lines. rewrite map_app, filter_app. reflexivity. Qed.

Section LoopReads.
Variable kind_of : str -> line_kind.
Variable f : list str * Z -> str -> list str * Z.
Hypothesis f_by_kind : forall st line, f st line = line_step (kind_of line) st line.
Hypothesis kind_blank :
  forall line, kind_of line = Blank <-> py_not (strip line) = true.
Hypothesis kind_strip : forall line, kind_of (strip line) = kind_of line.

Lemma step_strip (st : list str * Z) (l : str) :
  f st (strip l) = f st l.
Proof.
  rewrite !f_by_kind, kind_strip. destruct st as [formatted level].
  unfold line_step. rewrite strip_strip. reflexivity.
Qed.

Lemma step_blank (st : list str * Z) (l : str) :
  py_not (strip l) = true -> f st l = st.
Proof.
  intros H. apply kind_blank in H. rewrite f_by_kind, H.
  destruct st. reflexivity.
Qed.

(** The loop over lines and over their trimmed lines is the same loop. *)
Lemma fold_trimmed (lines : list str) :
  forall st, fold_left f (trimmed_lines lines) st = fold_left f lines st.
Proof.
  induction lines as [|l lines IH]; intros st; [reflexivity|].
  rewrite trimmed_cons. cbn [fold_left].
  destruct (py_not (strip l)) eqn:Hb.
  - rewrite (step_blank st l Hb). apply IH.
  - cbn [fold_left]. rewrite step_strip. apply IH.
Qed.

(** Each line written is a trimmed line behind plain spaces. *)
Lemma written_shape (lines : list str) :
  forall level,
    Forall2 (fun out t => exists n : Z, out = py_mul (py "  ") n ++ t)
            (lines_written f level lines) (trimmed_lines lines).
Proof.
  induction lines as [|l lines IH]; intros level; [constructor|].
  change (l :: lines) with ([l] ++ lines).
  rewrite (written_app kind_of f f_by_kind), trimmed_app.
  apply Forall2_app; [|apply IH].
  unfold lines_written. cbn [fold_left app]. rewrite f_by_kind, trimmed_cons.
  destruct (py_not (strip l)) eqn:Hb.
  - apply kind_blank in Hb. rewrite Hb. constructor.
  - assert (Hk : kind_of l <> Blank)
      by (intros Hk; apply kind_blank in Hk; congruence).
    unfold line_step, trimmed_lines.
    destruct (kind_of l); try congruence; cbn [fst app List.map filter];
      constructor; try constructor; try (eexists; reflexivity).
    exists 0%Z. reflexivity.
Qed.
End LoopReads.

(** *** [split_tags] *)

Lemma space_not_gt (c : char) : isspace c = true -> eqc ">" c = false.
Proof.
  intros H. unfold eqc. destruct (N.eqb c (ch ">")) eqn:E; [|reflexivity].
  apply N.eqb_eq in E. subst c. discriminate H.
Qed.

Lemma match_between_unfold (c : char) (s : str) :
  re_match re_between_tags (c :: s) =
  if eqc ">" c
  then option_map S (re_match [(Star, isspace); (Once, eqc "<")] s)
  else None.
Proof. reflexivity. Qed.

(** [r'>\s*<'] at the head of a text. *)
Lemma match_between_tags (s : str) (k : nat) :
  re_match re_between_tags s = Some k ->
  exists w r,
    s = ch ">" :: w ++ ch "<" :: r /\ all_space w /\
    k = S (S (List.length w)).
Proof.
  destruct s as [|c s]; [discriminate|]. rewrite match_between_unfold.
  destruct (eqc ">" c) eqn:Ec; [|discriminate].
  unfold eqc in Ec. apply N.eqb_eq in Ec. subst c.
  destruct (span_split isspace s) as (w & r & -> & Hw & Hr & _).
  rewrite (match_star_then isspace (eqc "<") w r space_not_lt Hw Hr).
  destruct r as [|d r]; [discriminate|].
  destruct (eqc "<" d) eqn:Ed; [|discriminate].
  unfold eqc in Ed. apply N.eqb_eq in Ed. subst d.
  simpl. intros [= <-]. exists w, r. auto.
Qed.

Lemma match_between_found (w r : str) :
  all_space w ->
  re_match re_between_tags (ch ">" :: w ++ ch "<" :: r)
  = Some (S (S (List.length w))).
Proof.
  intros Hw. rewrite match_between_unfold.
  change (eqc ">" (ch ">")) with true. cbv iota.
  rewrite (match_star_then isspace (eqc "<") w (ch "<" :: r) space_not_lt Hw
                           eq_refl).
  reflexivity.
Qed.

Lemma match_between_other (c : char) (s : str) :
  c <> ch ">" -> re_match re_between_tags (c :: s) = None.
Proof.
  intros Hc. rewrite match_between_unfold.
  destruct (eqc ">" c) eqn:E; [|reflexivity].
  unfold eqc in E. apply N.eqb_eq in E. congruence.
Qed.

(** A tag end followed by white space and then something else. *)
Lemma match_between_miss (w r : str) (d : char) :
  all_space w -> isspace d = false -> d <> ch "<" ->
  re_match re_between_tags (ch ">" :: w ++ d :: r) = None.
Proof.
  intros Hw Hd Hne. rewrite match_between_unfold.
  change (eqc ">" (ch ">")) with true. cbv iota.
  rewrite (match_star_then isspace (eqc "<") w (d :: r) space_not_lt Hw);
    [|simpl; exact Hd].
  destruct (eqc "<" d) eqn:E; [|reflexivity].
  unfold eqc in E. apply N.eqb_eq in E. congruence.
Qed.

Lemma match_between_end (w : str) :
  all_space w -> re_match re_between_tags (ch ">" :: w) = None.
Proof.
  intros Hw. rewrite match_between_unfold.
  change (eqc ">" (ch ">")) with true. cbv iota.
  pose proof (match_star_then isspace (eqc "<") w [] space_not_lt Hw eq_refl)
    as H.
  rewrite List.app_nil_r in H. rewrite H. reflexivity.
Qed.

Lemma split_tags_nil : split_tags [] = [].
Proof. reflexivity. Qed.

Lemma split_tags_keep (c : char) (s : str) :
  re_match re_between_tags (c :: s) = None ->
  split_tags (c :: s) = c :: split_tags s.
Proof.
  intros H. unfold split_tags, re_sub. cbn [re_sub_from]. rewrite H.
  reflexivity.
Qed.

Lemma split_tags_break (w r : str) :
  all_space w ->
  split_tags (ch ">" :: w ++ ch "<" :: r)
  = ch ">" :: NEWLINE :: ch "<" :: split_tags r.
Proof.
  intros Hw. unfold split_tags, re_sub. cbn [re_sub_from].
  rewrite (match_between_found w r Hw), re_sub_from_skip_one. reflexivity.
Qed.

Lemma split_tags_cases (s : str) :
  s = [] \/
  (exists c s', s = c :: s' /\ re_match re_between_tags s = None /\
                split_tags s = c :: split_tags s') \/
  (exists w r, s = ch ">" :: w ++ ch "<" :: r /\ all_space w /\
               split_tags s = ch ">" :: NEWLINE :: ch "<" :: split_tags r).
Proof.
  destruct s as [|c s]; [left; reflexivity|]. right.
  destruct (re_match re_between_tags (c :: s)) as [k|] eqn:E.
  - right. destruct (match_between_tags _ _ E) as (w & r & Hs & Hw & _).
    exists w, r. rewrite Hs. split; [reflexivity|]. split; [exact Hw|].
    apply split_tags_break. exact Hw.
  - left. exists c, s. split; [reflexivity|]. split; [reflexivity|].
    apply split_tags_keep. exact E.
Qed.

Lemma split_tags_head (s : str) : hd_error (split_tags s) = hd_error s.
Proof.
  destruct (split_tags_cases s)
    as [->|[(c & s' & -> & _ & ->)|(w & r & -> & _ & ->)]]; reflexivity.
Qed.

Lemma split_tags_spaces (w s : str) :
  all_space w -> split_tags (w ++ s) = w ++ split_tags s.
Proof.
  intros Hw. induction w as [|c w IH]; [reflexivity|].
  unfold all_space in Hw. simpl in Hw. apply andb_true_iff in Hw.
  destruct Hw as [Hc Hw]. cbn [app].
  rewrite split_tags_keep, (IH Hw); [reflexivity|].
  apply match_between_other. intros ->. discriminate Hc.
Qed.

(** White space and a tag start at the head of the result were at the
    head of the text. *)
Lemma split_tags_reflects (w : str) :
  all_space w ->
  forall s r, split_tags s = w ++ ch "<" :: r ->
    exists r', s = w ++ ch "<" :: r'.
Proof.
  intros Hw. induction w as [|c w IH]; intros s r H.
  - pose proof (split_tags_head s) as Hh. rewrite H in Hh.
    destruct s as [|d s]; [discriminate Hh|]. injection Hh as <-.
    exists s. reflexivity.
  - unfold all_space in Hw. simpl in Hw. apply andb_true_iff in Hw.
    destruct Hw as [Hc Hw].
    pose proof (split_tags_head s) as Hh. rewrite H in Hh.
    destruct s as [|d s]; [discriminate Hh|]. injection Hh as <-.
    rewrite split_tags_keep in H
      by (apply match_between_other; intros ->; discriminate Hc).
    injection H as H. destruct (IH Hw s r H) as (r' & ->).
    exists r'. reflexivity.
Qed.

Lemma all_space_cons (c : char) (w : str) :
  all_space (c :: w) <-> isspace c = true /\ all_space w.
Proof. unfold all_space. simpl. apply andb_true_iff. Qed.

(** In the result every tag end that is followed, after white space only,
    by a tag start is followed by exactly one newline. *)
Lemma split_tags_gaps (n : nat) :
  forall s, List.length s <= n ->
    forall w, all_space w -> gap w (split_tags s) -> w = [NEWLINE].
Proof.
  induction n as [|n IH]; intros s Hlen w Hw (a & r & Hg).
  - destruct s; [|simpl in Hlen; lia]. rewrite split_tags_nil in Hg.
    destruct a; discriminate Hg.
  - destruct (split_tags_cases s)
      as [->|[(c & s' & -> & Hnone & E)|(w0 & r0 & -> & Hw0 & E)]].
    + rewrite split_tags_nil in Hg. destruct a; discriminate Hg.
    + rewrite E in Hg. simpl in Hlen. destruct a as [|x a].
      * injection Hg as -> Hg.
        destruct (split_tags_reflects w Hw s' r Hg) as (r' & ->).
        assert (Hx : @None nat = Some (S (S (List.length w))))
          by (rewrite <- Hnone; exact (match_between_found w r' Hw)).
        discriminate Hx.
      * injection Hg as _ Hg. apply (IH s'); [lia|exact Hw|].
        exists a, r. exact Hg.
    + rewrite E in Hg. simpl in Hlen. rewrite length_app in Hlen.
      simpl in Hlen.
      destruct a as [|x1 [|x2 [|x3 a]]].
      * injection Hg as Hg. destruct w as [|c w]; [discriminate Hg|].
        injection Hg as <- Hg. destruct w as [|c w]; [reflexivity|].
        injection Hg as <- _. apply all_space_cons in Hw.
        destruct Hw as [_ Hw]. apply all_space_cons in Hw.
        destruct Hw as [Hw _]. discriminate Hw.
      * injection Hg as _ Hg. discriminate Hg.
      * injection Hg as _ _ Hg. discriminate Hg.
      * injection Hg as _ _ _ Hg. apply (IH r0); [lia|exact Hw|].
        exists a, r. exact Hg.
Qed.

(** *** The lines of a text with its tags split are clean *)

Lemma split_lines_segment (s l : str) :
  In l (split_lines s) -> exists pre post, s = pre ++ l ++ post.
Proof.
  revert l. induction s as [|c s IH]; intros l Hin.
  - simpl in Hin. destruct Hin as [<-|[]]. exists [], []. reflexivity.
  - cbn [split_lines] in Hin. destruct (N.eqb c NEWLINE) eqn:E.
    + destruct Hin as [<-|Hin].
      * exists [], (c :: s). reflexivity.
      * destruct (IH l Hin) as (pre & post & ->).
        exists (c :: pre), post. reflexivity.
    + destruct (split_lines_cons s) as (l0 & ls & Es). rewrite Es in Hin, IH.
      destruct Hin as [<-|Hin].
      * destruct (IH l0 (or_introl eq_refl)) as (pre & post & Hs).
        (* the first line starts the text *)
        assert (Hfirst : exists post', s = l0 ++ post').
        { clear - Es. revert l0 ls Es.
          induction s as [|d s IHs]; intros l0 ls Es.
          - injection Es as <- <-. exists []. reflexivity.
          - cbn [split_lines] in Es. destruct (N.eqb d NEWLINE).
            + injection Es as <- <-. exists (d :: s). reflexivity.
            + destruct (split_lines_cons s) as (l1 & ls1 & E1).
              rewrite E1 in Es. injection Es as <- <-.
              destruct (IHs l1 ls1 E1) as (post' & ->).
              exists post'. reflexivity. }
        destruct Hfirst as (post' & ->). exists [], post'. reflexivity.
      * destruct (IH l (or_intror Hin)) as (pre & post & ->).
        exists (c :: pre), post. reflexivity.
Qed.

Lemma gap_segment (w pre m post : str) :
  gap w m -> gap w (pre ++ m ++ post).
Proof.
  intros (a & r & ->). exists (pre ++ a), (r ++ post).
  rewrite <- !app_assoc. cbn [app]. rewrite <- !app_assoc. reflexivity.
Qed.

Lemma gap_free_segment (pre m post : str) :
  gap_free (pre ++ m ++ post) -> gap_free m.
Proof.
  intros H w Hw Hg. apply (H w Hw). apply gap_segment. exact Hg.
Qed.

Lemma no_newline_app (a b : str) :
  forallb (fun c => negb (N.eqb c NEWLINE)) (a ++ b) = true <->
  forallb (fun c => negb (N.eqb c NEWLINE)) a = true /\
  forallb (fun c => negb (N.eqb c NEWLINE)) b = true.
Proof. rewrite forallb_app. apply andb_true_iff. Qed.

Lemma line_gap_free (s l : str) :
  In l (split_lines (split_tags s)) -> gap_free l.
Proof.
  intros Hin w Hw Hg.
  pose proof (proj1 (Forall_forall _ _) (split_lines_no_newline _) l Hin)
    as Hnl.
  destruct (split_lines_segment _ _ Hin) as (pre & post & Hs).
  assert (Hw1 : w = [NEWLINE]).
  { apply (split_tags_gaps (List.length s) s (le_n _) w Hw).
    rewrite Hs. apply gap_segment. exact Hg. }
  subst w. destruct Hg as (a & r & ->).
  apply no_newline_app in Hnl. destruct Hnl as [_ Hnl].
  simpl in Hnl. discriminate Hnl.
Qed.

Lemma strip_no_newline (l : str) :
  forallb (fun c => negb (N.eqb c NEWLINE)) l = true ->
  forallb (fun c => negb (N.eqb c NEWLINE)) (strip l) = true.
Proof.
  intros H. destruct (strip_segment l) as (w0 & w1 & Hs & _).
  rewrite Hs in H. apply no_newline_app in H. destruct H as [_ H].
  apply no_newline_app in H. tauto.
Qed.

Lemma trimmed_lines_In (lines : list str) (t : str) :
  In t (trimmed_lines lines) ->
  exists l, In l lines /\ t = strip l /\ t <> [].
Proof.
  unfold trimmed_lines. intros H. apply filter_In in H.
  destruct H as [Hin Hne]. apply in_map_iff in Hin.
  destruct Hin as (l & <- & Hl). exists l. split; [exact Hl|].
  split; [reflexivity|]. intros E. rewrite E in Hne. discriminate Hne.
Qed.

Lemma trimmed_clean (s : str) :
  Forall clean (trimmed_lines (split_lines (split_tags s))).
Proof.
  apply Forall_forall. intros t Ht.
  destruct (trimmed_lines_In _ _ Ht) as (l & Hl & -> & Hne).
  split; [exact Hne|]. split; [apply strip_strip|]. split.
  - apply strip_no_newline.
    exact (proj1 (Forall_forall _ _) (split_lines_no_newline _) l Hl).
  - destruct (strip_segment l) as (w0 & w1 & Hs & _).
    apply (gap_free_segment w0 _ w1). rewrite <- Hs.
    apply (line_gap_free s). exact Hl.
Qed.

(** *** [split_tags] on lines already written *)

Lemma ends_well_tail (c : char) (t : str) :
  ends_well (c :: t) -> ends_well t.
Proof.
  intros [H|(a & d & H & Hd)]; [discriminate H|].
  destruct a as [|x a].
  - injection H as _ ->. left. reflexivity.
  - injection H as _ ->. right. exists a, d. auto.
Qed.

Lemma ends_well_spaces (w : str) : all_space w -> ends_well w -> w = [].
Proof.
  intros Hw [H|(a & d & -> & Hd)]; [exact H|].
  unfold all_space in Hw. rewrite forallb_app in Hw.
  apply andb_true_iff in Hw. destruct Hw as [_ Hw]. simpl in Hw.
  rewrite Hd in Hw. discriminate Hw.
Qed.

Lemma gap_free_tail (c : char) (t : str) : gap_free (c :: t) -> gap_free t.
Proof.
  intros H. apply (gap_free_segment [c] t []).
  rewrite List.app_nil_r. exact H.
Qed.

Lemma endswith_cons (c x : char) (t : str) :
  t <> [] -> endswith (c :: t) [x] = endswith t [x].
Proof.
  intros Ht. unfold endswith. cbn [rev].
  destruct (rev t) as [|y r] eqn:E.
  - apply (f_equal (@rev char)) in E. rewrite rev_involutive in E.
    simpl in E. congruence.
  - reflexivity.
Qed.

(** A clean text, scanned to its end. *)
Lemma scan_to_end (t : str) :
  gap_free t -> ends_well t -> split_tags t = t.
Proof.
  induction t as [|c t IH]; intros Hg He; [reflexivity|].
  assert (IH' : split_tags t = t)
    by (apply IH; [exact (gap_free_tail c t Hg)|exact (ends_well_tail c t He)]).
  rewrite split_tags_keep, IH'; [reflexivity|].
  destruct (N.eqb c (ch ">")) eqn:Ec;
    [|apply match_between_other; intros ->; discriminate Ec].
  apply N.eqb_eq in Ec. subst c.
  destruct (span_split isspace t) as (w & r & Ht & Hw & Hr & _).
  destruct r as [|d r].
  - rewrite List.app_nil_r in Ht. subst t. apply match_between_end. exact Hw.
  - subst t. simpl in Hr. apply match_between_miss; try assumption.
    intros ->. apply (Hg w Hw). exists [], r. reflexivity.
Qed.

(** A clean text, scanned into the next line. *)
Lemma scan_to_next (t : str) :
  gap_free t -> ends_well t ->
  forall (ind u z : str) (d : char),
    all_space ind -> isspace d = false ->
    split_tags (t ++ NEWLINE :: ind ++ (d :: u) ++ z) =
    t ++ NEWLINE
      :: (if endswith t (py ">") && N.eqb d (ch "<") then [] else ind)
      ++ split_tags ((d :: u) ++ z).
Proof.
  intros Hg He ind u z d Hind Hd.
  assert (Hnl : all_space (NEWLINE :: ind))
    by (apply all_space_cons; split; [reflexivity|exact Hind]).
  change (py ">") with [ch ">"].
  induction t as [|c t IH].
  - cbn [app]. change (endswith [] [ch ">"]) with false. cbn [andb].
    apply (split_tags_spaces (NEWLINE :: ind) _ Hnl).
  - specialize (IH (gap_free_tail c t Hg) (ends_well_tail c t He)).
    cbn [app] in IH.
    destruct (N.eqb c (ch ">")) eqn:Ec.
    + apply N.eqb_eq in Ec. subst c.
      destruct (span_split isspace t) as (w & r & Ht & Hw & Hr & _).
      destruct r as [|d' r].
      * rewrite List.app_nil_r in Ht. subst t.
        assert (Hnil : w = []).
        { apply (ends_well_spaces w Hw). exact (ends_well_tail _ _ He). }
        subst w. cbn [app]. change (endswith [ch ">"] [ch ">"]) with true.
        cbn [andb]. destruct (N.eqb d (ch "<")) eqn:Ed.
        -- apply N.eqb_eq in Ed. subst d.
           change (ch ">" :: NEWLINE :: ind ++ ch "<" :: u ++ z)
             with (ch ">" :: (NEWLINE :: ind) ++ ch "<" :: u ++ z).
           rewrite (split_tags_break (NEWLINE :: ind) (u ++ z) Hnl).
           rewrite (split_tags_keep (ch "<"));
             [reflexivity|apply match_between_other; discriminate].
        -- rewrite split_tags_keep.
           ++ f_equal. apply (split_tags_spaces (NEWLINE :: ind) _ Hnl).
           ++ change (ch ">" :: NEWLINE :: ind ++ d :: u ++ z)
                with (ch ">" :: (NEWLINE :: ind) ++ d :: u ++ z).
              apply match_between_miss; try assumption.
              intros ->. discriminate Ed.
      * assert (Hne : t <> []) by (subst t; destruct w; discriminate).
        rewrite (endswith_cons (ch ">") _ t Hne). cbn [app].
        rewrite split_tags_keep, IH; [reflexivity|].
        subst t. simpl in Hr. rewrite <- app_assoc. cbn [app].
        apply match_between_miss; try assumption.
        intros ->. apply (Hg w Hw). exists [], r. reflexivity.
    + assert (Hc : c <> ch ">") by (intros ->; discriminate Ec).
      cbn [app]. rewrite split_tags_keep, IH
        by (apply match_between_other; exact Hc).
      destruct t as [|x t].
      * f_equal. f_equal.
        assert (E : endswith [c] [ch ">"] = false).
        { change (endswith [c] [ch ">"]) with (N.eqb (ch ">") c && true).
          rewrite N.eqb_sym, Ec. reflexivity. }
        rewrite E. reflexivity.
      * rewrite (endswith_cons c _ (x :: t)) by discriminate. reflexivity.
Qed.

(** *** Formatting what is formatted *)

Lemma rstrip_ends_well (s : str) : ends_well (rstrip s).
Proof.
  unfold rstrip. destruct (lstrip_head (rev s)) as [E|(c & t & E & Hc)];
    rewrite E.
  - left. reflexivity.
  - right. exists (rev t), c. split; [reflexivity|exact Hc].
Qed.

Lemma clean_ends (t : str) :
  clean t ->
  ends_well t /\ exists d u, t = d :: u /\ isspace d = false.
Proof.
  intros (Hne & Hs & _ & _). split.
  - rewrite <- Hs. unfold strip. apply rstrip_ends_well.
  - destruct (strip_head t) as [E|(c & u & E & Hc)]; rewrite Hs in E.
    + congruence.
    + exists c, u. auto.
Qed.

Lemma indentation_space (ind : str) : indentation ind -> all_space ind.
Proof.
  unfold indentation, all_space. induction 1 as [|c ind Hc _ IH];
    [reflexivity|].
  subst c. simpl. exact IH.
Qed.

Lemma indentation_no_newline (ind : str) :
  indentation ind ->
  forallb (fun c => negb (N.eqb c NEWLINE)) ind = true.
Proof.
  induction 1 as [|c ind Hc _ IH]; [reflexivity|].
  subst c. simpl. exact IH.
Qed.

Lemma py_mul_indentation (n : Z) : indentation (py_mul (py "  ") n).
Proof.
  unfold py_mul, indentation. induction (Z.to_nat n) as [|k IH];
    [constructor|].
  simpl. constructor; [reflexivity|]. constructor; [reflexivity|exact IH].
Qed.

Lemma join_tail (t : str) (outs : list str) :
  join [NEWLINE] (t :: outs) = t ++ tail_text outs.
Proof.
  revert t. induction outs as [|o outs IH]; intros t.
  - simpl. rewrite List.app_nil_r. reflexivity.
  - change (join [NEWLINE] (t :: o :: outs))
      with (t ++ NEWLINE :: join [NEWLINE] (o :: outs)).
    rewrite IH. reflexivity.
Qed.

Lemma indented_line_strip (out t : str) :
  indented_line out t -> clean t ->
  strip out = t /\ forallb (fun c => negb (N.eqb c NEWLINE)) out = true.
Proof.
  intros (ind & Hind & ->) Hc.
  destruct (clean_ends t Hc) as ([E|(a & d & Ha & Hd)] & c & u & Hu & Hcs).
  - destruct Hc as (Hne & _). congruence.
  - split.
    + pose proof (strip_between ind [] a c d (indentation_space ind Hind)
                    eq_refl Hcs Hd u) as H.
      rewrite <- Hu in H. rewrite List.app_nil_r in H. apply H. exact Ha.
    + apply no_newline_app. split; [apply indentation_no_newline; exact Hind|].
      apply Hc.
Qed.

(** [split_tags] on written lines moves indentation and nothing else. *)
Lemma scan_lines (outs ts : list str) :
  Forall2 indented_line outs ts -> Forall clean ts ->
  forall t, clean t ->
    exists outs',
      split_tags (t ++ tail_text outs) = t ++ tail_text outs' /\
      Forall2 indented_line outs' ts.
Proof.
  induction 1 as [|o u outs ts (ind & Hind & Ho) _ IH]; intros Hts t Ht.
  - exists []. split; [|constructor]. cbn [tail_text List.map List.concat].
    rewrite List.app_nil_r. destruct (clean_ends t Ht) as [He _].
    apply scan_to_end; [apply Ht|exact He].
  - inversion Hts as [|? ? Hu Hts']; subst.
    destruct (IH Hts' u Hu) as (outs' & E & H2).
    destruct (clean_ends u Hu) as (_ & d & u' & -> & Hd).
    destruct (clean_ends t Ht) as [He _].
    change (tail_text ((ind ++ d :: u') :: outs))
      with (NEWLINE :: (ind ++ d :: u') ++ tail_text outs).
    rewrite <- app_assoc.
    rewrite (scan_to_next t (proj2 (proj2 (proj2 Ht))) He ind u'
                          (tail_text outs) d (indentation_space ind Hind) Hd).
    rewrite E.
    exists (((if endswith t (py ">") && N.eqb d (ch "<") then [] else ind)
             ++ d :: u') :: outs').
    split.
    + change (tail_text (((if endswith t (py ">") && N.eqb d (ch "<")
                           then [] else ind) ++ d :: u') :: outs'))
        with (NEWLINE :: ((if endswith t (py ">") && N.eqb d (ch "<")
                           then [] else ind) ++ d :: u') ++ tail_text outs').
      rewrite <- app_assoc. reflexivity.
    + constructor; [|exact H2].
      destruct (endswith t (py ">") && N.eqb d (ch "<")).
      * exists []. split; [constructor|reflexivity].
      * exists ind. split; [exact Hind|reflexivity].
Qed.

Lemma trimmed_indented (outs ts : list str) :
  Forall2 indented_line outs ts -> Forall clean ts ->
  trimmed_lines outs = ts /\
  Forall (fun l => forallb (fun c => negb (N.eqb c NEWLINE)) l = true) outs.
Proof.
  induction 1 as [|o u outs ts Ho _ IH]; intros Hts.
  - split; [reflexivity|constructor].
  - inversion Hts as [|? ? Hu Hts']; subst.
    destruct (IH Hts') as [E Hn].
    destruct (indented_line_strip o u Ho Hu) as [Es Hnl].
    split; [|constructor; assumption].
    rewrite trimmed_cons, Es, E.
    destruct u; [destruct Hu; congruence|reflexivity].
Qed.

Section Idempotent.
Variable kind_of : str -> line_kind.
Variable f : list str * Z -> str -> list str * Z.
Hypothesis f_by_kind : forall st line, f st line = line_step (kind_of line) st line.
Hypothesis kind_blank :
  forall line, kind_of line = Blank <-> py_not (strip line) = true.
Hypothesis kind_strip : forall line, kind_of (strip line) = kind_of line.

Lemma written_indented (lines : list str) (level : Z) :
  Forall2 indented_line (lines_written f level lines) (trimmed_lines lines).
Proof.
  pose proof (written_shape kind_of f f_by_kind kind_blank lines level) as H.
  induction H as [|o t outs ts (n & Ho) _ IH]; constructor; [|exact IH].
  exists (py_mul (py "  ") n). split; [apply py_mul_indentation|exact Ho].
Qed.

(** The lines of the formatted text, trimmed, are the lines of the text. *)
Lemma formatted_lines (content : str) :
  let lines := split_lines (split_tags content) in
  trimmed_lines
    (split_lines (split_tags (join [NEWLINE] (lines_written f 0 lines))))
  = trimmed_lines lines.
Proof.
  intros lines.
  pose proof (written_indented lines 0) as H2.
  pose proof (trimmed_clean content) as Hc. fold lines in Hc.
  destruct H2 as [|o t outs ts Ho H2]; [reflexivity|].
  inversion Hc as [|? ? Ht Hts]; subst.
  destruct Ho as (ind & Hind & ->).
  rewrite join_tail, <- app_assoc.
  rewrite (split_tags_spaces ind _ (indentation_space ind Hind)).
  destruct (scan_lines outs ts H2 Hts t Ht) as (outs' & E & H2').
  rewrite E, app_assoc, <- join_tail.
  assert (Hall : Forall2 indented_line ((ind ++ t) :: outs') (t :: ts)).
  { constructor; [|exact H2']. exists ind. auto. }
  destruct (trimmed_indented _ _ Hall Hc) as [Et Hn].
  rewrite split_join; [exact Et|discriminate|exact Hn].
Qed.

Lemma format_twice (content : str) :
  let formatted :=
    join [NEWLINE] (lines_written f 0 (split_lines (split_tags content))) in
  join [NEWLINE] (lines_written f 0 (split_lines (split_tags formatted)))
  = formatted.
Proof.
  intros formatted. f_equal. unfold lines_written.
  rewrite <- (fold_trimmed kind_of f f_by_kind kind_blank kind_strip
                           (split_lines (split_tags formatted))).
  unfold formatted. rewrite formatted_lines.
  rewrite (fold_trimmed kind_of f f_by_kind kind_blank kind_strip).
  reflexivity.
Qed.
End Idempotent.

(** X27.  The indenters read their input through its trimmed lines only: two
    texts whose lines, after the tags are split, differ in blank lines and
    in the white space around the lines only are formatted to the same
    text.  Indentation already there plays no part. *)
Theorem indenters_ignore_old_indentation :
  forall content content' : str,
    trimmed_lines (split_lines (split_tags content))
    = trimmed_lines (split_lines (split_tags content')) ->
    _simple_xml_format content = _simple_xml_format content' /\
    _simple_html_format content = _simple_html_format content'.
Proof.
  intros content content' H.
  split.
  - change (join [NEWLINE]
              (fst (fold_left xml_line (split_lines (split_tags content))
                              ([], 0%Z)))
            = join [NEWLINE]
                (fst (fold_left xml_line (split_lines (split_tags content'))
                                ([], 0%Z)))).
    rewrite <- (fold_trimmed xml_kind_of xml_line xml_line_by_kind
                             kind_blank_xml xml_kind_strip
                             (split_lines (split_tags content))).
    rewrite <- (fold_trimmed xml_kind_of xml_line xml_line_by_kind
                             kind_blank_xml xml_kind_strip
                             (split_lines (split_tags content'))).
    rewrite H. reflexivity.
  - change (join [NEWLINE]
              (fst (fold_left html_line (split_lines (split_tags content))
                              ([], 0%Z)))
            = join [NEWLINE]
                (fst (fold_left html_line (split_lines (split_tags content'))
                                ([], 0%Z)))).
    rewrite <- (fold_trimmed html_kind_of html_line html_line_by_kind
                             kind_blank_html html_kind_strip
                             (split_lines (split_tags content))).
    rewrite <- (fold_trimmed html_kind_of html_line html_line_by_kind
                             kind_blank_html html_kind_strip
                             (split_lines (split_tags content'))).
    rewrite H. reflexivity.
Qed.

Lemma indenters_ignore_old_indentation_witness :
  let content := py "<a><b>x</b></a>" in
  let content' :=
    py "      <a>  " ++ [NEWLINE; NEWLINE] ++ py " <b>x</b>" ++ [NEWLINE; 9%N]
       ++ py "</a>" in
  _simple_xml_format content = _simple_xml_format content' /\
  _simple_html_format content = _simple_html_format content'.
Proof.
  apply (indenters_ignore_old_indentation
           (py "<a><b>x</b></a>")
           (py "      <a>  " ++ [NEWLINE; NEWLINE] ++ py " <b>x</b>"
               ++ [NEWLINE; 9%N] ++ py "</a>")).
  vm_compute. reflexivity.
Defined.

(** X28.  Formatting twice is formatting once: [_simple_xml_format],
    [_simple_html_format] and [format_html] return their own result
    unchanged. *)
Theorem indenters_are_idempotent :
  forall content : str,
    _simple_xml_format (_simple_xml_format content)
    = _simple_xml_format content /\
    _simple_html_format (_simple_html_format content)
    = _simple_html_format content /\
    format_html (format_html content) = format_html content.
Proof.
  intros content.
  pose proof (format_twice xml_kind_of xml_line xml_line_by_kind
                           kind_blank_xml xml_kind_strip content) as Hx.
  pose proof (format_twice html_kind_of html_line html_line_by_kind
                           kind_blank_html html_kind_strip content) as Hh.
  split; [exact Hx|]. split; exact Hh.
Qed.
